(** * ncplib: the NCP packet codec and the client connection

    A shallow embedding of [ncplib/packets.py], [ncplib/errors.py] and
    [ncplib/client.py].

    - Python [bytes]/[bytearray] are [list byte]; Python [int] is [Z].
    - A Python [str] that [.encode("latin1")] accepts is a [string]: its
      characters are exactly the 256 Latin-1 code points, so encoding and
      decoding are the identity on the underlying bytes.
    - Exceptions are first-class values ([exception]); a computation that
      can raise returns a [result].
    - The two [while] loops of [decode_fields] take fuel, since a parameter
      header that declares a size of zero words makes the inner loop spin.
    - [ncplib/values.py] and [ncplib/helpers.py] are not part of the sources
      at hand: the value codec and the timestamp conversions are section
      variables. *)

From Stdlib.Strings Require Import String Ascii Byte.
From Stdlib Require Import ZArith List Bool Lia Sorted.
Import ListNotations.
Open Scope Z_scope.

(** ** Bytes and [struct] *)

Module Bytes.

Definition bytes := list byte.

Definition byte_to_Z (b : byte) : Z := Z.of_N (Byte.to_N b).

Definition byte_of_Z (z : Z) : byte :=
  match Byte.of_N (Z.to_N (z mod 256)) with
  | Some b => b
  | None => x00
  end.

Fixpoint bytes_eqb (a b : bytes) : bool :=
  match a, b with
  | [], [] => true
  | x :: a', y :: b' => Byte.eqb x y && bytes_eqb a' b'
  | _, _ => false
  end.

(** [int.to_bytes(n, "little")]: [None] stands for [OverflowError]. *)
Fixpoint le_digits (n : nat) (v : Z) : bytes :=
  match n with
  | O => []
  | S n' => byte_of_Z (v mod 256) :: le_digits n' (v / 256)
  end.

Definition to_bytes (n : nat) (v : Z) : option bytes :=
  if (0 <=? v) && (v <? 256 ^ Z.of_nat n) then Some (le_digits n v) else None.

(** [int.from_bytes(b, "little")]. *)
Fixpoint from_bytes (b : bytes) : Z :=
  match b with
  | [] => 0
  | x :: r => byte_to_Z x + 256 * from_bytes r
  end.

(** [b"\x00" * n]. *)
Definition zeros (n : nat) : bytes := repeat x00 n.

(** The [struct] format ["<n>s"]: the argument is cut or NUL-padded to
    [n] bytes. *)
Definition pack_s (n : nat) (b : bytes) : bytes := firstn n (b ++ zeros n).

(** The [struct] formats ["I"] and ["B"]: [None] stands for
    [struct.error]. *)
Definition pack_I (v : Z) : option bytes := to_bytes 4 v.
Definition pack_B (v : Z) : option bytes := to_bytes 1 v.

(** Python's slice index clamping, for a sequence of length [len]. *)
Definition py_index (len i : Z) : Z :=
  if i <? 0 then Z.max 0 (len + i) else Z.min i len.

(** [buf[i:j]]. *)
Definition slice (buf : bytes) (i j : Z) : bytes :=
  let len := Z.of_nat (length buf) in
  let lo := py_index len i in
  let hi := py_index len j in
  firstn (Z.to_nat (hi - lo)) (skipn (Z.to_nat lo) buf).

(** [buf[i:j] = new] on a bytearray. *)
Definition set_slice (buf : bytes) (i j : Z) (new : bytes) : bytes :=
  let len := Z.of_nat (length buf) in
  let lo := py_index len i in
  let hi := Z.max lo (py_index len j) in
  firstn (Z.to_nat lo) buf ++ new ++ skipn (Z.to_nat hi) buf.

(** [Struct.unpack_from(buf, offset)] for a struct of [size] bytes: the raw
    bytes of the record, or [None] for [struct.error]. *)
Definition unpack_from (size : nat) (buf : bytes) (offset : Z) : option bytes :=
  let len := Z.of_nat (length buf) in
  let off := if offset <? 0 then offset + len else offset in
  if off <? 0 then None
  else if len - off <? Z.of_nat size then None
  else Some (firstn size (skipn (Z.to_nat off) buf)).

(** [Struct.unpack(buf)]: the buffer has exactly the size of the struct. *)
Definition unpack (size : nat) (buf : bytes) : option bytes :=
  if Nat.eqb (length buf) size then Some buf else None.

(** [Struct.pack_into(buf, offset, ...)] with the packed record [rec]. *)
Definition pack_into (buf : bytes) (offset : Z) (rec : bytes) : option bytes :=
  match unpack_from (length rec) buf offset with
  | None => None
  | Some _ =>
      let len := Z.of_nat (length buf) in
      let off := if offset <? 0 then offset + len else offset in
      Some (firstn (Z.to_nat off) buf ++ rec
              ++ skipn (Z.to_nat off + length rec) buf)
  end.

(** [value.rstrip(b" \x00")]. *)
Definition is_pad (b : byte) : bool := Byte.eqb b x20 || Byte.eqb b x00.

Fixpoint rstrip (b : bytes) : bytes :=
  match b with
  | [] => []
  | x :: r =>
      match rstrip r with
      | [] => if is_pad x then [] else [x]
      | r' => x :: r'
      end
  end.

(** [s.encode("latin1")] and [b.decode("latin1")].  A [str] of the model
    is a Latin-1 string, one character for each byte.  On a [str] with a
    character above U+00FF [encode] raises [UnicodeEncodeError]: such a
    [str] is no value of [string], and what is proved of names is proved of
    Latin-1 names. *)
Definition encode_latin1 (s : string) : bytes := list_byte_of_string s.
Definition decode_latin1 (b : bytes) : string := string_of_list_byte b.

End Bytes.
Import Bytes.

(** ** [ncplib/errors.py] *)

Module Errors.

Section Errors.

Context {value : Type}.

(** The Python objects that end up as arguments of an exception. *)
Inductive pyobj : Type :=
| PyNone
| PyStr (s : string)
| PyInt (n : Z)
| PyValue (v : value).

(** The four classes of [errors.py], and the built-in exceptions that the
    modelled code can raise. *)
Inductive exn_class : Type :=
| DecodeError
| CommandError
| DecodeWarning
| CommandWarning
| TypeError
| StructError
| OverflowError.

Record exception : Type := mkException {
  exc_class : exn_class;
  exc_args : list pyobj;
  exc_attrs : list (string * pyobj)
}.

(** [result]: the outcome of a computation that may raise.  [OutOfFuel] is
    only produced by the fuelled loops of the decoder. *)
Inductive result (A : Type) : Type :=
| Ok (a : A)
| Raise (e : exception)
| OutOfFuel.

(** The bases of the classes of [errors.py]:
    [class DecodeError(CommandMixin, Exception)],
    [class CommandError(Exception)],
    [class DecodeWarning(Warning)],
    [class CommandWarning(CommandMixin, Warning)]. *)
Definition has_CommandMixin (c : exn_class) : bool :=
  match c with
  | DecodeError | CommandWarning => true
  | _ => false
  end.

(** [CommandMixin.__init__(self, packet_type, field_name, field_id, message,
    code)]: the attributes it sets. *)
Definition CommandMixin_init (packet_type field_name field_id message code : pyobj)
  : list (string * pyobj) :=
  [("packet_type"%string, packet_type); ("field_name"%string, field_name);
   ("field_id"%string, field_id); ("message"%string, message);
   ("code"%string, code)].

(** The [TypeError] of a call with the wrong number of arguments (its text
    is not modelled). *)
Definition arity_error : exception := mkException TypeError [] [].

(** A call [C(a1, ..., an)] of a class [C] of [errors.py].  A class with
    [CommandMixin] among its bases inherits its five-argument [__init__];
    the others inherit [BaseException.__init__], which takes anything. *)
Definition instantiate (c : exn_class) (args : list pyobj) : result exception :=
  if has_CommandMixin c then
    match args with
    | [packet_type; field_name; field_id; message; code] =>
        Ok _ (mkException c args
                (CommandMixin_init packet_type field_name field_id message code))
    | _ => Raise _ arity_error
    end
  else Ok _ (mkException c args []).

(** [raise C(a1, ..., an)]. *)
Definition raise_ {A : Type} (c : exn_class) (args : list pyobj) : result A :=
  match instantiate c args with
  | Ok _ e => Raise _ e
  | Raise _ e => Raise _ e
  | OutOfFuel _ => OutOfFuel _
  end.

(** [getattr(e, name)]: [None] stands for [AttributeError]. *)
Fixpoint lookup_attr (name : string) (attrs : list (string * pyobj)) : option pyobj :=
  match attrs with
  | [] => None
  | (k, v) :: r => if String.eqb k name then Some v else lookup_attr name r
  end.

Definition getattr (e : exception) (name : string) : option pyobj :=
  lookup_attr name (exc_attrs e).

Definition struct_error : exception := mkException StructError [] [].
Definition overflow_error : exception := mkException OverflowError [] [].

Definition bind {A B : Type} (m : result A) (k : A -> result B) : result B :=
  match m with
  | Ok _ a => k a
  | Raise _ e => Raise _ e
  | OutOfFuel _ => OutOfFuel _
  end.

(** A library call that fails with the exception [e]. *)
Definition or_raise {A : Type} (e : exception) (o : option A) : result A :=
  match o with
  | Some a => Ok _ a
  | None => Raise _ e
  end.

End Errors.

Arguments pyobj : clear implicits.
Arguments exception : clear implicits.
Arguments result : clear implicits.
Arguments Ok {value A} a.
Arguments Raise {value A} e.
Arguments OutOfFuel {value A}.

Declare Scope result_scope.
Delimit Scope result_scope with result.
Notation "x <- m ;; k" := (bind m (fun x => k))
  (at level 61, m at next level, right associativity) : result_scope.
Notation "' p <- m ;; k" := (bind m (fun x => match x with p => k end))
  (at level 61, p pattern, m at next level, right associativity) : result_scope.

End Errors.
Import Errors.

(** ** [ncplib/packets.py] *)

Module Packets.

(** An [OrderedDict] keyed by strings: the items in insertion order.
    Assigning to a key that is present replaces the value in place. *)
Definition odict (V : Type) : Type := list (string * V).

Fixpoint od_set {V : Type} (k : string) (v : V) (d : odict V) : odict V :=
  match d with
  | [] => [(k, v)]
  | (k', v') :: r =>
      if String.eqb k' k then (k', v) :: r else (k', v') :: od_set k v r
  end.

Fixpoint od_get {V : Type} (k : string) (d : odict V) : option V :=
  match d with
  | [] => None
  | (k', v') :: r => if String.eqb k' k then Some v' else od_get k r
  end.

(** The bytes [offset .. offset + len) of an unpacked record. *)
Definition sub (raw : bytes) (offset len : nat) : bytes :=
  firstn len (skipn offset raw).

Definition PACKET_HEADER_MAGIC : bytes := [xdd; xcc; xbb; xaa].
Definition PACKET_FORMAT_TAG : bytes := [x01; x00; x00; x00].
Definition PACKET_FOOTER_MAGIC : bytes := [xaa; xbb; xcc; xdd].
Definition PACKET_FOOTER : bytes := [x00; x00; x00; x00; xaa; xbb; xcc; xdd].

Definition decode_identifier (value : bytes) : string :=
  decode_latin1 (rstrip value).

Section Codec.

Context {value datetime : Type}.

Local Abbreviation res := (result value).
Local Abbreviation warning := (exception value).

(** [ncplib.values]: [encode_value] gives the type id and the payload,
    [decode_value] takes the type id and the padded payload. *)
Variable encode_value : value -> res (Z * bytes).
Variable decode_value : Z -> bytes -> res value.

(** [ncplib.helpers]: seconds and nanoseconds of a timestamp, and back. *)
Variable datetime_to_unix : datetime -> Z * Z.
Variable unix_to_datetime : Z -> Z -> datetime.

Record FieldData : Type := mkFieldData {
  field_name : string;
  field_id : Z;
  field_params : odict value
}.

Record PacketData : Type := mkPacketData {
  packet_type : string;
  packet_id : Z;
  packet_timestamp : datetime;
  packet_info : bytes;
  packet_fields : list FieldData
}.

Open Scope result_scope.

(** *** Field decoding *)

(** The inner [while offset < param_limit] loop of [decode_fields]; it gives
    the offset after the params and the params. *)
Fixpoint decode_params (fuel : nat) (buf : bytes) (offset param_limit : Z)
    (params : odict value) (ws : list warning)
  : res (Z * odict value) * list warning :=
  match fuel with
  | O => (OutOfFuel, ws)
  | S fuel' =>
      if offset <? param_limit then
        if bytes_eqb (slice buf offset (offset + 8)) PACKET_FOOTER then
          match instantiate DecodeWarning
                  [PyStr "Encountered embedded packet footer bug"] with
          | Ok w => decode_params fuel' buf (offset + 8) param_limit params (ws ++ [w])
          | Raise e => (Raise e, ws)
          | OutOfFuel => (OutOfFuel, ws)
          end
        else
          match unpack_from 8 buf offset with
          | None => (Raise struct_error, ws)
          | Some raw =>
              let param_name := sub raw 0 4 in
              let param_size := sub raw 4 3 in
              let param_type_id := from_bytes (sub raw 7 1) in
              let param_size := from_bytes param_size * 4 in
              let param_value_encoded := slice buf (offset + 8) (offset + param_size) in
              match decode_value param_type_id param_value_encoded with
              | Ok v =>
                  let params := od_set (decode_identifier param_name) v params in
                  let offset := offset + param_size in
                  if offset >? param_limit then
                    (raise_ DecodeError [PyStr "Parameter overflow by {} bytes"], ws)
                  else decode_params fuel' buf offset param_limit params ws
              | Raise e => (Raise e, ws)
              | OutOfFuel => (OutOfFuel, ws)
              end
          end
      else (Ok (offset, params), ws)
  end.

(** The outer [while offset < field_limit] loop and the check after it. *)
Fixpoint decode_fields_loop (fuel : nat) (buf : bytes) (offset field_limit : Z)
    (fields : list FieldData) (ws : list warning)
  : res (list FieldData) * list warning :=
  match fuel with
  | O => (OutOfFuel, ws)
  | S fuel' =>
      if offset <? field_limit then
        match unpack_from 12 buf offset with
        | None => (Raise struct_error, ws)
        | Some raw =>
            let field_name := sub raw 0 4 in
            let field_size := sub raw 4 3 in
            let field_id := from_bytes (sub raw 8 4) in
            let param_limit := offset + from_bytes field_size * 4 in
            let offset := offset + 12 in
            match decode_params fuel' buf offset param_limit [] ws with
            | (Ok (offset, params), ws) =>
                decode_fields_loop fuel' buf offset field_limit
                  (fields ++ [mkFieldData (decode_identifier field_name) field_id params])
                  ws
            | (Raise e, ws) => (Raise e, ws)
            | (OutOfFuel, ws) => (OutOfFuel, ws)
            end
        end
      else if offset >? field_limit then
        (raise_ DecodeError [PyStr "Field overflow by {} bytes"], ws)
      else (Ok fields, ws)
  end.

Definition decode_fields (fuel : nat) (buf : bytes) (offset field_limit : Z)
  : res (list FieldData) * list warning :=
  decode_fields_loop fuel buf offset field_limit [] [].

(** *** Packet encoding *)

(** The body of [for param_name, param_value in params.items()]. *)
Definition encode_param (buf : bytes) (offset : Z) (param_name : string)
    (param_value : value) : res (bytes * Z) :=
  '(param_type_id, param_encoded_value) <- encode_value param_value ;;
  let param_size := 8 + Z.of_nat (length param_encoded_value) in
  let param_padding_size := (- param_size) mod 4 in
  size_bytes <- or_raise overflow_error
                  (to_bytes 3 ((param_size + param_padding_size) / 4)) ;;
  type_byte <- or_raise struct_error (pack_B param_type_id) ;;
  let buf := buf ++ (pack_s 4 (encode_latin1 param_name)
                       ++ pack_s 3 size_bytes ++ type_byte) in
  let buf := buf ++ param_encoded_value in
  let buf := buf ++ zeros (Z.to_nat param_padding_size) in
  Ok (buf, offset + param_size + param_padding_size).

Fixpoint encode_params (buf : bytes) (offset : Z) (items : odict value)
  : res (bytes * Z) :=
  match items with
  | [] => Ok (buf, offset)
  | (param_name, param_value) :: rest =>
      '(buf, offset) <- encode_param buf offset param_name param_value ;;
      encode_params buf offset rest
  end.

(** The body of [for field_name, field_id, params in fields]. *)
Definition encode_field (buf : bytes) (offset : Z) (f : FieldData)
  : res (bytes * Z) :=
  let field_offset := offset in
  id_bytes <- or_raise struct_error (pack_I (field_id f)) ;;
  let buf := buf ++ (pack_s 4 (encode_latin1 (field_name f))
                       ++ pack_s 3 [x00; x00; x00] ++ pack_s 1 [x00] ++ id_bytes) in
  let offset := offset + 12 in
  '(buf, offset) <- encode_params buf offset (field_params f) ;;
  size_bytes <- or_raise overflow_error (to_bytes 3 ((offset - field_offset) / 4)) ;;
  Ok (set_slice buf (field_offset + 4) (field_offset + 7) (slice size_bytes 0 3),
      offset).

Fixpoint encode_fields (buf : bytes) (offset : Z) (fields : list FieldData)
  : res (bytes * Z) :=
  match fields with
  | [] => Ok (buf, offset)
  | f :: rest =>
      '(buf, offset) <- encode_field buf offset f ;;
      encode_fields buf offset rest
  end.

(** [PACKET_HEADER_STRUCT.pack]: format ["<4s4sII4sII4s"]. *)
Definition pack_packet_header (header type : bytes) (size id : Z)
    (format : bytes) (time nanotime : Z) (info : bytes) : res bytes :=
  size_b <- or_raise struct_error (pack_I size) ;;
  id_b <- or_raise struct_error (pack_I id) ;;
  time_b <- or_raise struct_error (pack_I time) ;;
  nano_b <- or_raise struct_error (pack_I nanotime) ;;
  Ok (pack_s 4 header ++ pack_s 4 type ++ size_b ++ id_b
        ++ pack_s 4 format ++ time_b ++ nano_b ++ pack_s 4 info).

Definition encode_packet (packet_type : string) (packet_id : Z)
    (timestamp : datetime) (info : bytes) (fields : list FieldData) : res bytes :=
  let '(timestamp_unix, timestamp_nano) := datetime_to_unix timestamp in
  let buf := zeros 32 in
  header <- pack_packet_header PACKET_HEADER_MAGIC (encode_latin1 packet_type) 0
              packet_id PACKET_FORMAT_TAG timestamp_unix timestamp_nano info ;;
  buf <- or_raise struct_error (pack_into buf 0 header) ;;
  let offset := 32 in
  '(buf, offset) <- encode_fields buf offset fields ;;
  let buf := buf ++ PACKET_FOOTER in
  size_bytes <- or_raise overflow_error (to_bytes 4 ((offset + 8) / 4)) ;;
  Ok (set_slice buf 8 12 size_bytes).

(** *** Packet decoding *)

(** The closure [decode_packet_body] of [decode_packet_cps], with the
    variables it captures as arguments. *)
Definition decode_packet_body (packet_type : string) (packet_id : Z)
    (timestamp : datetime) (info : bytes) (size_remaining : Z)
    (fuel : nat) (body_buf : bytes) : res PacketData * list warning :=
  if Z.of_nat (length body_buf) >? size_remaining then
    (raise_ DecodeError [PyStr "Packet body overflow by {} bytes"], [])
  else
    match decode_fields fuel body_buf 0 (size_remaining - 8) with
    | (Ok fields, ws) =>
        match unpack_from 8 body_buf (size_remaining - 8) with
        | None => (Raise struct_error, ws)
        | Some raw =>
            let footer := sub raw 4 4 in
            if negb (bytes_eqb footer PACKET_FOOTER_MAGIC) then
              (raise_ DecodeError [PyStr "Invalid packet footer {}"], ws)
            else
              (Ok (mkPacketData packet_type packet_id timestamp info fields), ws)
        end
    | (Raise e, ws) => (Raise e, ws)
    | (OutOfFuel, ws) => (OutOfFuel, ws)
    end.

Definition decode_packet_cps (header_buf : bytes)
  : res (Z * (nat -> bytes -> res PacketData * list warning)) :=
  raw <- or_raise struct_error (unpack 32 header_buf) ;;
  let header := sub raw 0 4 in
  let packet_type := sub raw 4 4 in
  let size_words := from_bytes (sub raw 8 4) in
  let packet_id := from_bytes (sub raw 12 4) in
  let time := from_bytes (sub raw 20 4) in
  let nanotime := from_bytes (sub raw 24 4) in
  let info := sub raw 28 4 in
  let packet_type := decode_identifier packet_type in
  let size := size_words * 4 in
  if negb (bytes_eqb header PACKET_HEADER_MAGIC) then
    raise_ DecodeError [PyStr "Invalid packet header {}"]
  else
    let timestamp := unix_to_datetime time nanotime in
    let size_remaining := size - 32 in
    Ok (size_remaining,
        decode_packet_body packet_type packet_id timestamp info size_remaining).

Definition decode_packet (fuel : nat) (buf : bytes)
  : res PacketData * list warning :=
  match decode_packet_cps (slice buf 0 32) with
  | Ok (body_size, decode_packet_body) => decode_packet_body fuel (slice buf 32 (Z.of_nat (length buf)))
  | Raise e => (Raise e, [])
  | OutOfFuel => (OutOfFuel, [])
  end.

End Codec.

Arguments FieldData : clear implicits.
Arguments PacketData : clear implicits.
Arguments mkFieldData {value} _ _ _.
Arguments mkPacketData {value datetime} _ _ _ _ _.

End Packets.
Import Packets.

(** ** [ncplib/client.py] *)

Module Client.

Section Client.

Context {value datetime : Type}.

Local Abbreviation res := (result value).
Local Abbreviation warning := (exception value).
Local Abbreviation Field := (FieldData value).
Local Abbreviation Packet := (PacketData value datetime).

Open Scope string_scope.
Open Scope list_scope.

(** An [asyncio.Future] that carries a packet. *)
Inductive future : Type :=
| Pending
| Result (packet : Packet)
| Exception (ex : exception value).

Definition done (f : future) : bool :=
  match f with
  | Pending => false
  | _ => true
  end.

(** The state of a [Client] that the modelled methods read or write.
    [_writer] is the list of packets handed to [write_packet], oldest first;
    [_waiters] is the set of futures, each with its identity;
    [next_future] is the identity of the next [asyncio.Future()]. *)
Record Client : Type := mkClient {
  _auto_erro : bool;
  _auto_warn : bool;
  _auto_ackn : bool;
  _id_gen : Z;
  _writer : list (string * Z * list Field);
  _waiters : list (nat * future);
  next_future : nat
}.

Definition set_id_gen (self : Client) (n : Z) : Client :=
  mkClient (_auto_erro self) (_auto_warn self) (_auto_ackn self) n
    (_writer self) (_waiters self) (next_future self).

Definition set_writer (self : Client) (w : list (string * Z * list Field)) : Client :=
  mkClient (_auto_erro self) (_auto_warn self) (_auto_ackn self) (_id_gen self)
    w (_waiters self) (next_future self).

Definition set_waiters (self : Client) (w : list (nat * future)) : Client :=
  mkClient (_auto_erro self) (_auto_warn self) (_auto_ackn self) (_id_gen self)
    (_writer self) w (next_future self).

Definition _gen_id (self : Client) : Client * Z :=
  let self := set_id_gen self (_id_gen self + 1) in
  (self, _id_gen self).

(** *** Waiter handling *)

(** [_wait_for_packet] up to its suspension: a new future joins the set. *)
Definition _wait_for_packet (self : Client) : Client * nat :=
  let waiter := next_future self in
  (mkClient (_auto_erro self) (_auto_warn self) (_auto_ackn self) (_id_gen self)
     (_writer self) (_waiters self ++ [(waiter, Pending)]) (S waiter),
   waiter).

Fixpoint lookup_future (waiter : nat) (ws : list (nat * future)) : future :=
  match ws with
  | [] => Pending
  | (w, f) :: r => if Nat.eqb w waiter then f else lookup_future waiter r
  end.

(** [_wait_for_packet] from its resumption: the [finally] clause removes the
    future, and the result of the future is returned or raised. *)
Definition _wait_for_packet_resume (self : Client) (waiter : nat)
  : Client * option (res Packet) :=
  match lookup_future waiter (_waiters self) with
  | Pending => (self, None)
  | Result packet =>
      (set_waiters self (filter (fun w => negb (Nat.eqb (fst w) waiter)) (_waiters self)),
       Some (Ok packet))
  | Exception ex =>
      (set_waiters self (filter (fun w => negb (Nat.eqb (fst w) waiter)) (_waiters self)),
       Some (Raise ex))
  end.

Definition _active_waiters (self : Client) : list (nat * future) :=
  filter (fun w => negb (done (snd w))) (_waiters self).

(** [for waiter in self._active_waiters(): waiter.set_result(packet)], and
    the same with [set_exception]. *)
Definition resolve_active (self : Client) (outcome : future) : Client :=
  set_waiters self
    (map (fun w => if done (snd w) then w else (fst w, outcome)) (_waiters self)).

(** *** The reader loop *)

(** What [yield from read_packet(self._reader)] does on one turn of the
    loop. *)
Inductive read_event : Type :=
| ReadPacket (packet : Packet)
| ReadCancelled
| ReadError (ex : exception value).

Inductive reader_status : Type :=
| ReaderWaiting
| ReaderCancelled.

(** [_run_reader] against the events of the stream, in order: the state of
    the client, the status of the reader task and the number of reads it
    made.  [ReaderWaiting] is the task suspended in [read_packet] with no
    event left. *)
Fixpoint _run_reader (self : Client) (reads : list read_event) (nread : nat)
  : Client * reader_status * nat :=
  match reads with
  | [] => (self, ReaderWaiting, nread)
  | ReadPacket packet :: rest =>
      _run_reader (resolve_active self (Result packet)) rest (S nread)
  | ReadCancelled :: _ => (self, ReaderCancelled, S nread)
  | ReadError ex :: rest =>
      _run_reader (resolve_active self (Exception ex)) rest (S nread)
  end.

(** *** Receiving fields *)

Definition get_or_None (k : string) (params : odict value) : pyobj value :=
  match od_get k params with
  | Some v => PyValue v
  | None => PyNone
  end.

Definition is_not_None (o : pyobj value) : bool :=
  match o with
  | PyNone => false
  | _ => true
  end.

(** The handlers give the truth value of what they return ([None] is
    false). *)
Definition _handle_erro (packet_type : string) (field : Field) : res bool :=
  let error_message := get_or_None "ERRO" (field_params field) in
  let error_code := get_or_None "ERRC" (field_params field) in
  if is_not_None error_message || is_not_None error_code then
    raise_ CommandError
      [PyStr packet_type; PyStr (field_name field); PyInt (field_id field);
       error_message; error_code]
  else Ok false.

Definition _handle_warn (packet_type : string) (field : Field) (ws : list warning)
  : res bool * list warning :=
  let warning_message := get_or_None "WARN" (field_params field) in
  let warning_code := get_or_None "WARC" (field_params field) in
  let emitted :=
    if is_not_None warning_message || is_not_None warning_code then
      match instantiate CommandWarning
              [PyStr packet_type; PyStr (field_name field); PyInt (field_id field);
               warning_message; warning_code] with
      | Ok w => Ok (ws ++ [w])
      | Raise e => Raise e
      | OutOfFuel => OutOfFuel
      end
    else Ok ws in
  match emitted with
  | Ok ws' => (Ok (String.eqb (field_name field) "WARN"), ws')
  | Raise e => (Raise e, ws)
  | OutOfFuel => (OutOfFuel, ws)
  end.

Definition _handle_ackn (packet_type : string) (field : Field) : bool :=
  let ackn := get_or_None "ACKN" (field_params field) in
  is_not_None ackn.

Definition field_matches (field_name' : string) (field_id' : option Z)
    (field : Field) : bool :=
  String.eqb (field_name field) field_name'
  && match field_id' with
     | None => true
     | Some i => Z.eqb (field_id field) i
     end.

(** The [for field in packet.fields] loop of [recv_field]: [Ok (Some params)]
    is [return field.params], [Ok None] is the end of the loop. *)
Fixpoint recv_field_scan (self : Client) (packet_type field_name' : string)
    (field_id' : option Z) (fields : list Field) (ws : list warning)
  : res (option (odict value)) * list warning :=
  match fields with
  | [] => (Ok None, ws)
  | field :: rest =>
      if field_matches field_name' field_id' field then
        match (if _auto_erro self then _handle_erro packet_type field else Ok false) with
        | Ok true => recv_field_scan self packet_type field_name' field_id' rest ws
        | Ok false =>
            match (if _auto_warn self then _handle_warn packet_type field ws
                   else (Ok false, ws)) with
            | (Ok true, ws) =>
                recv_field_scan self packet_type field_name' field_id' rest ws
            | (Ok false, ws) =>
                if _auto_ackn self && _handle_ackn packet_type field then
                  recv_field_scan self packet_type field_name' field_id' rest ws
                else (Ok (Some (field_params field)), ws)
            | (Raise e, ws) => (Raise e, ws)
            | (OutOfFuel, ws) => (OutOfFuel, ws)
            end
        | Raise e => (Raise e, ws)
        | OutOfFuel => (OutOfFuel, ws)
        end
      else recv_field_scan self packet_type field_name' field_id' rest ws
  end.

(** One turn of the [while True] loop of [recv_field], from the packet that
    [_wait_for_packet] returned. *)
Definition recv_field_packet (self : Client) (packet_type' field_name' : string)
    (field_id' : option Z) (packet : Packet) (ws : list warning)
  : res (option (odict value)) * list warning :=
  if String.eqb (packet_type packet) packet_type' then
    recv_field_scan self packet_type' field_name' field_id' (packet_fields packet) ws
  else (Ok None, ws).

(** How a [recv_field] call stands. *)
Inductive recv_status : Type :=
| Returned (params : odict value)
| Raised (ex : exception value)
| Waiting.

(** [recv_field] against the outcomes of its successive
    [_wait_for_packet] calls. *)
Fixpoint recv_field (self : Client) (packet_type' field_name' : string)
    (field_id' : option Z) (deliveries : list (res Packet)) (ws : list warning)
  : recv_status * list warning :=
  match deliveries with
  | [] => (Waiting, ws)
  | Ok packet :: rest =>
      match recv_field_packet self packet_type' field_name' field_id' packet ws with
      | (Ok (Some params), ws) => (Returned params, ws)
      | (Ok None, ws) => recv_field self packet_type' field_name' field_id' rest ws
      | (Raise e, ws) => (Raised e, ws)
      | (OutOfFuel, ws) => (Waiting, ws)
      end
  | Raise e :: _ => (Raised e, ws)
  | OutOfFuel :: _ => (Waiting, ws)
  end.

(** A suspended [recv_field] call: what it waits for and the future it
    waits on. *)
Record caller : Type := mkCaller {
  caller_packet_type : string;
  caller_field_name : string;
  caller_field_id : option Z;
  caller_waiter : nat
}.

(** A caller runs from its resumption to its next suspension, or to its
    end. *)
Definition resume (self : Client) (c : caller)
  : Client * caller * recv_status * list warning :=
  match _wait_for_packet_resume self (caller_waiter c) with
  | (self, None) => (self, c, Waiting, [])
  | (self, Some (Ok packet)) =>
      match recv_field_packet self (caller_packet_type c) (caller_field_name c)
              (caller_field_id c) packet [] with
      | (Ok (Some params), ws) => (self, c, Returned params, ws)
      | (Ok None, ws) =>
          let '(self, waiter) := _wait_for_packet self in
          (self,
           mkCaller (caller_packet_type c) (caller_field_name c) (caller_field_id c) waiter,
           Waiting, ws)
      | (Raise e, ws) => (self, c, Raised e, ws)
      | (OutOfFuel, ws) => (self, c, Waiting, ws)
      end
  | (self, Some (Raise e)) => (self, c, Raised e, [])
  | (self, Some OutOfFuel) => (self, c, Waiting, [])
  end.

(** The event loop runs every caller once, in the order given. *)
Fixpoint resume_all (self : Client) (cs : list caller)
  : Client * list (caller * recv_status) :=
  match cs with
  | [] => (self, [])
  | c :: rest =>
      let '(self, c', st, _) := resume self c in
      let '(self, out) := resume_all self rest in
      (self, (c', st) :: out)
  end.

(** [recv_field] up to its first suspension, for each call of a list. *)
Fixpoint start_callers (self : Client) (calls : list (string * string * option Z))
  : Client * list caller :=
  match calls with
  | [] => (self, [])
  | (t, f, i) :: rest =>
      let '(self, waiter) := _wait_for_packet self in
      let '(self, cs) := start_callers self rest in
      (self, mkCaller t f i waiter :: cs)
  end.

(** *** Sending packets *)

(** The list comprehension of [send]: one [_gen_id] per item of
    [fields.items()], in order. *)
Fixpoint send_fields (self : Client) (fields : odict (odict value))
  : Client * list Field :=
  match fields with
  | [] => (self, [])
  | (field_name, params) :: rest =>
      let '(self, id) := _gen_id self in
      let '(self, fs) := send_fields self rest in
      (self, mkFieldData field_name id params :: fs)
  end.

(** [send]: the client afterwards, and the [_fields_lookup] of the
    [ClientResponse]. *)
Definition send (self : Client) (packet_type : string) (fields : odict (odict value))
  : Client * odict Z :=
  let '(self, fields) := send_fields self fields in
  let '(self, packet_id) := _gen_id self in
  let self := set_writer self (_writer self ++ [(packet_type, packet_id, fields)]) in
  (self, map (fun f => (field_name f, field_id f)) fields).

End Client.

Arguments Client : clear implicits.
Arguments future : clear implicits.
Arguments read_event : clear implicits.

End Client.
Import Client.

(** ** The frame layout

    The layout of a packet on the wire, as a tree: what a well-framed byte
    string is, independently of the encoder and of the decoder. *)

Module Wire.

(** What stands at a param boundary: a param, whose payload includes its
    padding, or the eight bytes of an embedded packet footer. *)
Inductive wire_item : Type :=
| WFooter
| WParam (name : bytes) (type_id : byte) (payload : bytes).

Record wire_field : Type := mkWireField {
  wf_name : bytes;
  wf_type_id : byte;
  wf_id : Z;
  wf_items : list wire_item
}.

Record wire_packet : Type := mkWirePacket {
  wp_type : bytes;
  wp_id : Z;
  wp_format : bytes;
  wp_time : Z;
  wp_nanotime : Z;
  wp_info : bytes;
  wp_fields : list wire_field;
  wp_checksum : bytes
}.

Definition param_header (name : bytes) (size_words : Z) (type_id : byte) : bytes :=
  name ++ le_digits 3 size_words ++ [type_id].

Definition wire_item_bytes (it : wire_item) : bytes :=
  match it with
  | WFooter => PACKET_FOOTER
  | WParam name type_id payload =>
      param_header name ((8 + Z.of_nat (length payload)) / 4) type_id ++ payload
  end.

Definition items_bytes (its : list wire_item) : bytes :=
  concat (map wire_item_bytes its).

Definition field_header (name : bytes) (size_words : Z) (type_id : byte) (id : Z)
  : bytes :=
  name ++ le_digits 3 size_words ++ [type_id] ++ le_digits 4 id.

Definition wire_field_bytes (f : wire_field) : bytes :=
  field_header (wf_name f)
    ((12 + Z.of_nat (length (items_bytes (wf_items f)))) / 4)
    (wf_type_id f) (wf_id f)
  ++ items_bytes (wf_items f).

Definition fields_bytes (fs : list wire_field) : bytes :=
  concat (map wire_field_bytes fs).

Definition packet_header (type : bytes) (size_words id : Z) (format : bytes)
    (time nanotime : Z) (info : bytes) : bytes :=
  PACKET_HEADER_MAGIC ++ type ++ le_digits 4 size_words ++ le_digits 4 id
    ++ format ++ le_digits 4 time ++ le_digits 4 nanotime ++ info.

Definition wire_packet_bytes (p : wire_packet) : bytes :=
  packet_header (wp_type p)
    ((32 + Z.of_nat (length (fields_bytes (wp_fields p))) + 8) / 4)
    (wp_id p) (wp_format p) (wp_time p) (wp_nanotime p) (wp_info p)
  ++ fields_bytes (wp_fields p)
  ++ wp_checksum p ++ PACKET_FOOTER_MAGIC.

(** Well-framed trees: every size fits its size word, every block is a whole
    number of words, and no param header reads as a packet footer. *)
Definition wire_item_ok (it : wire_item) : bool :=
  match it with
  | WFooter => true
  | WParam name type_id payload =>
      Nat.eqb (length name) 4
      && (Z.of_nat (length payload) mod 4 =? 0)
      && ((8 + Z.of_nat (length payload)) / 4 <? 256 ^ 3)
      && negb (bytes_eqb
                 (param_header name ((8 + Z.of_nat (length payload)) / 4) type_id)
                 PACKET_FOOTER)
  end.

Definition wire_field_ok (f : wire_field) : bool :=
  Nat.eqb (length (wf_name f)) 4
  && (0 <=? wf_id f) && (wf_id f <? 256 ^ 4)
  && forallb wire_item_ok (wf_items f)
  && ((12 + Z.of_nat (length (items_bytes (wf_items f)))) / 4 <? 256 ^ 3).

Definition wire_packet_ok (p : wire_packet) : bool :=
  Nat.eqb (length (wp_type p)) 4
  && (0 <=? wp_id p) && (wp_id p <? 256 ^ 4)
  && Nat.eqb (length (wp_format p)) 4
  && (0 <=? wp_time p) && (wp_time p <? 256 ^ 4)
  && (0 <=? wp_nanotime p) && (wp_nanotime p <? 256 ^ 4)
  && Nat.eqb (length (wp_info p)) 4
  && forallb wire_field_ok (wp_fields p)
  && ((32 + Z.of_nat (length (fields_bytes (wp_fields p))) + 8) / 4 <? 256 ^ 4)
  && Nat.eqb (length (wp_checksum p)) 4.

(** A packet footer embedded at a param boundary: before the item at
    position [j] of the field at position [i], or after the last item when
    the field has no more than [j] items.  The size words follow. *)
Definition embed_in_field (j : nat) (f : wire_field) : wire_field :=
  mkWireField (wf_name f) (wf_type_id f) (wf_id f)
    (firstn j (wf_items f) ++ WFooter :: skipn j (wf_items f)).

Definition embed_footer (i j : nat) (p : wire_packet) : wire_packet :=
  mkWirePacket (wp_type p) (wp_id p) (wp_format p) (wp_time p) (wp_nanotime p)
    (wp_info p)
    (firstn i (wp_fields p)
       ++ match skipn i (wp_fields p) with
          | [] => []
          | f :: rest => embed_in_field j f :: rest
          end)
    (wp_checksum p).

(** The same tree with another checksum and another format tag. *)
Definition with_checksum_and_format (checksum format : bytes) (p : wire_packet)
  : wire_packet :=
  mkWirePacket (wp_type p) (wp_id p) format (wp_time p) (wp_nanotime p)
    (wp_info p) (wp_fields p) checksum.

Section Meaning.

Context {value datetime : Type}.

Local Abbreviation res := (result value).
Local Abbreviation warning := (exception value).

Variable decode_value : Z -> bytes -> res value.
Variable unix_to_datetime : Z -> Z -> datetime.

(** The warning of an embedded packet footer. *)
Definition footer_warning : warning :=
  mkException DecodeWarning [PyStr "Encountered embedded packet footer bug"] [].

(** What a well-framed tree stands for: the params of a list of items, in
    order, and the warnings of the embedded footers among them. *)
Fixpoint items_meaning (its : list wire_item) (params : odict value)
    (ws : list warning) : res (odict value) * list warning :=
  match its with
  | [] => (Ok params, ws)
  | WFooter :: rest => items_meaning rest params (ws ++ [footer_warning])
  | WParam name type_id payload :: rest =>
      match decode_value (byte_to_Z type_id) payload with
      | Ok v => items_meaning rest (od_set (decode_identifier name) v params) ws
      | Raise e => (Raise e, ws)
      | OutOfFuel => (OutOfFuel, ws)
      end
  end.

Fixpoint fields_meaning (fs : list wire_field) (fields : list (FieldData value))
    (ws : list warning) : res (list (FieldData value)) * list warning :=
  match fs with
  | [] => (Ok fields, ws)
  | f :: rest =>
      match items_meaning (wf_items f) [] ws with
      | (Ok params, ws) =>
          fields_meaning rest
            (fields ++ [mkFieldData (decode_identifier (wf_name f)) (wf_id f) params])
            ws
      | (Raise e, ws) => (Raise e, ws)
      | (OutOfFuel, ws) => (OutOfFuel, ws)
      end
  end.

Definition packet_meaning (p : wire_packet)
  : res (PacketData value datetime) * list warning :=
  match fields_meaning (wp_fields p) [] [] with
  | (Ok fields, ws) =>
      (Ok (mkPacketData (decode_identifier (wp_type p)) (wp_id p)
             (unix_to_datetime (wp_time p) (wp_nanotime p)) (wp_info p) fields),
       ws)
  | (Raise e, ws) => (Raise e, ws)
  | (OutOfFuel, ws) => (OutOfFuel, ws)
  end.

End Meaning.

End Wire.
Import Wire.

(** ** Legal packets *)

Module Legal.

Section Legal.

Context {value datetime : Type}.

Local Abbreviation res := (result value).

Variable encode_value : value -> res (Z * bytes).
Variable decode_value : Z -> bytes -> res value.
Variable datetime_to_unix : datetime -> Z * Z.
Variable unix_to_datetime : Z -> Z -> datetime.

(** A payload with the padding that [encode_packet] appends to it. *)
Definition padded (payload : bytes) : bytes :=
  payload ++ zeros (Z.to_nat ((- (8 + Z.of_nat (length payload))) mod 4)).

(** The size on the wire of a param and of a field. *)
Definition param_wire_size (p : string * value) : Z :=
  match encode_value (snd p) with
  | Ok (_, payload) => 8 + Z.of_nat (length (padded payload))
  | _ => 0
  end.

Definition params_wire_size (params : odict value) : Z :=
  fold_right (fun p n => param_wire_size p + n) 0 params.

Definition field_wire_size (f : FieldData value) : Z :=
  12 + params_wire_size (field_params f).

Definition fields_wire_size (fields : list (FieldData value)) : Z :=
  fold_right (fun f n => field_wire_size f + n) 0 fields.

(** A param is legal when its name has at most four characters, the value
    codec encodes its value to a type id that fits a byte and decodes the
    padded payload back to the value, and its header does not read as a
    packet footer. *)
Definition legal_param (p : string * value) : Prop :=
  (String.length (fst p) <= 4)%nat /\
  match encode_value (snd p) with
  | Ok (type_id, payload) =>
      0 <= type_id < 256 /\
      decode_value type_id (padded payload) = Ok (snd p) /\
      bytes_eqb
        (param_header (pack_s 4 (encode_latin1 (fst p)))
           ((8 + Z.of_nat (length (padded payload))) / 4) (byte_of_Z type_id))
        PACKET_FOOTER = false
  | _ => False
  end.

Definition legal_field (f : FieldData value) : Prop :=
  (String.length (field_name f) <= 4)%nat /\
  0 <= field_id f < 256 ^ 4 /\
  Forall legal_param (field_params f) /\
  field_wire_size f < 4 * 256 ^ 3.

Definition legal_packet (p : PacketData value datetime) : Prop :=
  (String.length (packet_type p) <= 4)%nat /\
  0 <= packet_id p < 256 ^ 4 /\
  (let '(time, nanotime) := datetime_to_unix (packet_timestamp p) in
   0 <= time < 256 ^ 4 /\ 0 <= nanotime < 256 ^ 4 /\
   unix_to_datetime time nanotime = packet_timestamp p) /\
  length (packet_info p) = 4%nat /\
  Forall legal_field (packet_fields p) /\
  32 + fields_wire_size (packet_fields p) + 8 < 4 * 256 ^ 4.

End Legal.

(** Identifier padding, normalised: trailing spaces and NULs are dropped.
    Params whose names become equal are one param, as in a dict. *)
Definition normalise_identifier (s : string) : string :=
  decode_latin1 (rstrip (encode_latin1 s)).

Definition normalise_params {value : Type} (params : odict value) : odict value :=
  fold_left (fun d p => od_set (normalise_identifier (fst p)) (snd p) d) params [].

Definition normalise_field {value : Type} (f : FieldData value) : FieldData value :=
  mkFieldData (normalise_identifier (field_name f)) (field_id f)
    (normalise_params (field_params f)).

Definition normalise_packet {value datetime : Type} (p : PacketData value datetime)
  : PacketData value datetime :=
  mkPacketData (normalise_identifier (packet_type p)) (packet_id p)
    (packet_timestamp p) (packet_info p)
    (map normalise_field (packet_fields p)).

(** A packet whose identifiers carry no padding and whose param names are
    distinct within each field. *)
Definition canonical_identifier (s : string) : Prop := normalise_identifier s = s.

Definition canonical_field {value : Type} (f : FieldData value) : Prop :=
  canonical_identifier (field_name f) /\
  Forall (fun p => canonical_identifier (fst p)) (field_params f) /\
  NoDup (map fst (field_params f)).

Definition canonical_packet {value datetime : Type} (p : PacketData value datetime)
  : Prop :=
  canonical_identifier (packet_type p) /\ Forall canonical_field (packet_fields p).

End Legal.
Import Legal.

(** ** The encoder, block by block

    The bytes that [encode_packet] writes for a param, a field and a packet,
    each as one block: the same checks in the same order, without the
    buffer, the offsets and the back-patching of the size words. *)

Module Layout.

Section Layout.

Context {value datetime : Type}.

Local Abbreviation res := (result value).

Variable encode_value : value -> res (Z * bytes).
Variable datetime_to_unix : datetime -> Z * Z.

Open Scope result_scope.

Definition param_block (p : string * value) : res bytes :=
  '(param_type_id, payload) <- encode_value (snd p) ;;
  let size := 8 + Z.of_nat (length payload) in
  let pad := (- size) mod 4 in
  size_bytes <- or_raise overflow_error (to_bytes 3 ((size + pad) / 4)) ;;
  type_byte <- or_raise struct_error (pack_B param_type_id) ;;
  Ok (pack_s 4 (encode_latin1 (fst p)) ++ size_bytes ++ type_byte
        ++ payload ++ zeros (Z.to_nat pad)).

Fixpoint params_blocks (params : odict value) : res (list bytes) :=
  match params with
  | [] => Ok []
  | p :: rest =>
      b <- param_block p ;;
      bs <- params_blocks rest ;;
      Ok (b :: bs)
  end.

Definition field_block (f : FieldData value) : res bytes :=
  id_bytes <- or_raise struct_error (pack_I (field_id f)) ;;
  bs <- params_blocks (field_params f) ;;
  size_bytes <- or_raise overflow_error
                  (to_bytes 3 ((12 + Z.of_nat (length (concat bs))) / 4)) ;;
  Ok (pack_s 4 (encode_latin1 (field_name f)) ++ size_bytes ++ [x00] ++ id_bytes
        ++ concat bs).

Fixpoint fields_blocks (fields : list (FieldData value)) : res (list bytes) :=
  match fields with
  | [] => Ok []
  | f :: rest =>
      b <- field_block f ;;
      bs <- fields_blocks rest ;;
      Ok (b :: bs)
  end.

Definition packet_block (packet_type : string) (packet_id : Z)
    (timestamp : datetime) (info : bytes) (fields : list (FieldData value))
  : res bytes :=
  let '(timestamp_unix, timestamp_nano) := datetime_to_unix timestamp in
  id_bytes <- or_raise struct_error (pack_I packet_id) ;;
  time_bytes <- or_raise struct_error (pack_I timestamp_unix) ;;
  nano_bytes <- or_raise struct_error (pack_I timestamp_nano) ;;
  bs <- fields_blocks fields ;;
  size_bytes <- or_raise overflow_error
                  (to_bytes 4 ((32 + Z.of_nat (length (concat bs)) + 8) / 4)) ;;
  Ok (PACKET_HEADER_MAGIC ++ pack_s 4 (encode_latin1 packet_type) ++ size_bytes
        ++ id_bytes ++ PACKET_FORMAT_TAG ++ time_bytes ++ nano_bytes
        ++ pack_s 4 info ++ concat bs ++ PACKET_FOOTER).

(** The sizes that an encoded param and an encoded field declare, read back
    from their blocks. *)
Definition param_block_sized (p : string * value) (block : bytes) : Prop :=
  exists (param_type_id : Z) (payload : bytes),
    encode_value (snd p) = Ok (param_type_id, payload) /\
    let pad := (- (8 + Z.of_nat (length payload))) mod 4 in
    length (slice block 0 8) = 8%nat /\
    block = slice block 0 8 ++ payload ++ zeros (Z.to_nat pad) /\
    from_bytes (slice block 4 7) * 4 = 8 + Z.of_nat (length payload) + pad.

Definition field_block_sized (f : FieldData value) (block : bytes) : Prop :=
  exists param_blocks : list bytes,
    length (slice block 0 12) = 12%nat /\
    block = slice block 0 12 ++ concat param_blocks /\
    Forall2 param_block_sized (field_params f) param_blocks /\
    from_bytes (slice block 4 7) * 4 = Z.of_nat (length block).

(** The tree of a packet on the wire. *)
Definition wire_of_param (p : string * value) : wire_item :=
  match encode_value (snd p) with
  | Ok (type_id, payload) =>
      WParam (pack_s 4 (encode_latin1 (fst p))) (byte_of_Z type_id) (padded payload)
  | _ => WFooter
  end.

Definition wire_of_field (f : FieldData value) : wire_field :=
  mkWireField (pack_s 4 (encode_latin1 (field_name f))) x00 (field_id f)
    (map wire_of_param (field_params f)).

Definition wire_of_packet (p : PacketData value datetime) : wire_packet :=
  let '(time, nanotime) := datetime_to_unix (packet_timestamp p) in
  mkWirePacket (pack_s 4 (encode_latin1 (packet_type p))) (packet_id p)
    PACKET_FORMAT_TAG time nanotime (packet_info p)
    (map wire_of_field (packet_fields p)) [x00; x00; x00; x00].

End Layout.

End Layout.
Import Layout.

(** ** Runs of a connection *)

Module Runs.

Section Runs.

Context {value datetime : Type}.

Local Abbreviation Client := (Client value datetime).
Local Abbreviation Packet := (PacketData value datetime).

Open Scope string_scope.
Open Scope list_scope.

(** [Client.__init__]: the counter at 0, nothing written, nobody waiting. *)
Definition new_client (auto_erro auto_warn auto_ackn : bool) : Client :=
  mkClient auto_erro auto_warn auto_ackn 0 [] [] 0.

(** The ids of one packet in the order [send] drew them: the ids of its
    fields, then its own. *)
Definition sent_ids (sent : string * Z * list (FieldData value)) : list Z :=
  map field_id (snd sent) ++ [snd (fst sent)].

(** The ids handed out so far, oldest first. *)
Definition ids_handed_out (self : Client) : list Z :=
  concat (map sent_ids (_writer self)).

(** The ids handed out are strictly increasing and none is above the
    counter. *)
Definition ids_ok (self : Client) : Prop :=
  StronglySorted Z.lt (ids_handed_out self) /\
  Forall (fun i => i <= _id_gen self) (ids_handed_out self).

(** A sequence of [send] calls. *)
Fixpoint send_all (self : Client) (calls : list (string * odict (odict value)))
  : Client :=
  match calls with
  | [] => self
  | (packet_type, fields) :: rest => send_all (fst (send self packet_type fields)) rest
  end.

(** No future of the set has the identity of a future still to come. *)
Definition waiters_fresh (self : Client) : Prop :=
  Forall (fun w => (fst w < next_future self)%nat) (_waiters self).

(** [n] callers suspend in [recv_field(t, f)], the reader reads one packet,
    every caller runs once: how each call stands afterwards. *)
Definition fan_out (self : Client) (n : nat) (t f : string) (packet : Packet)
  : list (recv_status (value := value)) :=
  let '(self, callers) := start_callers self (repeat (t, f, None) n) in
  let '(self, _, _) := _run_reader self [ReadPacket packet] 0 in
  let '(_, out) := resume_all self callers in
  map snd out.

Definition cancelled (r : read_event value datetime) : bool :=
  match r with
  | ReadCancelled => true
  | _ => false
  end.

(** Two clients with the same configuration. *)
Definition same_flags (self self' : Client) : Prop :=
  _auto_erro self = _auto_erro self' /\
  _auto_warn self = _auto_warn self' /\
  _auto_ackn self = _auto_ackn self'.

(** How every [recv_field(t, f)] call stands after a packet of type [t]:
    returned with the params of the first field named [f], or waiting when
    there is none. *)
Definition first_match (f : string) (packet : Packet)
  : recv_status (value := value) :=
  match find (field_matches f None) (packet_fields packet) with
  | Some field => Returned (field_params field)
  | None => Waiting
  end.

Definition returned (st : recv_status (value := value)) : bool :=
  match st with
  | Returned _ => true
  | _ => false
  end.

Definition has_param (k : string) (field : FieldData value) : bool :=
  is_not_None (get_or_None k (field_params field)).

(** The warn and ackn handlers of [self] do not skip [field]. *)
Definition not_skipped (self : Client) (field : FieldData value) : bool :=
  (negb (_auto_warn self) || negb (String.eqb (field_name field) "WARN"))
  && (negb (_auto_ackn self) || negb (has_param "ACKN" field)).

(** No auto-handler of [self] filters [field]: the erro handler does not
    raise on it, the warn and ackn handlers do not skip it. *)
Definition unfiltered (self : Client) (field : FieldData value) : bool :=
  (negb (_auto_erro self) || negb (has_param "ERRO" field || has_param "ERRC" field))
  && not_skipped self field.

(** The [CommandError] that [_handle_erro] raises for [field], and the
    [CommandWarning] that [_handle_warn] emits for it. *)
Definition command_error (packet_type : string) (field : FieldData value)
  : exception value :=
  mkException CommandError
    [PyStr packet_type; PyStr (field_name field); PyInt (field_id field);
     get_or_None "ERRO" (field_params field);
     get_or_None "ERRC" (field_params field)]
    [].

Definition command_warning (packet_type : string) (field : FieldData value)
  : exception value :=
  mkException CommandWarning
    [PyStr packet_type; PyStr (field_name field); PyInt (field_id field);
     get_or_None "WARN" (field_params field);
     get_or_None "WARC" (field_params field)]
    (CommandMixin_init (PyStr packet_type) (PyStr (field_name field))
       (PyInt (field_id field)) (get_or_None "WARN" (field_params field))
       (get_or_None "WARC" (field_params field))).

End Runs.

End Runs.
Import Runs.

(** ** A value codec to run the embedding on *)

Module Sample.

(** Modelled from the spec: the value codec of [ncplib/values.py] and the
    timestamp conversions of [ncplib/helpers.py], which are not among the
    sources.  Two rows of the ParamValue table are modelled: u32 (4 bytes,
    little-endian) and string (its Latin-1 bytes, no terminator; decoding
    drops the zero padding).  The spec gives no type ids: 1 and 2 are a
    choice made here.  A timestamp is its pair of seconds and nanoseconds.
    The codec only serves to run the embedding on concrete packets. *)
Inductive value : Type :=
| U32 (n : Z)
| Str (s : string).

Definition encode_value (v : value) : result value (Z * bytes) :=
  match v with
  | U32 n =>
      match to_bytes 4 n with
      | Some b => Ok (1, b)
      | None => Raise overflow_error
      end
  | Str s => Ok (2, encode_latin1 s)
  end.

Fixpoint rstrip_nul (b : bytes) : bytes :=
  match b with
  | [] => []
  | x :: r =>
      match rstrip_nul r with
      | [] => if Byte.eqb x x00 then [] else [x]
      | r' => x :: r'
      end
  end.

Definition decode_value (type_id : Z) (b : bytes) : result value value :=
  if type_id =? 1 then
    if Nat.eqb (length b) 4 then Ok (U32 (from_bytes b)) else Raise struct_error
  else if type_id =? 2 then Ok (Str (decode_latin1 (rstrip_nul b)))
  else raise_ DecodeError [PyStr "Unsupported type ID"].

Definition datetime : Type := (Z * Z)%type.
Definition datetime_to_unix (t : datetime) : Z * Z := t.
Definition unix_to_datetime (time nanotime : Z) : datetime := (time, nanotime).

Definition encode (type : string) (id : Z) (ts : datetime) (info : bytes)
    (fields : list (FieldData value)) : result value bytes :=
  encode_packet encode_value datetime_to_unix type id ts info fields.

Definition decode (fuel : nat) (buf : bytes)
  : result value (PacketData value datetime) * list (exception value) :=
  decode_packet decode_value unix_to_datetime fuel buf.

Definition info0 : bytes := [x30; x30; x30; x30].

(** Scenario 1 of the spec: the empty packet. *)
Definition empty_packet : PacketData value datetime :=
  mkPacketData "TEST" 1 (0, 0) info0 [].

(** Scenarios 2 and 3 of the spec in one packet, and a field without
    params. *)
Definition echo_packet : PacketData value datetime :=
  mkPacketData "TEST" 1 (0, 0) info0
    [mkFieldData "ECHO" 7 [("VALU"%string, U32 42); ("TEXT"%string, Str "abc")];
     mkFieldData "AB" 8 []].

(** [echo_packet] on the wire. *)
Definition echo_wire : wire_packet :=
  wire_of_packet encode_value datetime_to_unix echo_packet.

(** [echo_wire] with a packet footer embedded between the two params of its
    first field. *)
Definition echo_wire_garbled : wire_packet := embed_footer 0 1 echo_wire.

(** A 44-byte packet whose field region is four bytes long: the 12-byte
    field header that starts in it runs over the checksum and the footer
    magic.  The second one differs in the checksum bytes only. *)
Definition straddling_packet (checksum : bytes) : bytes :=
  [xdd; xcc; xbb; xaa] ++ [x54; x45; x53; x54] ++ [x0b; x00; x00; x00]
    ++ [x01; x00; x00; x00] ++ [x01; x00; x00; x00] ++ [x00; x00; x00; x00]
    ++ [x00; x00; x00; x00] ++ info0
    ++ [x41; x42; x43; x44] ++ checksum ++ [xaa; xbb; xcc; xdd].

(** A 60-byte packet with one field, whose one param declares a size of
    zero words (type id 2, a string). *)
Definition spin_packet : bytes :=
  [xdd; xcc; xbb; xaa] ++ [x54; x45; x53; x54] ++ [x0f; x00; x00; x00]
    ++ [x01; x00; x00; x00] ++ [x01; x00; x00; x00] ++ [x00; x00; x00; x00]
    ++ [x00; x00; x00; x00] ++ info0
    ++ [x41; x42; x43; x44] ++ [x05; x00; x00] ++ [x00] ++ [x07; x00; x00; x00]
    ++ [x50; x00; x00; x00] ++ [x00; x00; x00] ++ [x02]
    ++ [x00; x00; x00; x00] ++ [xaa; xbb; xcc; xdd].

Definition spin_body : bytes := skipn 32 spin_packet.

(** A 32-byte header with a wrong magic number, and one with the right
    one; both declare 10 words. *)
Definition bad_magic_header : bytes :=
  [x00; xcc; xbb; xaa] ++ [x54; x45; x53; x54] ++ [x0a; x00; x00; x00]
    ++ [x01; x00; x00; x00] ++ [x01; x00; x00; x00] ++ [x00; x00; x00; x00]
    ++ [x00; x00; x00; x00] ++ info0.

Definition good_magic_header : bytes :=
  [xdd; xcc; xbb; xaa] ++ [x54; x45; x53; x54] ++ [x0a; x00; x00; x00]
    ++ [x01; x00; x00; x00] ++ [x01; x00; x00; x00] ++ [x00; x00; x00; x00]
    ++ [x00; x00; x00; x00] ++ info0.

(** Scenario 5 of the spec: a reply field [CMD1] with an error message and
    an error code, in a packet of type [X]. *)
Definition erro_field : FieldData value :=
  mkFieldData "CMD1" 7 [("ERRO"%string, Str "bad"); ("ERRC"%string, U32 400)].

Definition erro_packet : PacketData value datetime :=
  mkPacketData "X" 3 (0, 0) info0 [erro_field].

(** A reply field with a warning, and a field named [WARN]. *)
Definition warned_field : FieldData value :=
  mkFieldData "CMD1" 7 [("WARN"%string, Str "careful"); ("RSLT"%string, Str "ok")].

Definition warn_field : FieldData value :=
  mkFieldData "WARN" 8 [("WARN"%string, Str "careful")].

(** A packet of type [X] with one field [CMD1]. *)
Definition reply_packet : PacketData value datetime :=
  mkPacketData "X" 3 (0, 0) info0 [mkFieldData "CMD1" 7 [("RSLT"%string, Str "ok")]].

(** A string that ends in a NUL, a packet with that string as a param
    value, and the same packet with the NUL dropped. *)
Definition nul_text : string := String.append "abc" (String Ascii.zero EmptyString).

Definition nul_text_packet : PacketData value datetime :=
  mkPacketData "TEST" 1 (0, 0) info0
    [mkFieldData "ECHO" 7 [("TEXT"%string, Str nul_text)]].

Definition text_packet : PacketData value datetime :=
  mkPacketData "TEST" 1 (0, 0) info0
    [mkFieldData "ECHO" 7 [("TEXT"%string, Str "abc")]].

(** Reply fields [CMD1] that more than one handler looks at: an error with
    an acknowledgement, a warning with an acknowledgement, a warning with
    an error code; and the packet of type [X] that carries one field. *)
Definition erro_ackn_field : FieldData value :=
  mkFieldData "CMD1" 7
    [("ERRO"%string, Str "bad"); ("ERRC"%string, U32 400); ("ACKN"%string, U32 1)].

Definition warn_ackn_field : FieldData value :=
  mkFieldData "CMD1" 7 [("WARN"%string, Str "careful"); ("ACKN"%string, U32 1)].

Definition warn_errc_field : FieldData value :=
  mkFieldData "CMD1" 7 [("WARN"%string, Str "careful"); ("ERRC"%string, U32 400)].

Definition packet_of (field : FieldData value) : PacketData value datetime :=
  mkPacketData "X" 3 (0, 0) info0 [field].

(** A read error that is not a cancellation. *)
Definition read_error : exception value := struct_error.

(** A new client, with auto-warn and auto-ackn, and the same client with one
    caller suspended in [_wait_for_packet]. *)
Definition client0 (auto_erro : bool) : Client value datetime :=
  new_client auto_erro true true.

Definition client1 : Client value datetime :=
  fst (_wait_for_packet (client0 true)).

End Sample.

(** ** More of [ncplib/packets.py]: what encodes, and what is cut *)

Module Encodable.

Section Encodable.

Context {value datetime : Type}.

Local Abbreviation res := (result value).

Variable encode_value : value -> res (Z * bytes).
Variable datetime_to_unix : datetime -> Z * Z.

(** What [encode_packet] asks of its arguments besides Latin-1 names, which
    the strings of the model are: the value codec encodes
    every value, to a type id that fits a byte; every id and both parts of
    the timestamp fit 32 bits; every field is shorter than [2 ^ 24] words
    and the packet shorter than [2 ^ 32] words. *)
Definition encodable_param (p : string * value) : Prop :=
  match encode_value (snd p) with
  | Ok (type_id, _) => 0 <= type_id < 256
  | _ => False
  end.

Definition encodable_field (f : FieldData value) : Prop :=
  0 <= field_id f < 256 ^ 4 /\
  Forall encodable_param (field_params f) /\
  field_wire_size encode_value f < 4 * 256 ^ 3.

Definition encodable_packet (packet_id : Z) (timestamp : datetime)
    (fields : list (FieldData value)) : Prop :=
  0 <= packet_id < 256 ^ 4 /\
  (let '(time, nanotime) := datetime_to_unix timestamp in
   0 <= time < 256 ^ 4 /\ 0 <= nanotime < 256 ^ 4) /\
  Forall encodable_field fields /\
  32 + fields_wire_size encode_value fields + 8 < 4 * 256 ^ 4.

End Encodable.

(** A Latin-1 identifier cut to its first four characters, as the struct
    format ["4s"] cuts its bytes. *)
Definition truncate_identifier (s : string) : string :=
  decode_latin1 (firstn 4 (encode_latin1 s)).

Definition truncate_field {value : Type} (f : FieldData value) : FieldData value :=
  mkFieldData (truncate_identifier (field_name f)) (field_id f)
    (map (fun p => (truncate_identifier (fst p), snd p)) (field_params f)).

(** The header that [encode_packet] writes in front of the block of a
    field: the name cut or NUL-padded to four bytes, the size of the block
    in words, a zero type id, and the id. *)
Definition field_block_headed {value : Type} (f : FieldData value) (block : bytes)
  : Prop :=
  firstn 12 block
  = field_header (pack_s 4 (encode_latin1 (field_name f)))
      (Z.of_nat (length block) / 4) x00 (field_id f).

(** A byte string that pads an identifier: spaces and NULs only. *)
Definition all_pad (b : bytes) : bool := forallb is_pad b.

(** The same tree with [type_id] as the type id of every field. *)
Definition with_field_type_id (type_id : byte) (p : wire_packet) : wire_packet :=
  mkWirePacket (wp_type p) (wp_id p) (wp_format p) (wp_time p) (wp_nanotime p)
    (wp_info p)
    (map (fun f => mkWireField (wf_name f) type_id (wf_id f) (wf_items f))
       (wp_fields p))
    (wp_checksum p).

End Encodable.
Import Encodable.

(** ** What [decode_packet] gives back *)

Module Decoded.

(** An identifier as [decode_identifier] gives it from a four-byte name. *)
Definition short_identifier (s : string) : Prop :=
  canonical_identifier s /\ (String.length s <= 4)%nat.

Definition decoded_field {value : Type} (f : FieldData value) : Prop :=
  short_identifier (field_name f) /\
  0 <= field_id f < 256 ^ 4 /\
  Forall (fun p => short_identifier (fst p)) (field_params f) /\
  NoDup (map fst (field_params f)).

Definition decoded_packet {value datetime : Type} (p : PacketData value datetime)
  : Prop :=
  short_identifier (packet_type p) /\
  0 <= packet_id p < 256 ^ 4 /\
  length (packet_info p) = 4%nat /\
  Forall decoded_field (packet_fields p).

(** Where an exception of [decode_packet] comes from: a call of a class of
    [errors.py] with the wrong number of arguments, [struct], or the value
    codec. *)
Definition decoder_exception {value : Type}
    (decode_value : Z -> bytes -> result value value) (e : exception value) : Prop :=
  e = arity_error \/ e = struct_error \/
  exists (type_id : Z) (payload : bytes), decode_value type_id payload = Raise e.

(** The embedded footers of a tree. *)
Definition is_footer (it : wire_item) : bool :=
  match it with
  | WFooter => true
  | WParam _ _ _ => false
  end.

Definition footer_count (fs : list wire_field) : nat :=
  list_sum (map (fun f => length (filter is_footer (wf_items f))) fs).

End Decoded.
Import Decoded.

(** ** More of [ncplib/client.py] *)

Module ClientMore.

Section ClientMore.

Context {value datetime : Type}.

Local Abbreviation res := (result value).
Local Abbreviation warning := (exception value).
Local Abbreviation Field := (FieldData value).
Local Abbreviation Packet := (PacketData value datetime).
Local Abbreviation Client := (Client value datetime).

Open Scope string_scope.
Open Scope list_scope.

(** [decode_fields] of [client.py]: [dict(map(attrgetter("name", "params"),
    fields))]. *)
Definition decode_fields (fields : list Field) : odict (odict value) :=
  fold_left (fun d f => od_set (field_name f) (field_params f) d) fields [].

(** A [ClientResponse]; the client it refers to is passed to its method. *)
Record ClientResponse : Type := mkClientResponse {
  _packet_type : string;
  _fields_lookup : odict Z
}.

(** [send] with the [ClientResponse] that it returns. *)
Definition send_response (self : Client) (packet_type : string)
    (fields : odict (odict value)) : Client * ClientResponse :=
  let '(self, lookup) := send self packet_type fields in
  (self, mkClientResponse packet_type lookup).

(** [ClientResponse.recv_field]: [None] stands for the [KeyError] of
    [self._fields_lookup[field_name]]. *)
Definition response_recv_field (response : ClientResponse) (self : Client)
    (field_name' : string) (deliveries : list (res Packet)) (ws : list warning)
  : option (recv_status (value := value) * list warning) :=
  match od_get field_name' (_fields_lookup response) with
  | None => None
  | Some field_id' =>
      Some (recv_field self (_packet_type response) field_name' (Some field_id')
              deliveries ws)
  end.

(** [execute]; [params or {}] is the empty dict for [None]. *)
Definition execute (self : Client) (packet_type field_name' : string)
    (params : option (odict value)) (deliveries : list (res Packet))
    (ws : list warning)
  : Client * option (recv_status (value := value) * list warning) :=
  let params := match params with
                | Some p => p
                | None => []
                end in
  let '(self, response) := send_response self packet_type [(field_name', params)] in
  (self, response_recv_field response self field_name' deliveries ws).

(** [recv_field], with the deliveries that it leaves for the next call. *)
Fixpoint recv_field_rest (self : Client) (packet_type' field_name' : string)
    (field_id' : option Z) (deliveries : list (res Packet)) (ws : list warning)
  : recv_status (value := value) * list warning * list (res Packet) :=
  match deliveries with
  | [] => (Waiting, ws, [])
  | Ok packet :: rest =>
      match recv_field_packet self packet_type' field_name' field_id' packet ws with
      | (Ok (Some params), ws) => (Returned params, ws, rest)
      | (Ok None, ws) => recv_field_rest self packet_type' field_name' field_id' rest ws
      | (Raise e, ws) => (Raised e, ws, rest)
      | (OutOfFuel, ws) => (Waiting, ws, rest)
      end
  | Raise e :: rest => (Raised e, ws, rest)
  | OutOfFuel :: rest => (Waiting, ws, rest)
  end.

(** How [_handle_auth] stands. *)
Inductive auth_status : Type :=
| AuthDone
| AuthRaised (ex : exception value)
| AuthWaiting.

(** [CLIENT_ID], the last four bytes of the MAC address, as a param
    value. *)
Variable CLIENT_ID : value.

(** [_handle_auth] against the outcomes of the [_wait_for_packet] calls of
    its three [recv_field]s, in order: the client with what was written and
    the counter, and how the handshake stands.  As with [recv_field], the
    futures that these calls put into [_waiters] and take out again are not
    followed: the [_waiters] of the client returned say nothing of them. *)
Definition _handle_auth (self : Client) (deliveries : list (res Packet))
    (ws : list warning) : Client * auth_status * list warning :=
  match recv_field_rest self "LINK" "HELO" None deliveries ws with
  | (Returned _, ws, deliveries) =>
      let '(self, _) := send self "LINK" [("CCRE", [("CIW", CLIENT_ID)])] in
      match recv_field_rest self "LINK" "SCAR" None deliveries ws with
      | (Returned _, ws, deliveries) =>
          let '(self, _) := send self "LINK" [("CARE", [("CAR", CLIENT_ID)])] in
          match recv_field_rest self "LINK" "SCON" None deliveries ws with
          | (Returned _, ws, _) => (self, AuthDone, ws)
          | (Raised e, ws, _) => (self, AuthRaised e, ws)
          | (Waiting, ws, _) => (self, AuthWaiting, ws)
          end
      | (Raised e, ws, _) => (self, AuthRaised e, ws)
      | (Waiting, ws, _) => (self, AuthWaiting, ws)
      end
  | (Raised e, ws, _) => (self, AuthRaised e, ws)
  | (Waiting, ws, _) => (self, AuthWaiting, ws)
  end.

(** A [LINK] packet that a [recv_field("LINK", name)] of [self] returns
    from: it has a field of that name, and no auto-handler of [self]
    filters a field of that name. *)
Definition answers (self : Client) (name : string) (packet : Packet) : Prop :=
  packet_type packet = "LINK" /\
  existsb (field_matches name None) (packet_fields packet) = true /\
  Forall (fun f => field_matches name None f = true -> unfiltered self f = true)
    (packet_fields packet).

(** The two packets that [_handle_auth] sends, on a counter at [g]. *)
Definition ccre_packet (g : Z) : string * Z * list Field :=
  ("LINK", g + 2, [mkFieldData "CCRE" (g + 1) [("CIW", CLIENT_ID)]]).

Definition care_packet (g : Z) : string * Z * list Field :=
  ("LINK", g + 4, [mkFieldData "CARE" (g + 3) [("CAR", CLIENT_ID)]]).

(** A client with what [close] acts on besides the waiters: the reader
    task, which it cancels, and the writer, which it closes. *)
Record Link : Type := mkLink {
  link_client : Client;
  reader_cancelled : bool;
  writer_closed : bool
}.

(** Modelled from the spec: [ConnectionClosed()], the error that [close]
    rejects the outstanding waiters with.  [client.py] imports the class
    from [errors.py], which does not define it; the exception is a
    variable. *)
Variable ConnectionClosed : exception value.

Definition close (l : Link) : Link :=
  mkLink (resolve_active (link_client l) (Exception ConnectionClosed)) true true.

(** A packet in which [recv_field] finds nothing for the caller. *)
Definition no_match (packet_type' field_name' : string) (field_id' : option Z)
    (packet : Packet) : bool :=
  negb (String.eqb (packet_type packet) packet_type')
  || forallb (fun f => negb (field_matches field_name' field_id' f))
       (packet_fields packet).

(** Every caller of a list runs once after the futures of all were resolved
    with [outcome]. *)
Definition fan_out_outcome (self : Client) (n : nat) (t f : string)
    (outcome : future value datetime)
  : Client * list (recv_status (value := value)) :=
  let '(self, callers) := start_callers self (repeat (t, f, None) n) in
  let '(self, out) := resume_all (resolve_active self outcome) callers in
  (self, map snd out).

End ClientMore.

Arguments ClientResponse : clear implicits.
Arguments Link : clear implicits.
Arguments auth_status : clear implicits.

End ClientMore.

(** * Properties *)

(** ** Bytes and [struct] *)

Module BytesFacts.

Lemma byte_to_Z_range (b : byte) : 0 <= byte_to_Z b < 256.
Proof.
  unfold byte_to_Z. pose proof (Byte.to_N_bounded b). lia.
Qed.

Lemma byte_of_to_Z (b : byte) : byte_of_Z (byte_to_Z b) = b.
Proof.
  unfold byte_of_Z. pose proof (byte_to_Z_range b) as H.
  rewrite Z.mod_small by exact H.
  unfold byte_to_Z. rewrite N2Z.id, Byte.of_to_N. reflexivity.
Qed.

Lemma byte_to_of_Z (z : Z) : 0 <= z < 256 -> byte_to_Z (byte_of_Z z) = z.
Proof.
  intros H. unfold byte_of_Z. rewrite Z.mod_small by exact H.
  destruct (Byte.of_N (Z.to_N z)) as [b|] eqn:E.
  - apply Byte.to_of_N in E. unfold byte_to_Z. rewrite E. lia.
  - apply Byte.of_N_None_iff in E. lia.
Qed.

Lemma bytes_eqb_eq (a b : bytes) : bytes_eqb a b = true <-> a = b.
Proof.
  revert b. induction a as [|x a IH]; intros [|y b]; simpl; split; intros H;
    try reflexivity; try discriminate.
  - apply andb_true_iff in H. destruct H as [H1 H2].
    apply Byte.byte_dec_bl in H1. apply IH in H2. congruence.
  - injection H as -> ->. apply andb_true_iff. split.
    + apply Byte.byte_dec_lb. reflexivity.
    + apply IH. reflexivity.
Qed.

Lemma bytes_eqb_refl (a : bytes) : bytes_eqb a a = true.
Proof. apply bytes_eqb_eq. reflexivity. Qed.

Lemma bytes_eqb_neq (a b : bytes) : bytes_eqb a b = false <-> a <> b.
Proof.
  split.
  - intros H E. apply bytes_eqb_eq in E. congruence.
  - intros H. destruct (bytes_eqb a b) eqn:E; [|reflexivity].
    apply bytes_eqb_eq in E. contradiction.
Qed.

Lemma length_le_digits (n : nat) (v : Z) : length (le_digits n v) = n.
Proof. revert v. induction n; intros v; simpl; [reflexivity|]. now rewrite IHn. Qed.

Lemma from_bytes_le_digits (n : nat) (v : Z) :
  0 <= v < 256 ^ Z.of_nat n -> from_bytes (le_digits n v) = v.
Proof.
  revert v. induction n as [|n IH]; intros v H.
  - simpl in *. lia.
  - cbn [le_digits from_bytes].
    rewrite Nat2Z.inj_succ, Z.pow_succ_r in H by lia.
    rewrite byte_to_of_Z by (apply Z.mod_pos_bound; lia).
    rewrite IH.
    + pose proof (Z.div_mod v 256). lia.
    + split; [apply Z.div_pos; lia|]. apply Z.div_lt_upper_bound; lia.
Qed.

Lemma from_bytes_range (b : bytes) : 0 <= from_bytes b < 256 ^ Z.of_nat (length b).
Proof.
  induction b as [|x b IH].
  - simpl. lia.
  - cbn [from_bytes length]. rewrite Nat2Z.inj_succ, Z.pow_succ_r by lia.
    pose proof (byte_to_Z_range x). lia.
Qed.

Lemma le_digits_from_bytes (b : bytes) : le_digits (length b) (from_bytes b) = b.
Proof.
  induction b as [|x b IH]; [reflexivity|].
  cbn [length le_digits from_bytes].
  pose proof (byte_to_Z_range x) as Hx.
  replace ((byte_to_Z x + 256 * from_bytes b) mod 256) with (byte_to_Z x)
    by (apply Z.mod_unique_pos with (q := from_bytes b); lia).
  replace ((byte_to_Z x + 256 * from_bytes b) / 256) with (from_bytes b)
    by (apply Z.div_unique_pos with (r := byte_to_Z x); lia).
  now rewrite byte_of_to_Z, IH.
Qed.

Lemma to_bytes_Some (n : nat) (v : Z) (b : bytes) :
  to_bytes n v = Some b <-> 0 <= v < 256 ^ Z.of_nat n /\ b = le_digits n v.
Proof.
  unfold to_bytes.
  destruct (0 <=? v) eqn:E1; destruct (v <? 256 ^ Z.of_nat n) eqn:E2; simpl;
    split; intros H; try discriminate; try lia.
  - injection H as <-. split; [lia|reflexivity].
  - destruct H as [_ ->]. reflexivity.
Qed.

Lemma to_bytes_ok (n : nat) (v : Z) :
  0 <= v < 256 ^ Z.of_nat n -> to_bytes n v = Some (le_digits n v).
Proof. intros H. apply to_bytes_Some. auto. Qed.

Lemma length_zeros (n : nat) : length (zeros n) = n.
Proof. apply repeat_length. Qed.

Lemma pack_s_exact (n : nat) (b : bytes) : length b = n -> pack_s n b = b.
Proof.
  intros <-. unfold pack_s. rewrite firstn_app, Nat.sub_diag. simpl.
  now rewrite firstn_all, app_nil_r.
Qed.

Lemma firstn_zeros (k n : nat) : (k <= n)%nat -> firstn k (zeros n) = zeros k.
Proof.
  unfold zeros. revert n.
  induction k as [|k IH]; intros [|n] H; simpl; try reflexivity; try lia.
  f_equal. apply IH. lia.
Qed.

Lemma pack_s_short (n : nat) (b : bytes) :
  (length b <= n)%nat -> pack_s n b = b ++ zeros (n - length b).
Proof.
  intros H. unfold pack_s. rewrite firstn_app.
  rewrite firstn_all2 by lia. f_equal.
  apply firstn_zeros. lia.
Qed.

Lemma length_pack_s (n : nat) (b : bytes) : length (pack_s n b) = n.
Proof.
  unfold pack_s. rewrite length_firstn, length_app, length_zeros. lia.
Qed.

(** Slices at non-negative indices. *)
Lemma slice_nonneg (buf : bytes) (i j : Z) :
  0 <= i -> 0 <= j ->
  slice buf i j = firstn (Z.to_nat j - Z.to_nat i) (skipn (Z.to_nat i) buf).
Proof.
  intros Hi Hj. unfold slice, py_index.
  destruct (i <? 0) eqn:Ei; [lia|]. destruct (j <? 0) eqn:Ej; [lia|].
  set (len := Z.of_nat (length buf)).
  destruct (Z.le_gt_cases i len) as [Hle|Hgt].
  - rewrite (Z.min_l i len) by lia.
    destruct (Z.le_gt_cases j len) as [Hjl|Hjg].
    + rewrite Z.min_l by lia. f_equal. lia.
    + rewrite Z.min_r by lia.
      rewrite !firstn_all2; try reflexivity; rewrite length_skipn; subst len; lia.
  - rewrite (Z.min_r i len) by lia.
    rewrite !skipn_all2 by (subst len; lia). now rewrite !firstn_nil.
Qed.

Lemma slice_app (pre x post : bytes) (i j : Z) :
  i = Z.of_nat (length pre) -> j = i + Z.of_nat (length x) ->
  slice (pre ++ x ++ post) i j = x.
Proof.
  intros -> ->. rewrite slice_nonneg by lia.
  rewrite Nat2Z.id. replace (Z.to_nat _ - _)%nat with (length x) by lia.
  rewrite skipn_app, skipn_all, Nat.sub_diag. simpl.
  rewrite firstn_app, Nat.sub_diag, firstn_all. simpl. apply app_nil_r.
Qed.

Lemma slice_all (buf : bytes) : slice buf 0 (Z.of_nat (length buf)) = buf.
Proof.
  rewrite slice_nonneg by lia. simpl. rewrite Nat2Z.id, Nat.sub_0_r.
  apply firstn_all.
Qed.

Lemma unpack_from_app (pre x post : bytes) (n : nat) (offset : Z) :
  offset = Z.of_nat (length pre) -> n = length x ->
  unpack_from n (pre ++ x ++ post) offset = Some x.
Proof.
  intros -> ->. unfold unpack_from.
  assert (E : (Z.of_nat (length pre) <? 0) = false) by (apply Z.ltb_ge; lia).
  rewrite E, E.
  assert (E2 : (Z.of_nat (length (pre ++ x ++ post)) - Z.of_nat (length pre)
                <? Z.of_nat (length x)) = false)
    by (apply Z.ltb_ge; rewrite !length_app; lia).
  rewrite E2.
  rewrite Nat2Z.id, skipn_app, skipn_all, Nat.sub_diag. simpl.
  rewrite firstn_app, Nat.sub_diag, firstn_all. simpl. now rewrite app_nil_r.
Qed.

Lemma set_slice_app (pre old post new : bytes) (i j : Z) :
  i = Z.of_nat (length pre) -> j = i + Z.of_nat (length old) ->
  set_slice (pre ++ old ++ post) i j new = pre ++ new ++ post.
Proof.
  intros -> ->. unfold set_slice, py_index.
  assert (E : (Z.of_nat (length pre) <? 0) = false) by (apply Z.ltb_ge; lia).
  assert (E2 : (Z.of_nat (length pre) + Z.of_nat (length old) <? 0) = false)
    by (apply Z.ltb_ge; lia).
  rewrite E, E2, !length_app.
  rewrite (Z.min_l (Z.of_nat (length pre))) by lia.
  rewrite (Z.min_l (_ + _)) by lia.
  rewrite Z.max_r by lia.
  rewrite Nat2Z.id, firstn_app, firstn_all, Nat.sub_diag. simpl. rewrite app_nil_r.
  f_equal. f_equal.
  replace (Z.to_nat _) with (length pre + length old)%nat by lia.
  rewrite skipn_app. rewrite skipn_all2 by lia. simpl.
  replace (_ + _ - _)%nat with (length old) by lia.
  rewrite skipn_app, skipn_all, Nat.sub_diag. reflexivity.
Qed.

Lemma rstrip_zeros (b : bytes) (n : nat) : rstrip (b ++ zeros n) = rstrip b.
Proof.
  assert (Hz : rstrip (zeros n) = []).
  { induction n as [|n IH]; [reflexivity|]. simpl. unfold zeros in IH. now rewrite IH. }
  induction b as [|x b IH]; simpl.
  - exact Hz.
  - now rewrite IH.
Qed.

End BytesFacts.
Import BytesFacts.

(** ** The decoder on well-framed bytes *)

Module DecoderFacts.

Lemma firstn_exact {A : Type} (k : nat) (a b : list A) :
  length a = k -> firstn k (a ++ b) = a.
Proof.
  intros <-. rewrite firstn_app, Nat.sub_diag, firstn_all. simpl. apply app_nil_r.
Qed.

Lemma firstn_app_len {A : Type} (k n : nat) (a b : list A) :
  length a = k -> firstn (k + n) (a ++ b) = a ++ firstn n b.
Proof. intros <-. apply firstn_app_2. Qed.

Lemma skipn_exact {A : Type} (k : nat) (a b : list A) :
  length a = k -> skipn k (a ++ b) = b.
Proof.
  intros <-. rewrite skipn_app, skipn_all, Nat.sub_diag. reflexivity.
Qed.

Lemma length_param_header (name : bytes) (w : Z) (t : byte) :
  length name = 4%nat -> length (param_header name w t) = 8%nat.
Proof.
  intros H. unfold param_header. rewrite !length_app, length_le_digits, H. reflexivity.
Qed.

Lemma param_header_unpack (name : bytes) (w : Z) (t : byte) :
  length name = 4%nat ->
  sub (param_header name w t) 0 4 = name /\
  sub (param_header name w t) 4 3 = le_digits 3 w /\
  sub (param_header name w t) 7 1 = [t].
Proof.
  intros H. unfold sub, param_header. repeat split.
  - simpl skipn. now apply firstn_exact.
  - rewrite skipn_exact by exact H. apply firstn_exact, length_le_digits.
  - rewrite app_assoc, skipn_exact; [reflexivity|].
    rewrite length_app, length_le_digits, H. reflexivity.
Qed.

Lemma length_field_header (name : bytes) (w : Z) (t : byte) (id : Z) :
  length name = 4%nat -> length (field_header name w t id) = 12%nat.
Proof.
  intros H. unfold field_header.
  rewrite !length_app, !length_le_digits, H. reflexivity.
Qed.

Lemma field_header_unpack (name : bytes) (w : Z) (t : byte) (id : Z) :
  length name = 4%nat ->
  sub (field_header name w t id) 0 4 = name /\
  sub (field_header name w t id) 4 3 = le_digits 3 w /\
  sub (field_header name w t id) 8 4 = le_digits 4 id.
Proof.
  intros H. unfold sub, field_header. repeat split.
  - simpl skipn. now apply firstn_exact.
  - rewrite skipn_exact by exact H. apply firstn_exact, length_le_digits.
  - replace (name ++ le_digits 3 w ++ [t] ++ le_digits 4 id)
      with ((name ++ le_digits 3 w ++ [t]) ++ le_digits 4 id)
      by (now rewrite <- !app_assoc).
    rewrite skipn_exact.
    + rewrite <- (app_nil_r (le_digits 4 id)) at 1.
      apply firstn_exact, length_le_digits.
    + rewrite !length_app, length_le_digits, H. reflexivity.
Qed.

Lemma length_wire_item_bytes (it : wire_item) :
  wire_item_ok it = true ->
  exists k, Z.of_nat (length (wire_item_bytes it)) = 4 * k /\ 2 <= k.
Proof.
  destruct it as [|name t payload]; intros H;
    cbn [wire_item_ok wire_item_bytes] in *.
  - exists 2. split; [reflexivity|lia].
  - apply andb_true_iff in H as [H _]. apply andb_true_iff in H as [H _].
    apply andb_true_iff in H as [Hn Hp].
    apply Nat.eqb_eq in Hn. apply Z.eqb_eq in Hp.
    rewrite length_app, length_param_header by exact Hn.
    exists (2 + Z.of_nat (length payload) / 4).
    pose proof (Z.div_mod (Z.of_nat (length payload)) 4 ltac:(lia)).
    pose proof (Z.div_pos (Z.of_nat (length payload)) 4 ltac:(lia) ltac:(lia)).
    split; lia.
Qed.

Lemma length_items_bytes (its : list wire_item) :
  forallb wire_item_ok its = true ->
  exists k, Z.of_nat (length (items_bytes its)) = 4 * k /\
            2 * Z.of_nat (length its) <= k.
Proof.
  induction its as [|it its IH]; intros H.
  - exists 0. simpl. split; lia.
  - cbn [forallb] in H. apply andb_true_iff in H as [H1 H2].
    destruct (IH H2) as [k [Hk Hk2]].
    destruct (length_wire_item_bytes it H1) as [k1 [Hk1 Hk12]].
    exists (k1 + k). unfold items_bytes in *. cbn [map concat length].
    rewrite length_app. split; lia.
Qed.

Lemma length_wire_field_bytes (f : wire_field) :
  wire_field_ok f = true ->
  exists k, Z.of_nat (length (wire_field_bytes f)) = 4 * k /\
            3 + 2 * Z.of_nat (length (wf_items f)) <= k /\
            Z.of_nat (length (wire_field_bytes f))
            = 12 + Z.of_nat (length (items_bytes (wf_items f))).
Proof.
  intros H. unfold wire_field_ok in H.
  repeat (apply andb_true_iff in H as [H ?]). apply Nat.eqb_eq in H.
  destruct (length_items_bytes (wf_items f)) as [k [Hk Hk2]]; [assumption|].
  exists (3 + k). unfold wire_field_bytes.
  rewrite length_app, length_field_header by exact H. repeat split; lia.
Qed.

Lemma length_fields_bytes (fs : list wire_field) :
  forallb wire_field_ok fs = true ->
  exists k, Z.of_nat (length (fields_bytes fs)) = 4 * k /\ 0 <= k.
Proof.
  induction fs as [|f fs IH]; intros H.
  - exists 0. simpl. split; lia.
  - cbn [forallb] in H. apply andb_true_iff in H as [H1 H2].
    destruct (IH H2) as [k [Hk Hk2]].
    destruct (length_wire_field_bytes f H1) as [k1 [Hk1 [Hk12 _]]].
    exists (k1 + k). unfold fields_bytes in *. cbn [map concat length].
    rewrite length_app. split; lia.
Qed.

Section Decoder.

Context {value datetime : Type}.

Variable decode_value : Z -> bytes -> result value value.
Variable unix_to_datetime : Z -> Z -> datetime.

Lemma decode_params_wire (its : list wire_item) :
  forall (fuel : nat) (pre post : bytes) (params : odict value)
         (ws : list (exception value)) (offset : Z),
    forallb wire_item_ok its = true ->
    (length its < fuel)%nat ->
    offset = Z.of_nat (length pre) ->
    decode_params decode_value fuel (pre ++ items_bytes its ++ post) offset
      (offset + Z.of_nat (length (items_bytes its))) params ws
    = match items_meaning decode_value its params ws with
      | (Ok ps, ws') => (Ok (offset + Z.of_nat (length (items_bytes its)), ps), ws')
      | (Raise e, ws') => (Raise e, ws')
      | (OutOfFuel, ws') => (OutOfFuel, ws')
      end.
Proof.
  induction its as [|it its IH]; intros fuel pre post params ws offset Hok Hfuel Hoff.
  - destruct fuel as [|fuel]; [simpl in Hfuel; lia|].
    simpl. rewrite Z.add_0_r, Z.ltb_irrefl. reflexivity.
  - cbn [length] in Hfuel. destruct fuel as [|fuel]; [lia|].
    cbn [forallb] in Hok. apply andb_true_iff in Hok as [Hit Hrest].
    destruct (length_wire_item_bytes it Hit) as [k [Hk Hk2]].
    assert (Hlen : Z.of_nat (length (items_bytes (it :: its)))
                   = Z.of_nat (length (wire_item_bytes it))
                     + Z.of_nat (length (items_bytes its))).
    { unfold items_bytes. cbn [map concat]. rewrite length_app. lia. }
    assert (Hbuf : pre ++ items_bytes (it :: its) ++ post
                   = pre ++ wire_item_bytes it ++ (items_bytes its ++ post)).
    { unfold items_bytes. cbn [map concat]. now rewrite <- app_assoc. }
    assert (Hbuf' : pre ++ items_bytes (it :: its) ++ post
                    = (pre ++ wire_item_bytes it) ++ items_bytes its ++ post).
    { rewrite Hbuf. now rewrite <- app_assoc. }
    cbn [decode_params].
    assert (Hlt : (offset <? offset + Z.of_nat (length (items_bytes (it :: its)))) = true)
      by (apply Z.ltb_lt; lia).
    rewrite Hlt.
    destruct it as [|name t payload].
    + (* an embedded footer *)
      rewrite Hbuf at 1.
      rewrite (slice_app pre (wire_item_bytes WFooter))
        by (cbn [wire_item_bytes]; change (length PACKET_FOOTER) with 8%nat; lia).
      cbn [wire_item_bytes]. rewrite bytes_eqb_refl.
      cbn [instantiate has_CommandMixin].
      rewrite Hbuf'. rewrite Hlen. cbn [wire_item_bytes].
      replace (offset + (Z.of_nat (length PACKET_FOOTER) + Z.of_nat (length (items_bytes its))))
        with ((offset + 8) + Z.of_nat (length (items_bytes its)))
        by (change (length PACKET_FOOTER) with 8%nat; lia).
      rewrite IH;
        [|assumption|lia
         |rewrite length_app; change (length PACKET_FOOTER) with 8%nat; lia].
      cbn [items_meaning]. unfold footer_warning.
      destruct (items_meaning decode_value its params _) as [[ps|e|] ws']; reflexivity.
    + (* a param *)
      cbn [wire_item_ok] in Hit.
      apply andb_true_iff in Hit as [Hit Hnf]. apply andb_true_iff in Hit as [Hit Hsz].
      apply andb_true_iff in Hit as [Hn Hp].
      apply Nat.eqb_eq in Hn. apply Z.eqb_eq in Hp. apply Z.ltb_lt in Hsz.
      apply negb_true_iff in Hnf.
      set (w := (8 + Z.of_nat (length payload)) / 4) in *.
      assert (Hw : w * 4 = 8 + Z.of_nat (length payload)).
      { subst w.
        pose proof (Z.div_mod (8 + Z.of_nat (length payload)) 4 ltac:(lia)) as D.
        replace ((8 + Z.of_nat (length payload)) mod 4) with 0 in D; [lia|].
        rewrite <- Z.add_mod_idemp_r, Hp by lia. reflexivity. }
      assert (Hw0 : 0 <= w) by lia.
      pose proof (length_param_header name w t Hn) as Hhl.
      assert (Hbuf2 : pre ++ items_bytes (WParam name t payload :: its) ++ post
                      = pre ++ param_header name w t ++ (payload ++ items_bytes its ++ post)).
      { rewrite Hbuf. cbn [wire_item_bytes]. fold w. now rewrite <- !app_assoc. }
      assert (Hbuf3 : pre ++ items_bytes (WParam name t payload :: its) ++ post
                      = (pre ++ param_header name w t) ++ payload ++ (items_bytes its ++ post)).
      { rewrite Hbuf2. now rewrite <- !app_assoc. }
      rewrite Hbuf2 at 1.
      rewrite (slice_app pre (param_header name w t)) by lia.
      rewrite Hnf.
      rewrite Hbuf2 at 1.
      rewrite (unpack_from_app pre (param_header name w t)) by (auto; lia).
      destruct (param_header_unpack name w t Hn) as [U1 [U2 U3]].
      rewrite U1, U2, U3.
      rewrite from_bytes_le_digits by (simpl; lia).
      rewrite Hbuf3 at 1.
      rewrite (slice_app (pre ++ param_header name w t) payload)
        by (rewrite ?length_app; lia).
      cbn [from_bytes items_meaning]. rewrite Z.mul_0_r, Z.add_0_r.
      destruct (decode_value (byte_to_Z t) payload) as [v|e|]; try reflexivity.
      assert (Hgt : (offset + w * 4
                     >? offset + Z.of_nat (length (items_bytes (WParam name t payload :: its))))
                    = false).
      { rewrite Z.gtb_ltb. apply Z.ltb_ge. rewrite Hlen. cbn [wire_item_bytes].
        fold w. rewrite length_app, Hhl. lia. }
      rewrite Hgt.
      rewrite Hbuf'. rewrite Hlen. cbn [wire_item_bytes]. fold w.
      replace (offset + (Z.of_nat (length (param_header name w t ++ payload))
                         + Z.of_nat (length (items_bytes its))))
        with ((offset + w * 4) + Z.of_nat (length (items_bytes its)))
        by (rewrite length_app, Hhl; lia).
      rewrite IH; [|assumption|lia|rewrite !length_app, Hhl; lia].
      destruct (items_meaning decode_value its _ ws) as [[ps|e|] ws']; reflexivity.
Qed.

Lemma decode_fields_loop_wire (fs : list wire_field) :
  forall (fuel : nat) (pre post : bytes) (fields : list (FieldData value))
         (ws : list (exception value)) (offset : Z),
    forallb wire_field_ok fs = true ->
    (length (fields_bytes fs) < fuel)%nat ->
    offset = Z.of_nat (length pre) ->
    decode_fields_loop decode_value fuel (pre ++ fields_bytes fs ++ post) offset
      (offset + Z.of_nat (length (fields_bytes fs))) fields ws
    = fields_meaning decode_value fs fields ws.
Proof.
  induction fs as [|f fs IH]; intros fuel pre post fields ws offset Hok Hfuel Hoff.
  - destruct fuel as [|fuel]; [simpl in Hfuel; lia|].
    cbn [decode_fields_loop fields_meaning fields_bytes map concat length].
    rewrite Z.add_0_r, Z.ltb_irrefl, Z.gtb_ltb, Z.ltb_irrefl. reflexivity.
  - cbn [forallb] in Hok. apply andb_true_iff in Hok as [Hf Hrest].
    destruct (length_wire_field_bytes f Hf) as [k [Hk [Hk2 Hk3]]].
    destruct (length_items_bytes (wf_items f)) as [ki [Hki Hki2]].
    { unfold wire_field_ok in Hf. repeat (apply andb_true_iff in Hf as [Hf ?]).
      assumption. }
    assert (Hlen : Z.of_nat (length (fields_bytes (f :: fs)))
                   = Z.of_nat (length (wire_field_bytes f))
                     + Z.of_nat (length (fields_bytes fs))).
    { unfold fields_bytes. cbn [map concat]. rewrite length_app. lia. }
    destruct fuel as [|fuel]; [lia|].
    unfold wire_field_ok in Hf. repeat (apply andb_true_iff in Hf as [Hf ?]).
    apply Nat.eqb_eq in Hf.
    match goal with H : (_ <? 256 ^ 3) = true |- _ => apply Z.ltb_lt in H; rename H into Hsz end.
    match goal with H : (0 <=? _) = true |- _ => apply Z.leb_le in H; rename H into Hid0 end.
    match goal with H : (_ <? 256 ^ 4) = true |- _ => apply Z.ltb_lt in H; rename H into Hid1 end.
    set (its := wf_items f) in *.
    set (w := (12 + Z.of_nat (length (items_bytes its))) / 4) in *.
    assert (Hw : w * 4 = 12 + Z.of_nat (length (items_bytes its))).
    { subst w. rewrite Hki. replace (12 + 4 * ki) with ((3 + ki) * 4) by lia.
      rewrite Z.div_mul by lia. lia. }
    set (hdr := field_header (wf_name f) w (wf_type_id f) (wf_id f)).
    pose proof (length_field_header (wf_name f) w (wf_type_id f) (wf_id f) Hf) as Hhl.
    fold hdr in Hhl.
    assert (Hblock : wire_field_bytes f = hdr ++ items_bytes its) by reflexivity.
    assert (Hbuf : pre ++ fields_bytes (f :: fs) ++ post
                   = pre ++ hdr ++ (items_bytes its ++ fields_bytes fs ++ post)).
    { unfold fields_bytes. cbn [map concat]. rewrite Hblock. now rewrite <- !app_assoc. }
    assert (Hbuf2 : pre ++ fields_bytes (f :: fs) ++ post
                    = (pre ++ hdr) ++ items_bytes its ++ (fields_bytes fs ++ post)).
    { rewrite Hbuf. now rewrite <- !app_assoc. }
    assert (Hbuf3 : pre ++ fields_bytes (f :: fs) ++ post
                    = (pre ++ wire_field_bytes f) ++ fields_bytes fs ++ post).
    { unfold fields_bytes. cbn [map concat]. now rewrite <- !app_assoc. }
    cbn [decode_fields_loop].
    assert (Hlt : (offset <? offset + Z.of_nat (length (fields_bytes (f :: fs)))) = true)
      by (apply Z.ltb_lt; lia).
    rewrite Hlt.
    rewrite Hbuf at 1. rewrite (unpack_from_app pre hdr) by (auto; lia).
    destruct (field_header_unpack (wf_name f) w (wf_type_id f) (wf_id f) Hf)
      as [U1 [U2 U3]].
    fold hdr in U1, U2, U3. rewrite U1, U2, U3.
    rewrite !from_bytes_le_digits by (simpl Z.of_nat; lia).
    rewrite Hbuf2 at 1.
    replace (offset + w * 4) with ((offset + 12) + Z.of_nat (length (items_bytes its)))
      by lia.
    rewrite (decode_params_wire its fuel (pre ++ hdr) (fields_bytes fs ++ post));
      [|assumption|lia|rewrite length_app; lia].
    cbn [fields_meaning]. fold its.
    destruct (items_meaning decode_value its [] ws) as [[ps|e|] ws']; try reflexivity.
    rewrite Hbuf3, Hlen.
    replace (offset + (Z.of_nat (length (wire_field_bytes f))
                       + Z.of_nat (length (fields_bytes fs))))
      with ((offset + 12 + Z.of_nat (length (items_bytes its)))
            + Z.of_nat (length (fields_bytes fs))) by lia.
    apply IH; [assumption|lia|rewrite length_app; lia].
Qed.

Lemma length_packet_header (type : bytes) (w id : Z) (format : bytes)
    (time nano : Z) (info : bytes) :
  length type = 4%nat -> length format = 4%nat -> length info = 4%nat ->
  length (packet_header type w id format time nano info) = 32%nat.
Proof.
  intros H1 H2 H3. unfold packet_header.
  rewrite !length_app, !length_le_digits, H1, H2, H3. reflexivity.
Qed.

Lemma decode_packet_cps_wire (type : bytes) (w id : Z) (format : bytes)
    (time nano : Z) (info : bytes) :
  length type = 4%nat -> length format = 4%nat -> length info = 4%nat ->
  0 <= w < 256 ^ 4 -> 0 <= id < 256 ^ 4 -> 0 <= time < 256 ^ 4 ->
  0 <= nano < 256 ^ 4 ->
  decode_packet_cps decode_value unix_to_datetime
    (packet_header type w id format time nano info)
  = Ok (w * 4 - 32,
        decode_packet_body decode_value (decode_identifier type) id
          (unix_to_datetime time nano) info (w * 4 - 32)).
Proof.
  intros H1 H2 H3 Hw Hid Ht Hn.
  unfold decode_packet_cps, unpack.
  rewrite length_packet_header by assumption. cbn [Nat.eqb or_raise bind].
  destruct type as [|t0 [|t1 [|t2 [|t3 [|]]]]]; try discriminate.
  destruct format as [|f0 [|f1 [|f2 [|f3 [|]]]]]; try discriminate.
  destruct info as [|i0 [|i1 [|i2 [|i3 [|]]]]]; try discriminate.
  unfold packet_header.
  change (sub (PACKET_HEADER_MAGIC ++ [t0; t1; t2; t3] ++ le_digits 4 w ++ le_digits 4 id
                 ++ [f0; f1; f2; f3] ++ le_digits 4 time ++ le_digits 4 nano
                 ++ [i0; i1; i2; i3]) 0 4) with PACKET_HEADER_MAGIC.
  change (sub (PACKET_HEADER_MAGIC ++ [t0; t1; t2; t3] ++ le_digits 4 w ++ le_digits 4 id
                 ++ [f0; f1; f2; f3] ++ le_digits 4 time ++ le_digits 4 nano
                 ++ [i0; i1; i2; i3]) 4 4) with [t0; t1; t2; t3].
  change (sub (PACKET_HEADER_MAGIC ++ [t0; t1; t2; t3] ++ le_digits 4 w ++ le_digits 4 id
                 ++ [f0; f1; f2; f3] ++ le_digits 4 time ++ le_digits 4 nano
                 ++ [i0; i1; i2; i3]) 8 4) with (le_digits 4 w).
  change (sub (PACKET_HEADER_MAGIC ++ [t0; t1; t2; t3] ++ le_digits 4 w ++ le_digits 4 id
                 ++ [f0; f1; f2; f3] ++ le_digits 4 time ++ le_digits 4 nano
                 ++ [i0; i1; i2; i3]) 12 4) with (le_digits 4 id).
  change (sub (PACKET_HEADER_MAGIC ++ [t0; t1; t2; t3] ++ le_digits 4 w ++ le_digits 4 id
                 ++ [f0; f1; f2; f3] ++ le_digits 4 time ++ le_digits 4 nano
                 ++ [i0; i1; i2; i3]) 20 4) with (le_digits 4 time).
  change (sub (PACKET_HEADER_MAGIC ++ [t0; t1; t2; t3] ++ le_digits 4 w ++ le_digits 4 id
                 ++ [f0; f1; f2; f3] ++ le_digits 4 time ++ le_digits 4 nano
                 ++ [i0; i1; i2; i3]) 24 4) with (le_digits 4 nano).
  change (sub (PACKET_HEADER_MAGIC ++ [t0; t1; t2; t3] ++ le_digits 4 w ++ le_digits 4 id
                 ++ [f0; f1; f2; f3] ++ le_digits 4 time ++ le_digits 4 nano
                 ++ [i0; i1; i2; i3]) 28 4) with [i0; i1; i2; i3].
  rewrite bytes_eqb_refl. cbn [negb].
  rewrite !from_bytes_le_digits by (simpl Z.of_nat; lia).
  reflexivity.
Qed.

Theorem decode_packet_wire (p : wire_packet) (fuel : nat) :
  wire_packet_ok p = true ->
  (length (wire_packet_bytes p) <= fuel)%nat ->
  decode_packet decode_value unix_to_datetime fuel (wire_packet_bytes p)
  = packet_meaning decode_value unix_to_datetime p.
Proof.
  intros Hok Hfuel. unfold wire_packet_ok in Hok.
  repeat (apply andb_true_iff in Hok as [Hok ?]).
  repeat match goal with
         | H : Nat.eqb _ _ = true |- _ => apply Nat.eqb_eq in H
         | H : (_ <? _) = true |- _ => apply Z.ltb_lt in H
         | H : (_ <=? _) = true |- _ => apply Z.leb_le in H
         end.
  destruct (length_fields_bytes (wp_fields p)) as [k [Hk Hk0]]; [assumption|].
  set (fb := fields_bytes (wp_fields p)) in *.
  set (w := (32 + Z.of_nat (length fb) + 8) / 4) in *.
  assert (Hw : w * 4 = 40 + Z.of_nat (length fb)).
  { subst w. rewrite Hk. replace (32 + 4 * k + 8) with ((10 + k) * 4) by lia.
    rewrite Z.div_mul by lia. lia. }
  set (hdr := packet_header (wp_type p) w (wp_id p) (wp_format p) (wp_time p)
                (wp_nanotime p) (wp_info p)).
  assert (Hhl : length hdr = 32%nat) by (apply length_packet_header; assumption).
  assert (Hcl : length (wp_checksum p ++ PACKET_FOOTER_MAGIC) = 8%nat).
  { rewrite length_app. change (length PACKET_FOOTER_MAGIC) with 4%nat. lia. }
  assert (Hbytes : wire_packet_bytes p = hdr ++ fb ++ wp_checksum p ++ PACKET_FOOTER_MAGIC)
    by reflexivity.
  rewrite Hbytes in *. rewrite !length_app in Hfuel.
  unfold decode_packet.
  replace (slice (hdr ++ fb ++ wp_checksum p ++ PACKET_FOOTER_MAGIC) 0 32) with hdr.
  2:{ symmetry. apply (slice_app [] hdr); [reflexivity|rewrite Hhl; reflexivity]. }
  replace (slice (hdr ++ fb ++ wp_checksum p ++ PACKET_FOOTER_MAGIC) 32
             (Z.of_nat (length (hdr ++ fb ++ wp_checksum p ++ PACKET_FOOTER_MAGIC))))
    with (fb ++ wp_checksum p ++ PACKET_FOOTER_MAGIC).
  2:{ symmetry.
      rewrite <- (app_nil_r (hdr ++ fb ++ wp_checksum p ++ PACKET_FOOTER_MAGIC)) at 1.
      rewrite <- app_assoc.
      apply (slice_app hdr (fb ++ wp_checksum p ++ PACKET_FOOTER_MAGIC) []);
        rewrite ?length_app; lia. }
  unfold hdr. rewrite decode_packet_cps_wire by (assumption || lia).
  unfold decode_packet_body.
  assert (Hgt : (Z.of_nat (length (fb ++ wp_checksum p ++ PACKET_FOOTER_MAGIC))
                 >? w * 4 - 32) = false).
  { rewrite Z.gtb_ltb. apply Z.ltb_ge. rewrite length_app. lia. }
  rewrite Hgt.
  replace (w * 4 - 32 - 8) with (0 + Z.of_nat (length fb)) by lia.
  unfold decode_fields.
  rewrite (decode_fields_loop_wire (wp_fields p) fuel []
             (wp_checksum p ++ PACKET_FOOTER_MAGIC));
    [|assumption|fold fb; lia|reflexivity].
  unfold packet_meaning.
  destruct (fields_meaning decode_value (wp_fields p) [] []) as [[fields|e|] ws];
    try reflexivity.
  rewrite <- (app_nil_r (fb ++ wp_checksum p ++ PACKET_FOOTER_MAGIC)).
  rewrite <- app_assoc.
  rewrite (unpack_from_app fb (wp_checksum p ++ PACKET_FOOTER_MAGIC) [])
    by (auto; lia).
  unfold sub. rewrite skipn_exact by assumption.
  change (firstn 4 PACKET_FOOTER_MAGIC) with PACKET_FOOTER_MAGIC.
  rewrite bytes_eqb_refl. reflexivity.
Qed.

End Decoder.

End DecoderFacts.

(** ** The encoder and its blocks *)

Module EncoderFacts.

Section Encoder.

Context {value datetime : Type}.

Variable encode_value : value -> result value (Z * bytes).
Variable datetime_to_unix : datetime -> Z * Z.

Lemma Ok_inj {A : Type} (a b : A) : @Ok value A a = Ok b -> a = b.
Proof. intros H. injection H as H. exact H. Qed.

Lemma to_bytes_length (n : nat) (v : Z) (b : bytes) :
  to_bytes n v = Some b -> length b = n.
Proof.
  intros H. apply to_bytes_Some in H as [_ ->]. apply length_le_digits.
Qed.

Lemma pad_range (size : Z) : 0 <= (- size) mod 4 < 4.
Proof. apply Z.mod_pos_bound. lia. Qed.

Lemma length_param_block (p : string * value) (b : bytes) :
  param_block encode_value p = Ok b ->
  exists (t : Z) (payload : bytes),
    encode_value (snd p) = Ok (t, payload) /\
    Z.of_nat (length b)
    = 8 + Z.of_nat (length payload) + (- (8 + Z.of_nat (length payload))) mod 4.
Proof.
  unfold param_block. destruct (encode_value (snd p)) as [[t payload]|e|]; try discriminate.
  cbn [bind].
  destruct (to_bytes 3 _) as [sb|] eqn:Es; try discriminate.
  destruct (pack_B t) as [tb|] eqn:Et; try discriminate.
  cbn [or_raise bind]. intros H. apply Ok_inj in H. subst b.
  exists t, payload. split; [reflexivity|].
  apply to_bytes_length in Es. apply to_bytes_length in Et.
  pose proof (pad_range (8 + Z.of_nat (length payload))).
  rewrite !length_app, length_pack_s, Es, Et, length_zeros. lia.
Qed.

Lemma encode_param_eq (buf : bytes) (offset : Z) (name : string) (v : value) :
  encode_param encode_value buf offset name v
  = bind (param_block encode_value (name, v))
      (fun b => Ok (buf ++ b, offset + Z.of_nat (length b))).
Proof.
  unfold encode_param, param_block. cbn [fst snd].
  destruct (encode_value v) as [[t payload]|e|]; try reflexivity.
  cbn [bind].
  destruct (to_bytes 3 _) as [sb|] eqn:Es; try reflexivity.
  destruct (pack_B t) as [tb|] eqn:Et; try reflexivity.
  cbn [or_raise bind].
  apply to_bytes_length in Es. apply to_bytes_length in Et.
  pose proof (pad_range (8 + Z.of_nat (length payload))).
  rewrite (pack_s_exact 3 sb Es).
  f_equal. f_equal.
  - now rewrite <- !app_assoc.
  - rewrite !length_app, length_pack_s, Es, Et, length_zeros. lia.
Qed.

Lemma encode_params_eq (params : odict value) :
  forall (buf : bytes) (offset : Z),
    encode_params encode_value buf offset params
    = bind (params_blocks encode_value params)
        (fun bs => Ok (buf ++ concat bs, offset + Z.of_nat (length (concat bs)))).
Proof.
  induction params as [|[name v] rest IH]; intros buf offset.
  - cbn. now rewrite app_nil_r, Z.add_0_r.
  - cbn [encode_params params_blocks]. rewrite encode_param_eq.
    destruct (param_block encode_value (name, v)) as [b|e|]; try reflexivity.
    cbn [bind]. rewrite IH.
    destruct (params_blocks encode_value rest) as [bs|e|]; try reflexivity.
    cbn [bind concat]. rewrite length_app, <- app_assoc. f_equal. f_equal. lia.
Qed.

Lemma encode_field_eq (buf : bytes) (offset : Z) (f : FieldData value) :
  offset = Z.of_nat (length buf) ->
  encode_field encode_value buf offset f
  = bind (field_block encode_value f)
      (fun b => Ok (buf ++ b, offset + Z.of_nat (length b))).
Proof.
  intros Hoff. unfold encode_field, field_block.
  destruct (pack_I (field_id f)) as [ib|] eqn:Ei; try reflexivity.
  cbn [or_raise bind]. rewrite encode_params_eq.
  destruct (params_blocks encode_value (field_params f)) as [bs|e|]; try reflexivity.
  cbn [bind].
  apply to_bytes_length in Ei.
  set (name := pack_s 4 (encode_latin1 (field_name f))).
  assert (Hn : length name = 4%nat) by apply length_pack_s.
  change (pack_s 3 [x00; x00; x00]) with [x00; x00; x00].
  change (pack_s 1 [x00]) with [x00].
  replace (offset + 12 + Z.of_nat (length (concat bs)) - offset)
    with (12 + Z.of_nat (length (concat bs))) by lia.
  destruct (to_bytes 3 _) as [sb|] eqn:Es; try reflexivity.
  cbn [or_raise bind].
  apply to_bytes_length in Es.
  replace (slice sb 0 3) with sb.
  2:{ symmetry. pose proof (slice_all sb) as Hs. rewrite Es in Hs. exact Hs. }
  f_equal. f_equal.
  - replace ((buf ++ name ++ [x00; x00; x00] ++ [x00] ++ ib) ++ concat bs)
      with ((buf ++ name) ++ [x00; x00; x00] ++ ([x00] ++ ib ++ concat bs))
      by (now rewrite <- !app_assoc).
    rewrite set_slice_app with (new := sb);
      [now rewrite <- !app_assoc
      |rewrite length_app, Hn; lia
      |cbn [length]; lia].
  - rewrite !length_app, Hn, Es, Ei. simpl length. lia.
Qed.

Lemma length_field_block (f : FieldData value) (b : bytes) :
  field_block encode_value f = Ok b ->
  exists bs, params_blocks encode_value (field_params f) = Ok bs /\
             Z.of_nat (length b) = 12 + Z.of_nat (length (concat bs)).
Proof.
  unfold field_block.
  destruct (pack_I (field_id f)) as [ib|] eqn:Ei; try discriminate.
  cbn [or_raise bind].
  destruct (params_blocks encode_value (field_params f)) as [bs|e|]; try discriminate.
  cbn [bind].
  destruct (to_bytes 3 _) as [sb|] eqn:Es; try discriminate.
  cbn [or_raise bind]. intros H. apply Ok_inj in H. subst b.
  exists bs. split; [reflexivity|].
  apply to_bytes_length in Es. apply to_bytes_length in Ei.
  rewrite !length_app, length_pack_s, Es, Ei. simpl length. lia.
Qed.

Lemma encode_fields_eq (fields : list (FieldData value)) :
  forall (buf : bytes) (offset : Z),
    offset = Z.of_nat (length buf) ->
    encode_fields encode_value buf offset fields
    = bind (fields_blocks encode_value fields)
        (fun bs => Ok (buf ++ concat bs, offset + Z.of_nat (length (concat bs)))).
Proof.
  induction fields as [|f rest IH]; intros buf offset Hoff.
  - cbn. now rewrite app_nil_r, Z.add_0_r.
  - cbn [encode_fields fields_blocks]. rewrite encode_field_eq by exact Hoff.
    destruct (field_block encode_value f) as [b|e|]; try reflexivity.
    cbn [bind]. rewrite IH by (rewrite length_app; lia).
    destruct (fields_blocks encode_value rest) as [bs|e|]; try reflexivity.
    cbn [bind concat]. rewrite length_app, <- app_assoc. f_equal. f_equal. lia.
Qed.

Lemma encode_packet_eq (packet_type : string) (packet_id : Z)
    (timestamp : datetime) (info : bytes) (fields : list (FieldData value)) :
  encode_packet encode_value datetime_to_unix packet_type packet_id timestamp info fields
  = packet_block encode_value datetime_to_unix packet_type packet_id timestamp info fields.
Proof.
  unfold encode_packet, packet_block, pack_packet_header.
  destruct (datetime_to_unix timestamp) as [time nano].
  change (pack_I 0) with (Some (le_digits 4 0)). cbn [or_raise bind].
  destruct (pack_I packet_id) as [ib|] eqn:Ei; try reflexivity.
  destruct (pack_I time) as [tb|] eqn:Et; try reflexivity.
  destruct (pack_I nano) as [nb|] eqn:En; try reflexivity.
  cbn [or_raise bind].
  apply to_bytes_length in Ei. apply to_bytes_length in Et. apply to_bytes_length in En.
  change (pack_s 4 PACKET_HEADER_MAGIC) with PACKET_HEADER_MAGIC.
  change (pack_s 4 PACKET_FORMAT_TAG) with PACKET_FORMAT_TAG.
  set (type := pack_s 4 (encode_latin1 packet_type)).
  set (info4 := pack_s 4 info).
  assert (Hty : length type = 4%nat) by apply length_pack_s.
  assert (Hin : length info4 = 4%nat) by apply length_pack_s.
  set (header := PACKET_HEADER_MAGIC ++ type ++ le_digits 4 0 ++ ib
                   ++ PACKET_FORMAT_TAG ++ tb ++ nb ++ info4).
  assert (Hhl : length header = 32%nat).
  { unfold header. rewrite !length_app, Hty, Hin, Ei, Et, En. reflexivity. }
  assert (Hpi : pack_into (zeros 32) 0 header = Some header).
  { unfold pack_into. rewrite Hhl.
    change (unpack_from 32 (zeros 32) 0) with (Some (zeros 32)).
    cbn [Z.ltb Z.compare Z.to_nat firstn app Nat.add].
    change (skipn 32 (zeros 32)) with (@nil byte). now rewrite app_nil_r. }
  rewrite Hpi. cbn [or_raise bind].
  rewrite encode_fields_eq by (rewrite Hhl; reflexivity).
  destruct (fields_blocks encode_value fields) as [bs|e|]; try reflexivity.
  cbn [bind].
  destruct (to_bytes 4 _) as [sb|] eqn:Es; try reflexivity.
  cbn [or_raise bind]. f_equal.
  unfold header.
  replace (((PACKET_HEADER_MAGIC ++ type ++ le_digits 4 0 ++ ib ++ PACKET_FORMAT_TAG
               ++ tb ++ nb ++ info4) ++ concat bs) ++ PACKET_FOOTER)
    with ((PACKET_HEADER_MAGIC ++ type) ++ le_digits 4 0
            ++ (ib ++ PACKET_FORMAT_TAG ++ tb ++ nb ++ info4 ++ concat bs ++ PACKET_FOOTER))
    by (now rewrite <- !app_assoc).
  rewrite set_slice_app with (new := sb);
    [now rewrite <- !app_assoc
    |rewrite length_app, Hty; reflexivity
    |reflexivity].
Qed.

End Encoder.

End EncoderFacts.

(** ** The sizes that the encoder writes *)

Module SizeFacts.

Import EncoderFacts.

Lemma pad_aligned (x : Z) : exists k, x + (- x) mod 4 = 4 * k.
Proof.
  exists (- ((- x) / 4)). pose proof (Z.div_mod (- x) 4 ltac:(lia)). lia.
Qed.

Lemma aligned_div (k : Z) : 4 * k / 4 * 4 = 4 * k.
Proof. rewrite (Z.mul_comm 4 k), Z.div_mul by lia. reflexivity. Qed.

Section Sizes.

Context {value datetime : Type}.

Variable encode_value : value -> result value (Z * bytes).
Variable datetime_to_unix : datetime -> Z * Z.

Lemma param_block_sized_ok (p : string * value) (b : bytes) :
  param_block encode_value p = Ok b -> param_block_sized encode_value p b.
Proof.
  unfold param_block, param_block_sized.
  destruct (encode_value (snd p)) as [[t payload]|e|]; try discriminate.
  cbn [bind].
  set (size := 8 + Z.of_nat (length payload)).
  destruct (to_bytes 3 _) as [sb|] eqn:Es; try discriminate.
  destruct (pack_B t) as [tb|] eqn:Et; try discriminate.
  cbn [or_raise bind]. intros H. apply Ok_inj in H. subst b.
  exists t, payload. split; [reflexivity|]. cbv zeta. fold size.
  apply to_bytes_Some in Es as [Hr ->]. apply to_bytes_length in Et.
  set (name := pack_s 4 (encode_latin1 (fst p))).
  assert (Hn : length name = 4%nat) by apply length_pack_s.
  set (sb := le_digits 3 ((size + (- size) mod 4) / 4)) in *.
  assert (Hs : length sb = 3%nat) by apply length_le_digits.
  assert (H8 : slice (name ++ sb ++ tb ++ payload ++ zeros (Z.to_nat ((- size) mod 4))) 0 8
               = name ++ sb ++ tb).
  { replace (name ++ sb ++ tb ++ payload ++ zeros (Z.to_nat ((- size) mod 4)))
      with ([] ++ (name ++ sb ++ tb) ++ (payload ++ zeros (Z.to_nat ((- size) mod 4))))
      by (cbn [app]; now rewrite <- !app_assoc).
    apply slice_app; [reflexivity|].
    rewrite !length_app, Hn, Hs, Et. reflexivity. }
  assert (H47 : slice (name ++ sb ++ tb ++ payload ++ zeros (Z.to_nat ((- size) mod 4))) 4 7
                = sb).
  { apply slice_app; rewrite ?Hn, ?Hs; reflexivity. }
  rewrite H8, H47. repeat split.
  - rewrite !length_app, Hn, Hs, Et. reflexivity.
  - now rewrite <- !app_assoc.
  - unfold sb. rewrite from_bytes_le_digits by exact Hr.
    destruct (pad_aligned size) as [k Hk]. rewrite Hk. apply aligned_div.
Qed.

Lemma params_blocks_sized (params : odict value) :
  forall bs, params_blocks encode_value params = Ok bs ->
             Forall2 (param_block_sized encode_value) params bs.
Proof.
  induction params as [|p rest IH]; intros bs H.
  - cbn in H. apply Ok_inj in H. subst bs. constructor.
  - cbn [params_blocks] in H.
    destruct (param_block encode_value p) as [b|e|] eqn:Eb; try discriminate.
    cbn [bind] in H.
    destruct (params_blocks encode_value rest) as [bs'|e|]; try discriminate.
    cbn [bind] in H. apply Ok_inj in H. subst bs.
    constructor; [now apply param_block_sized_ok|now apply IH].
Qed.

Lemma params_blocks_aligned (params : odict value) :
  forall bs, params_blocks encode_value params = Ok bs ->
             exists k, Z.of_nat (length (concat bs)) = 4 * k.
Proof.
  induction params as [|p rest IH]; intros bs H.
  - cbn in H. apply Ok_inj in H. subst bs. exists 0. reflexivity.
  - cbn [params_blocks] in H.
    destruct (param_block encode_value p) as [b|e|] eqn:Eb; try discriminate.
    cbn [bind] in H.
    destruct (params_blocks encode_value rest) as [bs'|e|] eqn:Er; try discriminate.
    cbn [bind] in H. apply Ok_inj in H. subst bs.
    destruct (IH bs' eq_refl) as [k Hk].
    destruct (length_param_block encode_value p b Eb) as [t [payload [_ Hl]]].
    destruct (pad_aligned (8 + Z.of_nat (length payload))) as [k1 Hk1].
    exists (k1 + k). cbn [concat]. rewrite length_app. lia.
Qed.

Lemma field_block_sized_ok (f : FieldData value) (b : bytes) :
  field_block encode_value f = Ok b -> field_block_sized encode_value f b.
Proof.
  unfold field_block, field_block_sized.
  destruct (pack_I (field_id f)) as [ib|] eqn:Ei; try discriminate.
  cbn [or_raise bind].
  destruct (params_blocks encode_value (field_params f)) as [bs|e|] eqn:Ep;
    try discriminate.
  cbn [bind].
  destruct (to_bytes 3 _) as [sb|] eqn:Es; try discriminate.
  cbn [or_raise bind]. intros H. apply Ok_inj in H. subst b.
  exists bs.
  apply to_bytes_Some in Es as [Hr ->]. apply to_bytes_length in Ei.
  set (name := pack_s 4 (encode_latin1 (field_name f))).
  assert (Hn : length name = 4%nat) by apply length_pack_s.
  set (sb := le_digits 3 _) in *.
  assert (Hs : length sb = 3%nat) by apply length_le_digits.
  assert (H12 : slice (name ++ sb ++ [x00] ++ ib ++ concat bs) 0 12
                = name ++ sb ++ [x00] ++ ib).
  { replace (name ++ sb ++ [x00] ++ ib ++ concat bs)
      with ([] ++ (name ++ sb ++ [x00] ++ ib) ++ concat bs)
      by (cbn [app]; now rewrite <- !app_assoc).
    apply slice_app; [reflexivity|].
    rewrite !length_app, Hn, Hs, Ei. reflexivity. }
  assert (H47 : slice (name ++ sb ++ [x00] ++ ib ++ concat bs) 4 7 = sb).
  { apply slice_app; rewrite ?Hn, ?Hs; reflexivity. }
  rewrite H12, H47. repeat split.
  - rewrite !length_app, Hn, Hs, Ei. reflexivity.
  - now rewrite <- !app_assoc.
  - now apply params_blocks_sized.
  - rewrite !length_app, Hn, Hs, Ei. cbn [length].
    unfold sb. rewrite from_bytes_le_digits by exact Hr.
    destruct (params_blocks_aligned _ _ Ep) as [k Hk].
    rewrite Hk. replace (12 + 4 * k) with (4 * (3 + k)) by lia.
    rewrite aligned_div. lia.
Qed.

Lemma fields_blocks_sized (fields : list (FieldData value)) :
  forall bs, fields_blocks encode_value fields = Ok bs ->
             Forall2 (field_block_sized encode_value) fields bs /\
             exists k, Z.of_nat (length (concat bs)) = 4 * k.
Proof.
  induction fields as [|f rest IH]; intros bs H.
  - cbn in H. apply Ok_inj in H. subst bs. split; [constructor|]. exists 0. reflexivity.
  - cbn [fields_blocks] in H.
    destruct (field_block encode_value f) as [b|e|] eqn:Eb; try discriminate.
    cbn [bind] in H.
    destruct (fields_blocks encode_value rest) as [bs'|e|] eqn:Er; try discriminate.
    cbn [bind] in H. apply Ok_inj in H. subst bs.
    destruct (IH bs' eq_refl) as [HF [k Hk]].
    split.
    + constructor; [now apply field_block_sized_ok|exact HF].
    + destruct (length_field_block encode_value f b Eb) as [ps [Hps Hl]].
      destruct (params_blocks_aligned _ _ Hps) as [k1 Hk1].
      exists (3 + k1 + k). cbn [concat]. rewrite length_app. lia.
Qed.

(** C2: the size words that [encode_packet] back-patches.  Whenever
    [encode_packet] returns a buffer, the buffer is the 32-byte header, one
    block per field and the footer; the total size word at offset 8, times 4,
    is the length of the buffer; the size word of each field block, times 4,
    is the length of that block, which is its 12-byte header and its param
    blocks; and the size word of each param block, times 4, is 8 plus the
    length of the payload plus the length of the padding. *)
Theorem encode_packet_sizes (packet_type : string) (packet_id : Z)
    (timestamp : datetime) (info : bytes) (fields : list (FieldData value))
    (buf : bytes) :
  encode_packet encode_value datetime_to_unix packet_type packet_id timestamp
    info fields = Ok buf ->
  from_bytes (slice buf 8 12) * 4 = Z.of_nat (length buf) /\
  exists field_blocks : list bytes,
    length (slice buf 0 32) = 32%nat /\
    buf = slice buf 0 32 ++ concat field_blocks ++ PACKET_FOOTER /\
    Forall2 (field_block_sized encode_value) fields field_blocks.
Proof.
  rewrite encode_packet_eq. unfold packet_block.
  destruct (datetime_to_unix timestamp) as [time nano].
  destruct (pack_I packet_id) as [ib|] eqn:Ei; try discriminate.
  destruct (pack_I time) as [tb|] eqn:Et; try discriminate.
  destruct (pack_I nano) as [nb|] eqn:En; try discriminate.
  cbn [or_raise bind].
  destruct (fields_blocks encode_value fields) as [bs|e|] eqn:Ef; try discriminate.
  cbn [bind].
  destruct (to_bytes 4 _) as [sb|] eqn:Es; try discriminate.
  cbn [or_raise bind]. intros H. apply Ok_inj in H. subst buf.
  apply to_bytes_Some in Es as [Hr ->].
  apply to_bytes_length in Ei. apply to_bytes_length in Et. apply to_bytes_length in En.
  destruct (fields_blocks_sized fields bs Ef) as [HF [k Hk]].
  set (type := pack_s 4 (encode_latin1 packet_type)).
  set (info4 := pack_s 4 info).
  assert (Hty : length type = 4%nat) by apply length_pack_s.
  assert (Hin : length info4 = 4%nat) by apply length_pack_s.
  set (sb := le_digits 4 _) in *.
  assert (Hs : length sb = 4%nat) by apply length_le_digits.
  set (buf := PACKET_HEADER_MAGIC ++ type ++ sb ++ ib ++ PACKET_FORMAT_TAG ++ tb
                ++ nb ++ info4 ++ concat bs ++ PACKET_FOOTER).
  set (header := PACKET_HEADER_MAGIC ++ type ++ sb ++ ib ++ PACKET_FORMAT_TAG ++ tb
                   ++ nb ++ info4).
  assert (Hhl : length header = 32%nat).
  { unfold header. rewrite !length_app, Hty, Hs, Ei, Et, En, Hin. reflexivity. }
  assert (Hbuf : buf = header ++ concat bs ++ PACKET_FOOTER).
  { unfold buf, header. now rewrite <- !app_assoc. }
  assert (H32 : slice buf 0 32 = header).
  { rewrite Hbuf. apply (slice_app [] header); [reflexivity|now rewrite Hhl]. }
  assert (H812 : slice buf 8 12 = sb).
  { unfold buf.
    replace (PACKET_HEADER_MAGIC ++ type ++ sb ++ ib ++ PACKET_FORMAT_TAG ++ tb
               ++ nb ++ info4 ++ concat bs ++ PACKET_FOOTER)
      with ((PACKET_HEADER_MAGIC ++ type) ++ sb ++ (ib ++ PACKET_FORMAT_TAG ++ tb
               ++ nb ++ info4 ++ concat bs ++ PACKET_FOOTER))
      by (now rewrite <- !app_assoc).
    apply slice_app; [rewrite length_app, Hty; reflexivity|rewrite Hs; reflexivity]. }
  rewrite H32, H812. split.
  - unfold sb. rewrite from_bytes_le_digits by exact Hr.
    rewrite Hbuf, !length_app, Hhl. change (length PACKET_FOOTER) with 8%nat.
    rewrite Hk. replace (32 + 4 * k + 8) with (4 * (10 + k)) by lia.
    rewrite aligned_div. lia.
  - exists bs. repeat split; assumption.
Qed.

End Sizes.

End SizeFacts.

(** ** Legal packets on the wire *)

Module LegalFacts.

Import EncoderFacts SizeFacts DecoderFacts.

Lemma length_encode_latin1 (s : string) :
  length (encode_latin1 s) = String.length s.
Proof.
  unfold encode_latin1, list_byte_of_string. rewrite length_map.
  induction s as [|c s IH]; simpl; [reflexivity|now rewrite IH].
Qed.

Lemma decode_identifier_pack (s : string) :
  (String.length s <= 4)%nat ->
  decode_identifier (pack_s 4 (encode_latin1 s)) = normalise_identifier s.
Proof.
  intros H. unfold decode_identifier, normalise_identifier.
  rewrite pack_s_short by (rewrite length_encode_latin1; exact H).
  now rewrite rstrip_zeros.
Qed.

Lemma le_digits_1 (t : Z) : le_digits 1 t = [byte_of_Z t].
Proof.
  cbn [le_digits]. f_equal. unfold byte_of_Z. now rewrite Z.mod_mod by lia.
Qed.

Lemma length_padded (payload : bytes) :
  Z.of_nat (length (padded payload))
  = Z.of_nat (length payload) + (- (8 + Z.of_nat (length payload))) mod 4.
Proof.
  unfold padded. rewrite length_app, length_zeros.
  pose proof (pad_range (8 + Z.of_nat (length payload))). lia.
Qed.

Lemma padded_aligned (payload : bytes) :
  exists k, 8 + Z.of_nat (length (padded payload)) = 4 * k /\ 2 <= k.
Proof.
  rewrite length_padded.
  destruct (pad_aligned (8 + Z.of_nat (length payload))) as [k Hk].
  pose proof (pad_range (8 + Z.of_nat (length payload))).
  exists k. split; lia.
Qed.

(** A param header reads as a packet footer only if its type id is
    [0xDD]. *)
Lemma param_header_not_footer (name : bytes) (w t : Z) :
  length name = 4%nat -> 0 <= t < 256 -> t <> 221 ->
  bytes_eqb (param_header name w (byte_of_Z t)) PACKET_FOOTER = false.
Proof.
  intros Hn Ht Hne. apply bytes_eqb_neq. intros H.
  do 5 (destruct name as [|? name]; try discriminate).
  unfold param_header, PACKET_FOOTER in H. cbn [le_digits app] in H.
  injection H as _ _ _ _ _ _ _ H.
  apply (f_equal byte_to_Z) in H. rewrite byte_to_of_Z in H by exact Ht.
  apply Hne. exact H.
Qed.

Section Legal.

Context {value datetime : Type}.

Variable encode_value : value -> result value (Z * bytes).
Variable decode_value : Z -> bytes -> result value value.
Variable datetime_to_unix : datetime -> Z * Z.
Variable unix_to_datetime : Z -> Z -> datetime.

Local Abbreviation legal_param := (legal_param encode_value decode_value).
Local Abbreviation legal_field := (legal_field encode_value decode_value).
Local Abbreviation wire_of_param := (wire_of_param encode_value).
Local Abbreviation wire_of_field := (wire_of_field encode_value).

Lemma param_wire_size_pos (p : string * value) : 0 <= param_wire_size encode_value p.
Proof.
  unfold param_wire_size.
  destruct (encode_value (snd p)) as [[t payload]|e|]; lia.
Qed.

Lemma params_wire_size_pos (ps : odict value) : 0 <= params_wire_size encode_value ps.
Proof.
  induction ps as [|p ps IH]; cbn; [lia|].
  pose proof (param_wire_size_pos p). unfold params_wire_size in IH. lia.
Qed.

Lemma legal_param_wire (p : string * value) :
  legal_param p ->
  param_wire_size encode_value p < 4 * 256 ^ 3 ->
  param_block encode_value p = Ok (wire_item_bytes (wire_of_param p)) /\
  wire_item_ok (wire_of_param p) = true /\
  Z.of_nat (length (wire_item_bytes (wire_of_param p))) = param_wire_size encode_value p.
Proof.
  unfold Legal.legal_param, param_wire_size, param_block, Layout.wire_of_param.
  intros [Hn Hl] Hsz.
  destruct (encode_value (snd p)) as [[t payload]|e|]; try contradiction.
  destruct Hl as [Ht [Hd Hnf]].
  cbn [bind].
  destruct (padded_aligned payload) as [k [Hk Hk2]].
  pose proof (length_padded payload) as Hlp.
  set (name := pack_s 4 (encode_latin1 (fst p))) in *.
  assert (Hnl : length name = 4%nat) by apply length_pack_s.
  replace (8 + Z.of_nat (length payload) + (- (8 + Z.of_nat (length payload))) mod 4)
    with (8 + Z.of_nat (length (padded payload))) by lia.
  assert (Hw : (8 + Z.of_nat (length (padded payload))) / 4 = k).
  { rewrite Hk, Z.mul_comm, Z.div_mul by lia. reflexivity. }
  rewrite Hw in *.
  rewrite to_bytes_ok by (simpl Z.of_nat; lia).
  unfold pack_B. rewrite to_bytes_ok by (simpl Z.of_nat; lia).
  cbn [or_raise bind wire_item_bytes wire_item_ok].
  rewrite Hw, le_digits_1. repeat split.
  - unfold param_header, padded. now rewrite <- !app_assoc.
  - rewrite Hnf. apply Nat.eqb_eq in Hnl. rewrite Hnl. cbn [andb negb].
    rewrite andb_true_r. apply andb_true_iff. split.
    + apply Z.eqb_eq. replace (Z.of_nat (length (padded payload))) with (4 * k - 8) by lia.
      replace (4 * k - 8) with ((k - 2) * 4) by lia. apply Z.mod_mul. lia.
    + apply Z.ltb_lt. lia.
  - rewrite length_app, length_param_header by exact Hnl. lia.
Qed.

Lemma legal_params_wire (ps : odict value) :
  Forall legal_param ps ->
  params_wire_size encode_value ps < 4 * 256 ^ 3 ->
  params_blocks encode_value ps = Ok (map wire_item_bytes (map wire_of_param ps)) /\
  forallb wire_item_ok (map wire_of_param ps) = true /\
  Z.of_nat (length (items_bytes (map wire_of_param ps))) = params_wire_size encode_value ps.
Proof.
  induction ps as [|p ps IH]; intros HF Hsz.
  - cbn. repeat split.
  - inversion HF as [|? ? Hp HF']; subst.
    cbn [params_wire_size fold_right] in Hsz. fold (params_wire_size encode_value ps) in Hsz.
    pose proof (param_wire_size_pos p). pose proof (params_wire_size_pos ps).
    destruct (legal_param_wire p Hp ltac:(lia)) as [Hb [Hok Hl]].
    destruct (IH HF' ltac:(lia)) as [Hbs [Hoks Hls]].
    cbn [params_blocks map forallb]. rewrite Hb, Hbs, Hok, Hoks. cbn [bind].
    repeat split.
    unfold items_bytes in *. cbn [map concat]. rewrite length_app.
    cbn [params_wire_size fold_right]. fold (params_wire_size encode_value ps). lia.
Qed.

Lemma legal_params_meaning (ps : odict value) :
  Forall legal_param ps ->
  forall (acc : odict value) (ws : list (exception value)),
    items_meaning decode_value (map wire_of_param ps) acc ws
    = (Ok (fold_left (fun d p => od_set (normalise_identifier (fst p)) (snd p) d) ps acc),
       ws).
Proof.
  induction ps as [|p ps IH]; intros HF acc ws.
  - reflexivity.
  - inversion HF as [|? ? Hp HF']; subst.
    cbn [map fold_left]. unfold Layout.wire_of_param at 1.
    destruct Hp as [Hn Hl].
    destruct (encode_value (snd p)) as [[t payload]|e|]; try contradiction.
    destruct Hl as [Ht [Hd _]].
    cbn [items_meaning]. rewrite byte_to_of_Z by exact Ht. rewrite Hd.
    rewrite decode_identifier_pack by exact Hn. apply IH. exact HF'.
Qed.

Lemma legal_field_wire (f : FieldData value) :
  legal_field f ->
  field_block encode_value f = Ok (wire_field_bytes (wire_of_field f)) /\
  wire_field_ok (wire_of_field f) = true /\
  Z.of_nat (length (wire_field_bytes (wire_of_field f))) = field_wire_size encode_value f.
Proof.
  intros [Hn [Hid [HF Hsz]]]. unfold field_wire_size in *.
  pose proof (params_wire_size_pos (field_params f)) as Hpos.
  destruct (legal_params_wire (field_params f) HF ltac:(lia)) as [Hbs [Hoks Hls]].
  destruct (length_items_bytes _ Hoks) as [k [Hk Hk2]].
  unfold field_block, wire_field_ok, wire_field_bytes, Layout.wire_of_field.
  cbn [wf_name wf_type_id wf_id wf_items].
  unfold pack_I. rewrite to_bytes_ok by (simpl Z.of_nat; lia).
  cbn [or_raise bind]. rewrite Hbs. cbn [bind].
  fold (items_bytes (map wire_of_param (field_params f))).
  assert (Hw : (12 + Z.of_nat (length (items_bytes (map wire_of_param (field_params f))))) / 4
               = 3 + k).
  { rewrite Hk. replace (12 + 4 * k) with ((3 + k) * 4) by lia.
    now rewrite Z.div_mul by lia. }
  rewrite Hw. rewrite to_bytes_ok by (simpl Z.of_nat; lia).
  cbn [or_raise bind]. repeat split.
  - unfold field_header. now rewrite <- !app_assoc.
  - rewrite Hoks, length_pack_s. cbn [Nat.eqb andb]. rewrite andb_true_r.
    apply andb_true_iff. split; [apply andb_true_iff; split|].
    + apply Z.leb_le. lia.
    + apply Z.ltb_lt. lia.
    + apply Z.ltb_lt. lia.
  - rewrite length_app, length_field_header by apply length_pack_s. lia.
Qed.

Lemma legal_fields_wire (fs : list (FieldData value)) :
  Forall legal_field fs ->
  fields_blocks encode_value fs = Ok (map wire_field_bytes (map wire_of_field fs)) /\
  forallb wire_field_ok (map wire_of_field fs) = true /\
  Z.of_nat (length (fields_bytes (map wire_of_field fs))) = fields_wire_size encode_value fs.
Proof.
  induction fs as [|f fs IH]; intros HF.
  - cbn. repeat split.
  - inversion HF as [|? ? Hf HF']; subst.
    destruct (legal_field_wire f Hf) as [Hb [Hok Hl]].
    destruct (IH HF') as [Hbs [Hoks Hls]].
    cbn [fields_blocks map forallb]. rewrite Hb, Hbs, Hok, Hoks. cbn [bind].
    repeat split.
    unfold fields_bytes in *. cbn [map concat]. rewrite length_app.
    cbn [fields_wire_size fold_right]. fold (fields_wire_size encode_value fs). lia.
Qed.

Lemma legal_fields_meaning (fs : list (FieldData value)) :
  Forall legal_field fs ->
  forall (acc : list (FieldData value)) (ws : list (exception value)),
    fields_meaning decode_value (map wire_of_field fs) acc ws
    = (Ok (acc ++ map normalise_field fs), ws).
Proof.
  induction fs as [|f fs IH]; intros HF acc ws.
  - cbn. now rewrite app_nil_r.
  - inversion HF as [|? ? Hf HF']; subst.
    destruct Hf as [Hn [Hid [HP Hsz]]].
    cbn [map fields_meaning].
    change (wf_items (wire_of_field f)) with (map wire_of_param (field_params f)).
    change (wf_name (wire_of_field f)) with (pack_s 4 (encode_latin1 (field_name f))).
    change (wf_id (wire_of_field f)) with (field_id f).
    rewrite legal_params_meaning by exact HP.
    rewrite decode_identifier_pack by exact Hn.
    rewrite IH by exact HF'. rewrite <- app_assoc. reflexivity.
Qed.

Lemma legal_packet_wire (p : PacketData value datetime) :
  legal_packet encode_value decode_value datetime_to_unix unix_to_datetime p ->
  encode_packet encode_value datetime_to_unix (packet_type p) (packet_id p)
    (packet_timestamp p) (packet_info p) (packet_fields p)
  = Ok (wire_packet_bytes (wire_of_packet encode_value datetime_to_unix p)) /\
  wire_packet_ok (wire_of_packet encode_value datetime_to_unix p) = true /\
  packet_meaning decode_value unix_to_datetime
    (wire_of_packet encode_value datetime_to_unix p)
  = (Ok (normalise_packet p), []).
Proof.
  intros [Hn [Hid [Hts [Hinfo [HF Hsz]]]]].
  rewrite encode_packet_eq.
  unfold packet_block, Layout.wire_of_packet, packet_meaning, wire_packet_ok,
    wire_packet_bytes.
  destruct (datetime_to_unix (packet_timestamp p)) as [time nano].
  destruct Hts as [Ht [Hnano Hrt]].
  cbn [wp_type wp_id wp_format wp_time wp_nanotime wp_info wp_fields wp_checksum].
  destruct (legal_fields_wire (packet_fields p) HF) as [Hbs [Hoks Hls]].
  destruct (length_fields_bytes _ Hoks) as [k [Hk Hk0]].
  unfold pack_I. rewrite !to_bytes_ok by (simpl Z.of_nat; lia).
  cbn [or_raise bind]. rewrite Hbs. cbn [bind].
  fold (fields_bytes (map wire_of_field (packet_fields p))).
  assert (Hw : (32 + Z.of_nat (length (fields_bytes (map wire_of_field (packet_fields p)))) + 8) / 4
               = 10 + k).
  { rewrite Hk. replace (32 + 4 * k + 8) with ((10 + k) * 4) by lia.
    now rewrite Z.div_mul by lia. }
  rewrite Hw. rewrite to_bytes_ok by (simpl Z.of_nat; lia).
  cbn [or_raise bind]. repeat split.
  - unfold packet_header. rewrite (pack_s_exact 4 (packet_info p)) by exact Hinfo.
    rewrite <- !app_assoc. reflexivity.
  - rewrite Hoks, length_pack_s, Hinfo. cbn [Nat.eqb length andb].
    rewrite !andb_true_r.
    repeat (apply andb_true_iff; split); try (apply Z.leb_le; lia);
      try (apply Z.ltb_lt; lia).
  - rewrite legal_fields_meaning by exact HF.
    rewrite decode_identifier_pack by exact Hn. rewrite Hrt.
    reflexivity.
Qed.

End Legal.

(** Normalising a canonical packet changes nothing. *)

Lemma od_set_fresh {V : Type} (k : string) (v : V) (d : odict V) :
  ~ In k (map fst d) -> od_set k v d = d ++ [(k, v)].
Proof.
  induction d as [|[k' v'] d IH]; intros H; cbn.
  - reflexivity.
  - destruct (String.eqb k' k) eqn:E.
    + apply String.eqb_eq in E. subst. exfalso. apply H. now left.
    + f_equal. apply IH. intros Hin. apply H. now right.
Qed.

Lemma fold_od_set_fresh {V : Type} (ps acc : odict V) :
  NoDup (map fst (acc ++ ps)) ->
  fold_left (fun d p => od_set (fst p) (snd p) d) ps acc = acc ++ ps.
Proof.
  revert acc. induction ps as [|[k v] ps IH]; intros acc H.
  - cbn. now rewrite app_nil_r.
  - cbn [fold_left fst snd].
    rewrite od_set_fresh.
    + rewrite IH; rewrite <- app_assoc; [reflexivity|exact H].
    + rewrite map_app in H. cbn [map fst] in H.
      apply NoDup_remove_2 in H. intros Hin. apply H.
      apply in_or_app. now left.
Qed.

Lemma normalise_params_canonical {V : Type} (ps : odict V) :
  Forall (fun p => canonical_identifier (fst p)) ps ->
  NoDup (map fst ps) ->
  normalise_params ps = ps.
Proof.
  intros HC HN. unfold normalise_params.
  rewrite <- (fold_od_set_fresh ps []) at 2 by exact HN.
  generalize (@nil (string * V)).
  induction HC as [|p ps Hp HC IH]; intros acc; [reflexivity|].
  cbn [fold_left]. unfold canonical_identifier in Hp. rewrite Hp.
  apply IH. now inversion HN.
Qed.

Lemma normalise_packet_canonical {V D : Type} (p : PacketData V D) :
  canonical_packet p -> normalise_packet p = p.
Proof.
  intros [Ht HF]. destruct p as [type id ts info fields]. unfold normalise_packet.
  cbn [packet_type packet_id packet_timestamp packet_info packet_fields] in *.
  unfold canonical_identifier in Ht. rewrite Ht. f_equal.
  induction HF as [|f fs Hf HF IH]; [reflexivity|].
  cbn [map]. rewrite IH. f_equal.
  destruct Hf as [Hn [HC HN]]. destruct f as [name fid params].
  unfold normalise_field. cbn [field_name field_id field_params] in *.
  unfold canonical_identifier in Hn. rewrite Hn.
  now rewrite normalise_params_canonical.
Qed.

End LegalFacts.

(** ** The packet codec: round trip, embedded footers, checksum *)

Module PacketTheorems.

Import EncoderFacts SizeFacts DecoderFacts LegalFacts.

Section Packets.

Context {value datetime : Type}.

Variable encode_value : value -> result value (Z * bytes).
Variable decode_value : Z -> bytes -> result value value.
Variable datetime_to_unix : datetime -> Z * Z.
Variable unix_to_datetime : Z -> Z -> datetime.


(** One more warning in the state is one more warning in the outcome. *)
Lemma items_meaning_push (its : list wire_item) :
  forall (params : odict value) (ws ws' : list (exception value))
         (r : result value (odict value)),
    items_meaning decode_value its params ws = (r, ws') ->
    items_meaning decode_value its params (ws ++ [footer_warning])
    = (r, ws' ++ [footer_warning]).
Proof.
  induction its as [|[|name t payload] its IH]; intros params ws ws' r H;
    cbn [items_meaning] in *.
  - injection H as <- <-. reflexivity.
  - apply IH. exact H.
  - destruct (decode_value (byte_to_Z t) payload) as [v|e|].
    + apply IH. exact H.
    + injection H as <- <-. reflexivity.
    + injection H as <- <-. reflexivity.
Qed.

Lemma items_meaning_embed (j : nat) (its : list wire_item) :
  forall (params ps : odict value) (ws ws' : list (exception value)),
    items_meaning decode_value its params ws = (Ok ps, ws') ->
    items_meaning decode_value (firstn j its ++ WFooter :: skipn j its) params ws
    = (Ok ps, ws' ++ [footer_warning]).
Proof.
  revert its. induction j as [|j IH]; intros its params ps ws ws' H.
  - cbn [firstn skipn app items_meaning]. now apply items_meaning_push.
  - destruct its as [|[|name t payload] its].
    + cbn [firstn skipn app items_meaning] in *. injection H as <- <-. reflexivity.
    + cbn [firstn skipn app items_meaning] in *. now apply IH.
    + cbn [firstn skipn app items_meaning] in *.
      destruct (decode_value (byte_to_Z t) payload) as [v|e|]; try discriminate.
      now apply IH.
Qed.

Lemma fields_meaning_push (fs : list wire_field) :
  forall (acc : list (FieldData value)) (ws ws' : list (exception value))
         (r : result value (list (FieldData value))),
    fields_meaning decode_value fs acc ws = (r, ws') ->
    fields_meaning decode_value fs acc (ws ++ [footer_warning])
    = (r, ws' ++ [footer_warning]).
Proof.
  induction fs as [|f fs IH]; intros acc ws ws' r H; cbn [fields_meaning] in *.
  - injection H as <- <-. reflexivity.
  - destruct (items_meaning decode_value (wf_items f) [] ws) as [[ps|e|] ws1] eqn:E;
      rewrite (items_meaning_push _ _ _ _ _ E).
    + apply IH. exact H.
    + injection H as <- <-. reflexivity.
    + injection H as <- <-. reflexivity.
Qed.

Lemma fields_meaning_embed (i j : nat) (fs : list wire_field) :
  forall (acc fields : list (FieldData value)) (ws ws' : list (exception value)),
    (i < length fs)%nat ->
    fields_meaning decode_value fs acc ws = (Ok fields, ws') ->
    fields_meaning decode_value
      (firstn i fs ++ match skipn i fs with
                      | [] => []
                      | f :: rest => embed_in_field j f :: rest
                      end) acc ws
    = (Ok fields, ws' ++ [footer_warning]).
Proof.
  revert fs. induction i as [|i IH]; intros fs acc fields ws ws' Hi H.
  - destruct fs as [|f fs]; [cbn in Hi; lia|].
    cbn [firstn skipn app fields_meaning embed_in_field wf_items wf_name wf_id] in *.
    destruct (items_meaning decode_value (wf_items f) [] ws) as [[ps|e|] ws1] eqn:E;
      try discriminate.
    rewrite (items_meaning_embed j _ _ _ _ _ E).
    now apply fields_meaning_push.
  - destruct fs as [|f fs]; [cbn in Hi; lia|].
    cbn [firstn skipn app fields_meaning length] in *.
    destruct (items_meaning decode_value (wf_items f) [] ws) as [[ps|e|] ws1] eqn:E;
      try discriminate.
    apply IH; [lia|exact H].
Qed.

Lemma length_items_bytes_embed (j : nat) (its : list wire_item) :
  length (items_bytes (firstn j its ++ WFooter :: skipn j its))
  = (length (items_bytes its) + 8)%nat.
Proof.
  assert (H : length (items_bytes its)
              = (length (items_bytes (firstn j its))
                 + length (items_bytes (skipn j its)))%nat).
  { rewrite <- (firstn_skipn j its) at 1. unfold items_bytes.
    now rewrite map_app, concat_app, length_app. }
  rewrite H. unfold items_bytes. rewrite map_app, concat_app, length_app.
  cbn [map concat]. rewrite length_app.
  change (length (wire_item_bytes WFooter)) with 8%nat. lia.
Qed.

Lemma length_fields_bytes_embed (i j : nat) (fs : list wire_field) :
  (i < length fs)%nat ->
  length (fields_bytes
            (firstn i fs ++ match skipn i fs with
                            | [] => []
                            | f :: rest => embed_in_field j f :: rest
                            end))
  = (length (fields_bytes fs) + 8)%nat.
Proof.
  revert fs. induction i as [|i IH]; intros fs Hi.
  - destruct fs as [|f fs]; [cbn in Hi; lia|].
    cbn [firstn skipn app]. unfold fields_bytes. cbn [map concat].
    rewrite !length_app. unfold wire_field_bytes, embed_in_field.
    cbn [wf_items wf_name wf_id wf_type_id].
    rewrite !length_app. unfold field_header. rewrite !length_app, !length_le_digits.
    rewrite length_items_bytes_embed. lia.
  - destruct fs as [|f fs]; [cbn in Hi; lia|].
    cbn [firstn skipn app length] in *. unfold fields_bytes in *. cbn [map concat].
    rewrite !length_app. rewrite IH by lia. lia.
Qed.

(** C3: an embedded packet footer.  Take a well-framed packet that decodes
    to [pkt] with the warnings [ws], and embed the eight bytes
    [00 00 00 00 AA BB CC DD] at a param boundary of one of its fields.  If
    the sizes still fit their size words, the packet is eight bytes longer
    and decodes to the same [pkt], with exactly one more [DecodeWarning]. *)
Theorem embedded_footer_tolerated (p : wire_packet) (i j fuel : nat)
    (pkt : PacketData value datetime) (ws : list (exception value)) :
  (i < length (wp_fields p))%nat ->
  wire_packet_ok p = true ->
  wire_packet_ok (embed_footer i j p) = true ->
  (length (wire_packet_bytes (embed_footer i j p)) <= fuel)%nat ->
  decode_packet decode_value unix_to_datetime fuel (wire_packet_bytes p) = (Ok pkt, ws) ->
  decode_packet decode_value unix_to_datetime fuel
    (wire_packet_bytes (embed_footer i j p))
  = (Ok pkt, ws ++ [footer_warning]) /\
  length (wire_packet_bytes (embed_footer i j p))
  = (length (wire_packet_bytes p) + 8)%nat /\
  exc_class (@footer_warning value) = DecodeWarning.
Proof.
  intros Hi Hok Hok' Hfuel Hdec.
  assert (Hlen : length (wire_packet_bytes (embed_footer i j p))
                 = (length (wire_packet_bytes p) + 8)%nat).
  { unfold wire_packet_bytes, embed_footer.
    cbn [wp_type wp_id wp_format wp_time wp_nanotime wp_info wp_fields wp_checksum].
    unfold packet_header. rewrite !length_app, !length_le_digits.
    rewrite length_fields_bytes_embed by exact Hi. lia. }
  split; [|split; [exact Hlen|reflexivity]].
  rewrite decode_packet_wire in Hdec by (assumption || lia).
  rewrite decode_packet_wire by assumption.
  unfold packet_meaning in *.
  cbn [embed_footer wp_type wp_id wp_format wp_time wp_nanotime wp_info wp_fields].
  destruct (fields_meaning decode_value (wp_fields p) [] []) as [[fields|e|] ws1] eqn:E;
    try discriminate.
  rewrite (fields_meaning_embed i j _ _ _ _ _ Hi E).
  injection Hdec as <- <-. reflexivity.
Qed.

(** The header bytes that [decode_packet_cps] looks at do not include the
    format tag. *)
Lemma decode_packet_format_tag (buf tag : bytes) (fuel : nat) :
  length tag = 4%nat -> (20 <= length buf)%nat ->
  decode_packet decode_value unix_to_datetime fuel (set_slice buf 16 20 tag)
  = decode_packet decode_value unix_to_datetime fuel buf.
Proof.
  intros Htag Hbuf.
  remember (firstn 16 buf) as a eqn:Ea.
  remember (firstn 4 (skipn 16 buf)) as old eqn:Eold.
  remember (skipn 4 (skipn 16 buf)) as b eqn:Eb.
  assert (Ha : length a = 16%nat) by (subst a; rewrite length_firstn; lia).
  assert (Hold : length old = 4%nat)
    by (subst old; rewrite length_firstn, length_skipn; lia).
  assert (Hsplit : buf = a ++ old ++ b) by (subst; now rewrite !firstn_skipn).
  clear Ea Eold Eb. subst buf.
  rewrite set_slice_app by (rewrite ?Ha, ?Hold; reflexivity).
  unfold decode_packet.
  assert (Hlen : length (a ++ tag ++ b) = length (a ++ old ++ b))
    by (rewrite !length_app, Htag, Hold; reflexivity).
  rewrite Hlen.
  assert (Hbody : forall x : bytes, length x = 4%nat ->
            slice (a ++ x ++ b) 32 (Z.of_nat (length (a ++ old ++ b)))
            = slice b 12 (Z.of_nat (length b))).
  { intros x Hx. rewrite !slice_nonneg by lia.
    rewrite !length_app, Ha, Hold.
    replace (a ++ x ++ b) with ((a ++ x) ++ b) by (now rewrite <- app_assoc).
    rewrite skipn_app, skipn_all2 by (rewrite length_app, Ha, Hx; simpl; lia).
    rewrite length_app, Ha, Hx. cbn [app].
    replace (Z.to_nat 32 - (16 + 4))%nat with (Z.to_nat 12) by lia.
    f_equal. lia. }
  rewrite (Hbody tag Htag), (Hbody old Hold).
  assert (Hhead : forall x : bytes, length x = 4%nat ->
            slice (a ++ x ++ b) 0 32 = a ++ x ++ firstn 12 b).
  { intros x Hx. rewrite slice_nonneg by lia. cbn [Z.to_nat skipn].
    replace (Pos.to_nat 32 - 0)%nat with (16 + (4 + 12))%nat by lia.
    rewrite firstn_app_len by exact Ha. f_equal.
    rewrite firstn_app_len by exact Hx. reflexivity. }
  rewrite (Hhead tag Htag), (Hhead old Hold).
  destruct (Nat.eq_dec (length (firstn 12 b)) 12) as [H12|H12].
  - unfold decode_packet_cps, unpack.
    rewrite !length_app, Ha, Htag, Hold, H12. cbn [Nat.add Nat.eqb or_raise bind].
    do 17 (destruct a as [|? a]; try discriminate).
    do 5 (destruct tag as [|? tag]; try discriminate).
    do 5 (destruct old as [|? old]; try discriminate).
    reflexivity.
  - unfold decode_packet_cps, unpack.
    rewrite !length_app, Ha, Htag, Hold.
    assert (Hne : Nat.eqb (16 + (4 + length (firstn 12 b))) 32 = false)
      by (apply Nat.eqb_neq; lia).
    rewrite Hne. reflexivity.
Qed.

(** The two packets of the counterexample to C10 end as they do whatever the
    value codec is: the decoder does not get to call it. *)
Lemma straddling_any_codec (fuel : nat) :
  (2 <= fuel)%nat ->
  decode_packet decode_value unix_to_datetime fuel
    (Sample.straddling_packet [x00; x00; x00; x00]) = (Raise arity_error, []) /\
  decode_packet decode_value unix_to_datetime fuel
    (Sample.straddling_packet [x04; x00; x00; x00]) = (Raise struct_error, []).
Proof.
  intros H. destruct fuel as [|[|fuel]]; try lia. split; reflexivity.
Qed.

(** C10, as the code has it.  The format tag is never looked at: for every
    byte string of at least 20 bytes, other bytes at offsets 16 to 19 leave
    the outcome of [decode_packet] as it is.  The checksum is not looked at
    when the packet is well framed: for every well-framed packet, another
    checksum and another format tag leave the outcome as it is, a packet
    with its warnings or an error. *)
Theorem checksum_and_format_ignored (p : wire_packet) (checksum format : bytes)
    (buf tag : bytes) (fuel : nat) :
  wire_packet_ok p = true ->
  length checksum = 4%nat -> length format = 4%nat ->
  (length (wire_packet_bytes p) <= fuel)%nat ->
  length tag = 4%nat -> (20 <= length buf)%nat ->
  decode_packet decode_value unix_to_datetime fuel
    (wire_packet_bytes (with_checksum_and_format checksum format p))
  = decode_packet decode_value unix_to_datetime fuel (wire_packet_bytes p) /\
  decode_packet decode_value unix_to_datetime fuel (set_slice buf 16 20 tag)
  = decode_packet decode_value unix_to_datetime fuel buf.
Proof.
  intros Hok Hc Hf Hfuel Htag Hbuf. split.
  - assert (Hok' : wire_packet_ok (with_checksum_and_format checksum format p) = true).
    { unfold wire_packet_ok in *.
      cbn [with_checksum_and_format wp_type wp_id wp_format wp_time wp_nanotime
             wp_info wp_fields wp_checksum].
      repeat (apply andb_true_iff in Hok as [Hok ?]).
      apply Nat.eqb_eq in Hc, Hf. rewrite Hc, Hf.
      repeat (apply andb_true_iff; split); assumption || reflexivity. }
    assert (Hlen : length (wire_packet_bytes (with_checksum_and_format checksum format p))
                   = length (wire_packet_bytes p)).
    { unfold wire_packet_ok in Hok.
      repeat (apply andb_true_iff in Hok as [Hok ?]).
      repeat match goal with H : Nat.eqb _ _ = true |- _ => apply Nat.eqb_eq in H end.
      unfold wire_packet_bytes, packet_header.
      cbn [with_checksum_and_format wp_type wp_id wp_format wp_time wp_nanotime
             wp_info wp_fields wp_checksum].
      rewrite !length_app. lia. }
    rewrite !decode_packet_wire by (assumption || lia).
    reflexivity.
  - now apply decode_packet_format_tag.
Qed.

(** C4: the magic number.  On a 32-byte header whose first four bytes are
    [DD CC BB AA], [decode_packet_cps] returns [total_size_words * 4 - 32]
    as the number of body bytes, with the finisher.  On any other 32-byte
    header it raises, but what it raises is the [TypeError] of the call
    [DecodeError(message)], not a [DecodeError]: [DecodeError] inherits the
    five-argument constructor of [CommandMixin]. *)
Theorem decode_packet_cps_magic (header_buf : bytes) :
  length header_buf = 32%nat ->
  decode_packet_cps decode_value unix_to_datetime header_buf
  = (if bytes_eqb (sub header_buf 0 4) PACKET_HEADER_MAGIC then
       Ok (from_bytes (sub header_buf 8 4) * 4 - 32,
           decode_packet_body decode_value
             (decode_identifier (sub header_buf 4 4))
             (from_bytes (sub header_buf 12 4))
             (unix_to_datetime (from_bytes (sub header_buf 20 4))
                (from_bytes (sub header_buf 24 4)))
             (sub header_buf 28 4)
             (from_bytes (sub header_buf 8 4) * 4 - 32))
     else Raise arity_error) /\
  exc_class (@arity_error value) = TypeError /\
  exc_class (@arity_error value) <> DecodeError.
Proof.
  intros Hlen. unfold decode_packet_cps, unpack.
  apply Nat.eqb_eq in Hlen. rewrite Hlen. cbn [or_raise bind].
  split; [|split; [reflexivity|discriminate]].
  destruct (bytes_eqb (sub header_buf 0 4) PACKET_HEADER_MAGIC); reflexivity.
Qed.

End Packets.

End PacketTheorems.

(** ** The packet codec on concrete packets *)

Module PacketExamples.

Import PacketTheorems.

(** Scenario 1 of the spec: the empty packet is 40 bytes long and declares
    10 words. *)
Example empty_packet_bytes :
  exists buf, Sample.encode "TEST" 1 (0, 0) Sample.info0 [] = Ok buf /\
              length buf = 40%nat /\ from_bytes (slice buf 8 12) = 10 /\
              Sample.decode 40 buf = (Ok Sample.empty_packet, []).
Proof. eexists. repeat split; vm_compute; reflexivity. Qed.

Lemma echo_packet_legal :
  legal_packet Sample.encode_value Sample.decode_value Sample.datetime_to_unix
    Sample.unix_to_datetime Sample.echo_packet.
Proof.
  unfold legal_packet, Sample.echo_packet.
  cbn [packet_type packet_id packet_timestamp packet_info packet_fields].
  repeat split; try (cbn; lia); try reflexivity.
  repeat constructor; try (cbn; lia); try (vm_compute; reflexivity);
    try (vm_compute; intros; discriminate).
Defined.

Lemma echo_packet_canonical : canonical_packet Sample.echo_packet.
Proof.
  repeat constructor; try reflexivity;
    cbn; intuition discriminate.
Defined.



Lemma encode_packet_sizes_witness :
  Sample.encode "TEST" 1 (0, 0) Sample.info0 (packet_fields Sample.echo_packet)
  = Ok (wire_packet_bytes Sample.echo_wire) /\
  from_bytes (slice (wire_packet_bytes Sample.echo_wire) 8 12) * 4
  = Z.of_nat (length (wire_packet_bytes Sample.echo_wire)).
Proof.
  assert (H : Sample.encode "TEST" 1 (0, 0) Sample.info0
                (packet_fields Sample.echo_packet)
              = Ok (wire_packet_bytes Sample.echo_wire)) by (vm_compute; reflexivity).
  split; [exact H|].
  exact (proj1 (SizeFacts.encode_packet_sizes Sample.encode_value
                  Sample.datetime_to_unix _ _ _ _ _ _ H)).
Defined.

Lemma embedded_footer_tolerated_witness :
  wire_packet_ok Sample.echo_wire = true /\
  Sample.decode 100 (wire_packet_bytes Sample.echo_wire) = (Ok Sample.echo_packet, []) /\
  Sample.decode 100 (wire_packet_bytes Sample.echo_wire_garbled)
  = (Ok Sample.echo_packet, [footer_warning]).
Proof.
  assert (H : Sample.decode 100 (wire_packet_bytes Sample.echo_wire)
              = (Ok Sample.echo_packet, [])) by (vm_compute; reflexivity).
  split; [vm_compute; reflexivity|]. split; [exact H|].
  refine (proj1 (embedded_footer_tolerated Sample.decode_value Sample.unix_to_datetime
                   Sample.echo_wire 0 1 100 Sample.echo_packet [] _ _ _ _ H)).
  - cbn. lia.
  - vm_compute. reflexivity.
  - vm_compute. reflexivity.
  - vm_compute. lia.
Defined.

Lemma checksum_and_format_ignored_witness :
  Sample.decode 100
    (wire_packet_bytes
       (with_checksum_and_format [x12; x34; x56; x78] [x02; x00; x00; x00]
          Sample.echo_wire))
  = Sample.decode 100 (wire_packet_bytes Sample.echo_wire) /\
  Sample.decode 100
    (set_slice (Sample.straddling_packet [x00; x00; x00; x00]) 16 20
       [x02; x00; x00; x00])
  = Sample.decode 100 (Sample.straddling_packet [x00; x00; x00; x00]).
Proof.
  apply (checksum_and_format_ignored Sample.decode_value Sample.unix_to_datetime).
  - vm_compute. reflexivity.
  - reflexivity.
  - reflexivity.
  - vm_compute. lia.
  - reflexivity.
  - vm_compute. lia.
Defined.

(** C10, as stated, fails.  The two packets differ in their four checksum
    bytes only.  The field region of each is four bytes long, so the field
    header that starts in it takes its size from the checksum: with the
    checksum [00 00 00 00] the field has no params and the decoder ends on
    its field overflow check, with [04 00 00 00] the decoder goes on to read
    a param header behind the end of the buffer. *)
Lemma checksum_is_read_counterexample :
  Sample.straddling_packet [x04; x00; x00; x00]
  = set_slice (Sample.straddling_packet [x00; x00; x00; x00]) 36 40
      [x04; x00; x00; x00] /\
  Sample.decode 100 (Sample.straddling_packet [x00; x00; x00; x00])
  = (Raise arity_error, []) /\
  Sample.decode 100 (Sample.straddling_packet [x04; x00; x00; x00])
  = (Raise struct_error, []) /\
  Sample.decode 100 (Sample.straddling_packet [x00; x00; x00; x00])
  <> Sample.decode 100 (Sample.straddling_packet [x04; x00; x00; x00]).
Proof.
  repeat split; try (vm_compute; reflexivity).
  vm_compute. discriminate.
Qed.

Lemma decode_packet_cps_magic_witness :
  length Sample.bad_magic_header = 32%nat /\
  decode_packet_cps Sample.decode_value Sample.unix_to_datetime Sample.bad_magic_header
  = Raise arity_error /\
  fst (match decode_packet_cps Sample.decode_value Sample.unix_to_datetime
               Sample.good_magic_header with
       | Ok r => r
       | _ => (0, fun _ _ => (OutOfFuel, []))
       end) = 8.
Proof.
  split; [reflexivity|]. split.
  - rewrite (proj1 (decode_packet_cps_magic Sample.decode_value
                      Sample.unix_to_datetime Sample.bad_magic_header eq_refl)).
    reflexivity.
  - rewrite (proj1 (decode_packet_cps_magic Sample.decode_value
                      Sample.unix_to_datetime Sample.good_magic_header eq_refl)).
    reflexivity.
Defined.

(** Why the loops of the decoder take fuel: on a param that declares a size
    of zero words the inner loop of [decode_fields] does not advance, and
    the decoder returns with no amount of fuel. *)
Lemma spin_params (fuel : nat) :
  forall params,
    decode_params Sample.decode_value fuel Sample.spin_body 12 20 params []
    = (OutOfFuel, []).
Proof.
  induction fuel as [|fuel IH]; intros params; [reflexivity|].
  change (decode_params Sample.decode_value (S fuel) Sample.spin_body 12 20 params [])
    with (decode_params Sample.decode_value fuel Sample.spin_body 12 20
            (od_set "P" (Sample.Str "") params) []).
  apply IH.
Qed.

Lemma zero_size_param_spins (fuel : nat) :
  Sample.decode fuel Sample.spin_packet = (OutOfFuel, []).
Proof.
  destruct fuel as [|fuel]; [reflexivity|].
  unfold Sample.decode, decode_packet.
  replace (decode_packet_cps Sample.decode_value Sample.unix_to_datetime
             (slice Sample.spin_packet 0 32))
    with (@Ok Sample.value _
            (28, decode_packet_body Sample.decode_value "TEST"%string 1 (0, 0)
                   Sample.info0 28))
    by reflexivity.
  unfold decode_packet_body.
  replace (slice Sample.spin_packet 32 (Z.of_nat (length Sample.spin_packet)))
    with Sample.spin_body by reflexivity.
  change (Z.of_nat (length Sample.spin_body) >? 28) with false. cbv iota.
  unfold decode_fields.
  change (28 - 8) with 20.
  cbn [decode_fields_loop].
  change (0 <? 20) with true. cbv iota.
  change (unpack_from 12 Sample.spin_body 0) with (Some (firstn 12 Sample.spin_body)).
  cbv iota zeta.
  change (0 + from_bytes (sub (firstn 12 Sample.spin_body) 4 3) * 4) with 20.
  change (0 + 12) with 12.
  rewrite spin_params. reflexivity.
Qed.

End PacketExamples.

(** ** The client connection *)

Module ClientTheorems.

Section Client.

Context {value datetime : Type}.

Local Abbreviation Client := (Client value datetime).
Local Abbreviation Packet := (PacketData value datetime).
Local Abbreviation Field := (FieldData value).

Open Scope string_scope.
Open Scope list_scope.

(** *** Sending: the ids *)

Lemma send_fields_spec (fields : odict (odict value)) :
  forall self : Client,
    let '(self', fs) := send_fields self fields in
    _id_gen self' = _id_gen self + Z.of_nat (length fields) /\
    _writer self' = _writer self /\
    map field_id fs
    = map (fun k => _id_gen self + Z.of_nat k) (seq 1 (length fields)) /\
    map (fun f => (field_name f, field_params f)) fs = fields.
Proof.
  induction fields as [|[name params] rest IH]; intros self.
  - cbn. repeat split. lia.
  - cbn [send_fields]. unfold _gen_id.
    specialize (IH (set_id_gen self (_id_gen self + 1))).
    destruct (send_fields (set_id_gen self (_id_gen self + 1)) rest) as [self' fs].
    destruct IH as [Hg [Hw [Hids Hfs]]].
    cbn [set_id_gen _id_gen _writer] in *.
    repeat split.
    + rewrite Hg. cbn [length]. lia.
    + exact Hw.
    + cbn [map length seq field_id]. f_equal.
      rewrite Hids. rewrite <- (seq_shift (length rest) 1), map_map.
      apply map_ext. intros k. lia.
    + cbn [map field_name field_params]. now rewrite Hfs.
Qed.

Lemma send_spec (self : Client) (packet_type : string) (fields : odict (odict value)) :
  exists fs : list Field,
    _writer (fst (send self packet_type fields))
    = _writer self ++ [(packet_type, _id_gen self + Z.of_nat (length fields) + 1, fs)] /\
    map field_id fs
    = map (fun k => _id_gen self + Z.of_nat k) (seq 1 (length fields)) /\
    _id_gen (fst (send self packet_type fields))
    = _id_gen self + Z.of_nat (length fields) + 1.
Proof.
  unfold send. pose proof (send_fields_spec fields self) as H.
  destruct (send_fields self fields) as [self' fs].
  destruct H as [Hg [Hw [Hids _]]].
  unfold _gen_id. cbn [fst set_writer set_id_gen _writer _id_gen].
  exists fs. rewrite Hg, Hw. repeat split. exact Hids.
Qed.

Lemma StronglySorted_app (l1 l2 : list Z) :
  StronglySorted Z.lt l1 -> StronglySorted Z.lt l2 ->
  (forall a b, In a l1 -> In b l2 -> a < b) ->
  StronglySorted Z.lt (l1 ++ l2).
Proof.
  induction l1 as [|x l1 IH]; intros H1 H2 H; cbn; [exact H2|].
  inversion H1 as [|? ? Hs Hf]; subst. constructor.
  - apply IH; [exact Hs|exact H2|]. intros a b Ha Hb. apply H; [now right|exact Hb].
  - apply Forall_app. split; [exact Hf|].
    apply Forall_forall. intros b Hb. apply H; [now left|exact Hb].
Qed.

Lemma StronglySorted_offsets (g : Z) (start len : nat) :
  StronglySorted Z.lt (map (fun k => g + Z.of_nat k) (seq start len)).
Proof.
  revert start. induction len as [|len IH]; intros start; cbn; constructor.
  - apply IH.
  - apply Forall_forall. intros b Hb. apply in_map_iff in Hb as [k [<- Hk]].
    apply in_seq in Hk. lia.
Qed.

Lemma send_ids_ok (self : Client) (packet_type : string) (fields : odict (odict value)) :
  ids_ok self -> ids_ok (fst (send self packet_type fields)).
Proof.
  intros [Hs Hb].
  destruct (send_spec self packet_type fields) as [fs [Hw [Hids Hg]]].
  unfold ids_ok, ids_handed_out in *. rewrite Hw, Hg.
  rewrite map_app, concat_app. cbn [map concat]. rewrite app_nil_r.
  unfold sent_ids at 2 4. cbn [fst snd]. rewrite Hids.
  set (g := _id_gen self) in *. set (n := length fields) in *.
  assert (Hnew : forall b,
             In b (map (fun k => g + Z.of_nat k) (seq 1 n) ++ [g + Z.of_nat n + 1]) ->
             g < b <= g + Z.of_nat n + 1).
  { intros b Hin. apply in_app_or in Hin as [Hin|[<-|[]]]; [|lia].
    apply in_map_iff in Hin as [k [<- Hk]]. apply in_seq in Hk. lia. }
  split.
  - apply StronglySorted_app; [exact Hs| |].
    + apply StronglySorted_app;
        [apply StronglySorted_offsets|repeat constructor|].
      intros a b Ha [<-|[]]. apply in_map_iff in Ha as [k [<- Hk]].
      apply in_seq in Hk. lia.
    + intros a b Ha Hin.
      pose proof (proj1 (Forall_forall _ _) Hb a Ha) as Hle. cbv beta in Hle.
      apply Hnew in Hin. lia.
  - apply Forall_app. split.
    + eapply Forall_impl; [|exact Hb]. cbv beta. intros a Ha. lia.
    + apply Forall_forall. intros b Hb'. apply Hnew in Hb'. lia.
Qed.

(** Only [send] moves the counter: what leaves the counter and the written
    packets alone keeps the ids as they are. *)
Lemma ids_ok_frame (self self' : Client) :
  _writer self' = _writer self -> _id_gen self' = _id_gen self ->
  ids_ok self -> ids_ok self'.
Proof.
  unfold ids_ok, ids_handed_out. intros -> ->. exact (fun H => H).
Qed.

(** C8: the ids.  If the ids handed out so far are strictly increasing and
    none is above the counter, then after any sequence of [send] calls they
    still are; and one [send] of [n] fields on a counter at [g] hands out
    [g + 1], ..., [g + n] to the fields, in order, and then [g + n + 1] to
    the packet, a draw of its own from the same counter. *)
Theorem send_ids_strictly_increasing (self : Client)
    (calls : list (string * odict (odict value)))
    (packet_type : string) (fields : odict (odict value)) :
  ids_ok self ->
  ids_ok (send_all self calls) /\
  exists fs : list Field,
    _writer (fst (send self packet_type fields))
    = _writer self ++ [(packet_type, _id_gen self + Z.of_nat (length fields) + 1, fs)] /\
    map field_id fs
    = map (fun k => _id_gen self + Z.of_nat k) (seq 1 (length fields)) /\
    _id_gen (fst (send self packet_type fields))
    = _id_gen self + Z.of_nat (length fields) + 1.
Proof.
  intros Hok. split; [|apply send_spec].
  revert self Hok. induction calls as [|[t fs] rest IH]; intros self Hok.
  - exact Hok.
  - cbn [send_all]. apply IH. now apply send_ids_ok.
Qed.

(** *** Receiving: the auto-handlers *)

Lemma recv_field_scan_skip (self : Client) (t name : string) (fid : option Z)
    (pre rest : list Field) (ws : list (exception value)) :
  Forall (fun f => field_matches name fid f = false) pre ->
  recv_field_scan self t name fid (pre ++ rest) ws
  = recv_field_scan self t name fid rest ws.
Proof.
  induction 1 as [|f pre Hf _ IH]; [reflexivity|].
  cbn [app recv_field_scan]. now rewrite Hf.
Qed.

(** C5: auto-erro.  A packet of the awaited type is delivered to a pending
    [recv_field]; [field] is its first field that matches, and its params
    contain [ERRO] or [ERRC].  With [auto_erro], [recv_field] raises a
    [CommandError] whose arguments are the packet type, the name and the id
    of the field, the [ERRO] param and the [ERRC] param ([None] for the one
    that is absent).  Without [auto_erro], and when neither the warn nor the
    ackn handler skips the field, [recv_field] returns the params of the
    field as they are. *)
Theorem recv_field_auto_erro (self : Client) (t name : string) (fid : option Z)
    (packet : Packet) (pre rest : list Field) (field : Field)
    (more : list (result value Packet)) (ws : list (exception value)) :
  packet_type packet = t ->
  packet_fields packet = pre ++ field :: rest ->
  Forall (fun f => field_matches name fid f = false) pre ->
  field_matches name fid field = true ->
  has_param "ERRO" field || has_param "ERRC" field = true ->
  (_auto_erro self = false -> not_skipped self field = true) ->
  exists (st : recv_status) (ws' : list (exception value)),
    recv_field self t name fid (Ok packet :: more) ws = (st, ws') /\
    if _auto_erro self then
      ws' = ws /\
      exists e : exception value,
        st = Raised e /\ exc_class e = CommandError /\
        exc_args e = [PyStr t; PyStr (field_name field); PyInt (field_id field);
                      get_or_None "ERRO" (field_params field);
                      get_or_None "ERRC" (field_params field)]
    else st = Returned (field_params field).
Proof.
  intros Ht Hfs Hpre Hm He Hskip.
  cbn [recv_field]. unfold recv_field_packet.
  rewrite Ht, String.eqb_refl, Hfs, recv_field_scan_skip by exact Hpre.
  cbn [recv_field_scan]. rewrite Hm.
  destruct (_auto_erro self) eqn:Eerro.
  - unfold _handle_erro. unfold has_param in He. rewrite He.
    cbn [raise_ instantiate has_CommandMixin].
    eexists. eexists. split; [reflexivity|]. split; [reflexivity|].
    eexists. repeat split.
  - specialize (Hskip eq_refl). unfold not_skipped in Hskip.
    apply andb_true_iff in Hskip as [Hw Ha].
    destruct (_auto_warn self) eqn:Ewarn.
    + cbn [negb orb] in Hw. apply negb_true_iff in Hw.
      unfold _handle_warn. rewrite Hw.
      destruct (is_not_None (get_or_None "WARN" (field_params field))
                || is_not_None (get_or_None "WARC" (field_params field)));
        cbn [instantiate has_CommandMixin];
        (destruct (_auto_ackn self) eqn:Eackn;
         [cbn [negb orb] in Ha; apply negb_true_iff in Ha;
          unfold _handle_ackn; unfold has_param in Ha; rewrite Ha|];
         cbn [andb]; eexists; eexists; split; reflexivity).
    + destruct (_auto_ackn self) eqn:Eackn;
        [cbn [negb orb] in Ha; apply negb_true_iff in Ha;
         unfold _handle_ackn; unfold has_param in Ha; rewrite Ha|];
        cbn [andb]; eexists; eexists; split; reflexivity.
Qed.

(** C9, as the code has it.  A packet of the awaited type is delivered to
    a pending [recv_field]; [field] is its first field that matches.  The
    field reaches the warn handler (auto-erro is off, or the field has
    neither [ERRO] nor [ERRC]) and the ackn handler does not skip it
    (auto-ackn is off, or the field has no [ACKN]).  With [auto_warn], a
    [CommandWarning] is emitted when the params contain [WARN] or [WARC];
    then the field is skipped exactly when its own name is [WARN]: the scan
    goes on with the fields after it, and [recv_field] stands as it does on
    the packet without the fields up to this one; any other field is
    returned to the caller, after the warning. *)
Theorem auto_warn_semantics (self : Client) (t name : string) (fid : option Z)
    (packet : Packet) (pre rest : list Field) (field : Field)
    (more : list (result value Packet)) (ws : list (exception value)) :
  _auto_warn self = true ->
  packet_type packet = t ->
  packet_fields packet = pre ++ field :: rest ->
  Forall (fun f => field_matches name fid f = false) pre ->
  field_matches name fid field = true ->
  _auto_erro self = false \/
  has_param "ERRO" field || has_param "ERRC" field = false ->
  _auto_ackn self = false \/ has_param "ACKN" field = false ->
  let ws' :=
    if has_param "WARN" field || has_param "WARC" field
    then ws ++ [command_warning t field] else ws in
  _handle_warn t field ws = (Ok (String.eqb (field_name field) "WARN"), ws') /\
  recv_field_scan self t name fid (field :: rest) ws
  = (if String.eqb (field_name field) "WARN"
     then recv_field_scan self t name fid rest ws'
     else (Ok (Some (field_params field)), ws')) /\
  recv_field self t name fid (Ok packet :: more) ws
  = (if String.eqb (field_name field) "WARN"
     then recv_field self t name fid
            (Ok (mkPacketData (packet_type packet) (packet_id packet)
                   (packet_timestamp packet) (packet_info packet) rest) :: more) ws'
     else (Returned (field_params field), ws')).
Proof.
  intros Hwarn Ht Hfs Hpre Hm Herro Hackn ws'.
  assert (Hh : _handle_warn t field ws
               = (Ok (String.eqb (field_name field) "WARN"), ws')).
  { unfold _handle_warn, ws', has_param, command_warning.
    destruct (is_not_None (get_or_None "WARN" (field_params field))
              || is_not_None (get_or_None "WARC" (field_params field)));
      reflexivity. }
  assert (Hscan : recv_field_scan self t name fid (field :: rest) ws
                  = (if String.eqb (field_name field) "WARN"
                     then recv_field_scan self t name fid rest ws'
                     else (Ok (Some (field_params field)), ws'))).
  { cbn [recv_field_scan]. rewrite Hm, Hwarn.
    assert (He : (if _auto_erro self then _handle_erro t field else Ok false)
                 = Ok false).
    { destruct Herro as [->|He]; [reflexivity|].
      destruct (_auto_erro self); [|reflexivity].
      unfold _handle_erro. unfold has_param in He. now rewrite He. }
    rewrite He, Hh.
    destruct (String.eqb (field_name field) "WARN"); [reflexivity|].
    assert (Ha : _auto_ackn self && _handle_ackn t field = false).
    { destruct Hackn as [->|Ha]; [reflexivity|].
      unfold _handle_ackn. unfold has_param in Ha. rewrite Ha. apply andb_false_r. }
    now rewrite Ha. }
  split; [exact Hh|]. split; [exact Hscan|].
  cbn [recv_field]. unfold recv_field_packet.
  cbn [packet_type packet_fields].
  rewrite Ht, String.eqb_refl, Hfs, recv_field_scan_skip by exact Hpre.
  rewrite Hscan.
  destruct (String.eqb (field_name field) "WARN"); reflexivity.
Qed.

End Client.

End ClientTheorems.

(** ** The reader and its waiters *)

Module ReaderTheorems.

Section Reader.

Context {value datetime : Type}.

Local Abbreviation Client := (Client value datetime).
Local Abbreviation Packet := (PacketData value datetime).
Local Abbreviation Field := (FieldData value).
Local Abbreviation future := (future value datetime).

Open Scope string_scope.
Open Scope list_scope.

Lemma run_reader_no_cancel (reads : list (read_event value datetime)) :
  existsb cancelled reads = false ->
  forall (self : Client) (n : nat),
    snd (fst (_run_reader self reads n)) = ReaderWaiting /\
    snd (_run_reader self reads n) = (n + length reads)%nat.
Proof.
  induction reads as [|r reads IH]; intros H self n.
  - cbn. split; [reflexivity|lia].
  - cbn [existsb] in H. apply orb_false_iff in H as [Hr H].
    destruct r as [packet| |ex]; try discriminate; cbn [_run_reader length].
    + destruct (IH H (resolve_active self (Result packet)) (S n)) as [H1 H2].
      split; [exact H1|rewrite H2; lia].
    + destruct (IH H (resolve_active self (Exception ex)) (S n)) as [H1 H2].
      split; [exact H1|rewrite H2; lia].
Qed.

(** C6, as the code has it.  When the packet read raises an error that is
    not a cancellation, the reader sets that exception on every waiter that
    is not done yet, leaves the others as they are, and goes on: it reads
    every further event of the stream, and stays in its loop as long as it
    is not cancelled. *)
Theorem reader_continues_after_error (self : Client) (ex : exception value)
    (rest : list (read_event value datetime)) (n : nat) :
  existsb cancelled rest = false ->
  (forall w, In (w, Pending) (_waiters self) ->
             In (w, Exception ex) (_waiters (resolve_active self (Exception ex)))) /\
  (forall w f, done f = true -> In (w, f) (_waiters self) ->
               In (w, f) (_waiters (resolve_active self (Exception ex)))) /\
  _active_waiters (resolve_active self (Exception ex)) = [] /\
  _run_reader self (ReadError ex :: rest) n
  = _run_reader (resolve_active self (Exception ex)) rest (S n) /\
  snd (fst (_run_reader self (ReadError ex :: rest) n)) = ReaderWaiting /\
  snd (_run_reader self (ReadError ex :: rest) n) = (n + 1 + length rest)%nat.
Proof.
  intros Hrest. repeat split.
  - intros w Hin. unfold resolve_active. cbn [set_waiters _waiters].
    apply in_map_iff. exists (w, Pending). split; [reflexivity|exact Hin].
  - intros w f Hd Hin. unfold resolve_active. cbn [set_waiters _waiters].
    apply in_map_iff. exists (w, f). split; [|exact Hin]. cbn [snd]. now rewrite Hd.
  - unfold _active_waiters, resolve_active. cbn [set_waiters _waiters].
    induction (_waiters self) as [|[w f] l IH]; [reflexivity|].
    cbn [map filter snd fst]. destruct (done f) eqn:Hd; cbn [snd]; [rewrite Hd|];
      cbn [done negb]; exact IH.
  - cbn [_run_reader].
    apply (run_reader_no_cancel rest Hrest (resolve_active self (Exception ex)) (S n)).
  - cbn [_run_reader].
    rewrite (proj2 (run_reader_no_cancel rest Hrest
                      (resolve_active self (Exception ex)) (S n))).
    lia.
Qed.

(** *** Fan-out *)

Lemma recv_field_scan_flags (self self' : Client) (t name : string)
    (fid : option Z) (fields : list Field) :
  same_flags self self' ->
  forall ws, recv_field_scan self t name fid fields ws
             = recv_field_scan self' t name fid fields ws.
Proof.
  intros [He [Hw Ha]]. induction fields as [|f fields IH]; intros ws; [reflexivity|].
  cbn [recv_field_scan]. rewrite He, Hw, Ha.
  destruct (field_matches name fid f); [|apply IH].
  destruct (if _auto_erro self' then _handle_erro t f else Ok false) as [[|]|e|];
    try reflexivity; [apply IH|].
  destruct (if _auto_warn self' then _handle_warn t f ws else (Ok false, ws))
    as [[[|]|e|] ws']; try reflexivity; [apply IH|].
  destruct (_auto_ackn self' && _handle_ackn t f); [apply IH|reflexivity].
Qed.

Lemma recv_field_scan_unfiltered (self : Client) (t name : string)
    (fields : list Field) (ws : list (exception value)) :
  Forall (fun f => field_matches name None f = true -> unfiltered self f = true)
    fields ->
  exists ws' : list (exception value),
    recv_field_scan self t name None fields ws
    = (Ok (option_map field_params (find (field_matches name None) fields)), ws').
Proof.
  induction 1 as [|f fields Hf _ IH]; [exists ws; reflexivity|].
  cbn [recv_field_scan find].
  destruct (field_matches name None f) eqn:Hm; [|exact IH].
  specialize (Hf eq_refl). unfold unfiltered, not_skipped, has_param in Hf.
  apply andb_true_iff in Hf as [Herro Hf]. apply andb_true_iff in Hf as [Hwarn Hackn].
  assert (He : (if _auto_erro self then _handle_erro t f else Ok false) = Ok false).
  { destruct (_auto_erro self); [|reflexivity]. cbn [negb orb] in Herro.
    apply negb_true_iff in Herro. unfold _handle_erro. now rewrite Herro. }
  assert (Hw : exists ws', (if _auto_warn self then _handle_warn t f ws
                            else (Ok false, ws)) = (Ok false, ws')).
  { destruct (_auto_warn self); [|exists ws; reflexivity]. cbn [negb orb] in Hwarn.
    apply negb_true_iff in Hwarn. unfold _handle_warn. rewrite Hwarn.
    destruct (is_not_None (get_or_None "WARN" (field_params f))
              || is_not_None (get_or_None "WARC" (field_params f)));
      cbn [instantiate has_CommandMixin]; eexists; reflexivity. }
  assert (Ha : _auto_ackn self && _handle_ackn t f = false).
  { destruct (_auto_ackn self); [|reflexivity]. cbn [negb orb] in Hackn.
    apply negb_true_iff in Hackn. unfold _handle_ackn. now rewrite Hackn. }
  destruct Hw as [ws' Hw]. rewrite He, Hw, Ha. exists ws'. reflexivity.
Qed.

Lemma lookup_future_filter (w w' : nat) (l : list (nat * future)) :
  w' <> w ->
  lookup_future w' (filter (fun x => negb (Nat.eqb (fst x) w)) l) = lookup_future w' l.
Proof.
  intros Hne. induction l as [|[k f] l IH]; [reflexivity|].
  cbn [filter fst lookup_future].
  destruct (Nat.eqb k w) eqn:E1; cbn [negb].
  - apply Nat.eqb_eq in E1. subst k.
    destruct (Nat.eqb w w') eqn:E2; [apply Nat.eqb_eq in E2; congruence|exact IH].
  - cbn [lookup_future]. destruct (Nat.eqb k w'); [reflexivity|exact IH].
Qed.

Lemma lookup_future_pending (w k : nat) (l : list (nat * future)) :
  lookup_future w (l ++ [(k, Pending)]) = lookup_future w l.
Proof.
  induction l as [|[k' f] l IH]; cbn [app lookup_future].
  - destruct (Nat.eqb k w); reflexivity.
  - destruct (Nat.eqb k' w); [reflexivity|exact IH].
Qed.

Lemma lookup_future_app (w : nat) (l1 l2 : list (nat * future)) :
  Forall (fun x => fst x <> w) l1 ->
  lookup_future w (l1 ++ l2) = lookup_future w l2.
Proof.
  induction 1 as [|[k f] l1 Hk _ IH]; [reflexivity|].
  cbn [app lookup_future]. cbn [fst] in Hk.
  destruct (Nat.eqb k w) eqn:E; [apply Nat.eqb_eq in E; contradiction|exact IH].
Qed.

Lemma lookup_future_tagged (w : nat) (x : future) (ks : list nat) :
  In w ks -> lookup_future w (map (fun k => (k, x)) ks) = x.
Proof.
  induction ks as [|k ks IH]; intros Hin; [contradiction|].
  cbn [map lookup_future]. destruct (Nat.eqb k w) eqn:E; [reflexivity|].
  apply IH. destruct Hin as [->|Hin]; [|exact Hin].
  rewrite Nat.eqb_refl in E. discriminate.
Qed.

Lemma start_callers_spec (t f : string) (n : nat) :
  forall self : Client,
    let '(self', cs) := start_callers self (repeat (t, f, None) n) in
    _waiters self'
    = _waiters self ++ map (fun k => (k, Pending)) (seq (next_future self) n) /\
    cs = map (mkCaller t f None) (seq (next_future self) n) /\
    same_flags self self'.
Proof.
  induction n as [|n IH]; intros self.
  - cbn. rewrite app_nil_r. repeat split.
  - cbn [repeat start_callers]. unfold _wait_for_packet.
    set (self1 := mkClient _ _ _ _ _ _ _).
    specialize (IH self1).
    destruct (start_callers self1 (repeat (t, f, None) n)) as [self' cs].
    destruct IH as [Hw [Hcs [He [Hwa Ha]]]].
    subst self1. cbn [_waiters next_future _auto_erro _auto_warn _auto_ackn] in *.
    repeat split; try assumption.
    + rewrite Hw, <- app_assoc. reflexivity.
    + rewrite Hcs. reflexivity.
Qed.

Lemma resume_all_spec (self0 : Client) (t f : string) (packet : Packet)
    (cs : list caller) :
  packet_type packet = t ->
  Forall (fun fld => field_matches f None fld = true -> unfiltered self0 fld = true)
    (packet_fields packet) ->
  NoDup (map caller_waiter cs) ->
  forall self : Client,
    same_flags self0 self ->
    Forall (fun c => caller_packet_type c = t /\ caller_field_name c = f /\
                     caller_field_id c = None /\
                     lookup_future (caller_waiter c) (_waiters self) = Result packet)
      cs ->
    map snd (snd (resume_all self cs)) = repeat (first_match f packet) (length cs).
Proof.
  intros Ht Hunf. induction cs as [|c cs IH]; intros Hnd self Hflags Hcs.
  - reflexivity.
  - cbn [map] in Hnd. apply NoDup_cons_iff in Hnd as [Hnotin Hnd'].
    apply Forall_cons_iff in Hcs as [[Hct [Hcf [Hci Hlook]]] Hcs'].
    cbn [resume_all]. unfold resume, _wait_for_packet_resume.
    rewrite Hlook, Hct, Hcf, Hci.
    set (self1 := set_waiters self _).
    assert (Hflags1 : same_flags self0 self1) by exact Hflags.
    unfold recv_field_packet. rewrite Ht, String.eqb_refl.
    rewrite <- (recv_field_scan_flags self0 self1) by exact Hflags1.
    destruct (recv_field_scan_unfiltered self0 t f (packet_fields packet) [] Hunf)
      as [ws1 Hscan].
    rewrite Hscan.
    assert (Hrest : forall self2 : Client,
               _waiters self2 = _waiters self1
               \/ (exists k, _waiters self2 = _waiters self1 ++ [(k, Pending)]) ->
               Forall (fun c' => caller_packet_type c' = t /\
                                 caller_field_name c' = f /\
                                 caller_field_id c' = None /\
                                 lookup_future (caller_waiter c') (_waiters self2)
                                 = Result packet) cs).
    { intros self2 Hw. apply Forall_forall. intros c' Hin.
      pose proof (proj1 (Forall_forall _ _) Hcs' c' Hin) as [H1 [H2 [H3 H4]]].
      repeat split; try assumption.
      assert (Hne : caller_waiter c' <> caller_waiter c).
      { intros Heq. apply Hnotin. rewrite <- Heq. now apply in_map. }
      destruct Hw as [->|[k ->]]; [|rewrite lookup_future_pending];
        subst self1; cbn [set_waiters _waiters];
        rewrite lookup_future_filter by exact Hne; exact H4. }
    destruct (find (field_matches f None) (packet_fields packet)) as [fld|] eqn:Ef;
      cbn [option_map].
    + assert (Hst : first_match f packet = Returned (field_params fld))
        by (unfold first_match; now rewrite Ef).
      specialize (IH Hnd' self1 Hflags1 (Hrest self1 (or_introl eq_refl))).
      destruct (resume_all self1 cs) as [self3 out].
      cbn [snd map length repeat] in *. now rewrite IH, Hst.
    + assert (Hst : first_match f packet = Waiting)
        by (unfold first_match; now rewrite Ef).
      unfold _wait_for_packet.
      set (self2 := mkClient _ _ _ _ _ _ _).
      assert (Hflags2 : same_flags self0 self2) by exact Hflags.
      specialize (IH Hnd' self2 Hflags2
                    (Hrest self2 (or_intror (ex_intro _ (next_future self1) eq_refl)))).
      destruct (resume_all self2 cs) as [self3 out].
      cbn [snd map length repeat] in *. now rewrite IH, Hst.
Qed.

(** The operations of the model keep the futures of the set apart from
    the futures to come. *)
Lemma waiters_fresh_new (auto_erro auto_warn auto_ackn : bool) :
  waiters_fresh (new_client auto_erro auto_warn auto_ackn : Client).
Proof. constructor. Qed.

Lemma waiters_fresh_wait (self : Client) :
  waiters_fresh self -> waiters_fresh (fst (_wait_for_packet self)).
Proof.
  unfold waiters_fresh, _wait_for_packet. cbn [fst _waiters next_future].
  intros H. apply Forall_app. split.
  - eapply Forall_impl; [|exact H]. cbv beta. intros w Hw. lia.
  - repeat constructor.
Qed.

Lemma waiters_fresh_resolve (self : Client) (outcome : future) :
  waiters_fresh self -> waiters_fresh (resolve_active self outcome).
Proof.
  unfold waiters_fresh, resolve_active. cbn [set_waiters _waiters next_future].
  intros H. apply Forall_map. eapply Forall_impl; [|exact H]. cbv beta.
  intros w Hw. destruct (done (snd w)); exact Hw.
Qed.

Lemma length_filter_repeat {A : Type} (p : A -> bool) (x : A) (n : nat) :
  length (filter p (repeat x n)) = if p x then n else 0%nat.
Proof.
  induction n as [|n IH]; cbn [repeat filter].
  - now destruct (p x).
  - destruct (p x); cbn [length]; [now rewrite IH|exact IH].
Qed.

(** C7, as the code has it.  [n] callers are suspended in
    [recv_field(t, f)] and one packet of type [t] arrives, none of whose
    fields named [f] an auto-handler filters.  The reader gives the packet
    to every caller, and every caller finds the same first field named [f]:
    when the packet has such a field, all [n] callers return, each with the
    params of that field; when it has none, all [n] go on waiting. *)
Theorem fan_out_broadcast (self : Client) (n : nat) (t f : string) (packet : Packet) :
  waiters_fresh self ->
  packet_type packet = t ->
  Forall (fun fld => field_matches f None fld = true -> unfiltered self fld = true)
    (packet_fields packet) ->
  fan_out self n t f packet = repeat (first_match f packet) n /\
  length (filter returned (fan_out self n t f packet))
  = match find (field_matches f None) (packet_fields packet) with
    | Some _ => n
    | None => 0%nat
    end.
Proof.
  intros Hfresh Ht Hunf.
  assert (Hout : fan_out self n t f packet = repeat (first_match f packet) n).
  { unfold fan_out.
    pose proof (start_callers_spec t f n self) as Hs.
    destruct (start_callers self (repeat (t, f, None) n)) as [self1 cs].
    destruct Hs as [Hw [Hcs Hflags]].
    cbn [_run_reader].
    pose proof (resume_all_spec self t f packet cs Ht Hunf) as Hr.
    destruct (resume_all (resolve_active self1 (Result packet)) cs) as [self3 out] eqn:E.
    assert (Hlen : length cs = n) by (rewrite Hcs, length_map, length_seq; reflexivity).
    rewrite <- Hlen.
    replace out with (snd (resume_all (resolve_active self1 (Result packet)) cs))
      by (rewrite E; reflexivity).
    apply Hr.
    - rewrite Hcs, map_map. cbn [caller_waiter]. rewrite map_id. apply seq_NoDup.
    - exact Hflags.
    - rewrite Hcs. apply Forall_forall. intros c Hin.
      apply in_map_iff in Hin as [k [<- Hk]].
      cbn [caller_packet_type caller_field_name caller_field_id caller_waiter].
      repeat split.
      unfold resolve_active. cbn [set_waiters _waiters]. rewrite Hw, map_app.
      rewrite lookup_future_app.
      + rewrite map_map. cbn [snd fst done].
        now apply lookup_future_tagged.
      + apply Forall_forall. intros x Hx. apply in_map_iff in Hx as [[k' f'] [<- Hx]].
        pose proof (proj1 (Forall_forall _ _) Hfresh _ Hx) as Hlt. cbn [fst] in Hlt.
        apply in_seq in Hk.
        destruct (done (snd (k', f'))); cbn [fst]; lia. }
  split; [exact Hout|].
  rewrite Hout, length_filter_repeat. unfold first_match.
  destruct (find (field_matches f None) (packet_fields packet)); reflexivity.
Qed.

End Reader.

End ReaderTheorems.

(** ** The client connection on concrete runs *)

Module ClientExamples.

Import ClientTheorems ReaderTheorems.

Open Scope string_scope.
Open Scope list_scope.

Lemma recv_field_auto_erro_witness :
  recv_field (Sample.client0 true) "X" "CMD1" None [Ok Sample.erro_packet] []
  = (Raised (command_error "X" Sample.erro_field), []) /\
  recv_field (Sample.client0 false) "X" "CMD1" None [Ok Sample.erro_packet] []
  = (Returned (field_params Sample.erro_field), []).
Proof.
  split.
  - destruct (recv_field_auto_erro (Sample.client0 true) "X" "CMD1" None Sample.erro_packet
                [] [] Sample.erro_field [] [] eq_refl eq_refl (Forall_nil _)
                eq_refl eq_refl (fun _ => eq_refl)) as [st [ws' [H _]]].
    rewrite H. vm_compute in H. exact (eq_sym H).
  - destruct (recv_field_auto_erro (Sample.client0 false) "X" "CMD1" None Sample.erro_packet
                [] [] Sample.erro_field [] [] eq_refl eq_refl (Forall_nil _)
                eq_refl eq_refl (fun _ => eq_refl)) as [st [ws' [H _]]].
    rewrite H. vm_compute in H. exact (eq_sym H).
Defined.

Lemma send_ids_strictly_increasing_witness :
  ids_ok (Sample.client0 true) /\
  ids_handed_out
    (send_all (Sample.client0 true)
       [("A", [("F1", []); ("F2", [])]); ("B", []);
        ("C", [("G", [("K", Sample.U32 1)])])])
  = [1; 2; 3; 4; 5; 6] /\
  ids_ok
    (send_all (Sample.client0 true)
       [("A", [("F1", []); ("F2", [])]); ("B", []);
        ("C", [("G", [("K", Sample.U32 1)])])]).
Proof.
  assert (H0 : ids_ok (Sample.client0 true)) by (split; constructor).
  split; [exact H0|]. split; [reflexivity|].
  exact (proj1 (send_ids_strictly_increasing (Sample.client0 true)
                  [("A", [("F1", []); ("F2", [])]); ("B", []);
                   ("C", [("G", [("K", Sample.U32 1)])])]
                  "A" [] H0)).
Defined.

(** C5 as it is written fails with [auto_erro] off: the field has [ERRO]
    and [ERRC], and [ACKN] as well; the ackn handler skips it, and the
    caller goes on waiting where the claim has the params returned. *)
Lemma recv_field_auto_erro_counterexample :
  _auto_erro (Sample.client0 false) = false /\
  field_matches "CMD1" None Sample.erro_ackn_field = true /\
  has_param "ERRO" Sample.erro_ackn_field && has_param "ERRC" Sample.erro_ackn_field
  = true /\
  recv_field (Sample.client0 false) "X" "CMD1" None
    [Ok (Sample.packet_of Sample.erro_ackn_field)] []
  = (Waiting, []) /\
  fst (recv_field (Sample.client0 false) "X" "CMD1" None
         [Ok (Sample.packet_of Sample.erro_ackn_field)] [])
  <> Returned (field_params Sample.erro_ackn_field).
Proof. repeat split. vm_compute. discriminate. Qed.

Lemma auto_warn_semantics_witness :
  recv_field (Sample.client0 true) "X" "CMD1" None
    [Ok (Sample.packet_of Sample.warned_field)] []
  = (Returned (field_params Sample.warned_field),
     [command_warning "X" Sample.warned_field]) /\
  recv_field_scan (Sample.client0 true) "X" "WARN" None [Sample.warn_field] []
  = (Ok None, [command_warning "X" Sample.warn_field]).
Proof.
  split.
  - exact (proj2 (proj2 (auto_warn_semantics (Sample.client0 true) "X" "CMD1" None
                           (Sample.packet_of Sample.warned_field) [] []
                           Sample.warned_field [] [] eq_refl eq_refl eq_refl
                           (Forall_nil _) eq_refl
                           (or_intror eq_refl) (or_intror eq_refl)))).
  - exact (proj1 (proj2 (auto_warn_semantics (Sample.client0 true) "X" "WARN" None
                           (Sample.packet_of Sample.warn_field) [] []
                           Sample.warn_field [] [] eq_refl eq_refl eq_refl
                           (Forall_nil _) eq_refl
                           (or_intror eq_refl) (or_intror eq_refl)))).
Defined.

(** C9 as it is written fails under the default flags.  A field [CMD1] with
    [WARN] and [ACKN]: the warning is emitted and the field is skipped,
    though its name is not [WARN].  A field [CMD1] with [WARN] and [ERRC]:
    the erro handler raises first, and no warning is emitted. *)
Lemma auto_warn_semantics_counterexample :
  _auto_warn (Sample.client0 true) = true /\
  String.eqb (field_name Sample.warn_ackn_field) "WARN" = false /\
  recv_field (Sample.client0 true) "X" "CMD1" None
    [Ok (Sample.packet_of Sample.warn_ackn_field)] []
  = (Waiting, [command_warning "X" Sample.warn_ackn_field]) /\
  fst (recv_field (Sample.client0 true) "X" "CMD1" None
         [Ok (Sample.packet_of Sample.warn_ackn_field)] [])
  <> Returned (field_params Sample.warn_ackn_field) /\
  recv_field (Sample.client0 true) "X" "CMD1" None
    [Ok (Sample.packet_of Sample.warn_errc_field)] []
  = (Raised (command_error "X" Sample.warn_errc_field), []).
Proof.
  repeat split; try (vm_compute; discriminate).
Qed.

Lemma reader_continues_after_error_witness :
  _run_reader Sample.client1 [ReadError Sample.read_error; ReadPacket Sample.reply_packet] 0
  = _run_reader (resolve_active Sample.client1 (Exception Sample.read_error))
      [ReadPacket Sample.reply_packet] 1 /\
  snd (_run_reader Sample.client1
         [ReadError Sample.read_error; ReadPacket Sample.reply_packet] 0) = 2%nat.
Proof.
  destruct (reader_continues_after_error Sample.client1 Sample.read_error
              [ReadPacket Sample.reply_packet] 0 eq_refl)
    as [_ [_ [_ [H1 [_ H2]]]]].
  split; [exact H1|exact H2].
Defined.

(** C6, as stated, fails.  One caller waits; the first read raises an error
    that is not a cancellation, the second read would give a packet.  The
    waiter gets the exception, but the reader does not exit: it makes the
    second read as well and stays in its loop. *)
Lemma reader_reads_after_error_counterexample :
  _run_reader Sample.client1 [ReadError Sample.read_error; ReadPacket Sample.reply_packet] 0
  = (resolve_active Sample.client1 (Exception Sample.read_error), ReaderWaiting, 2%nat) /\
  _waiters (resolve_active Sample.client1 (Exception Sample.read_error))
  = [(0%nat, Exception Sample.read_error)].
Proof. split; reflexivity. Qed.

Lemma fan_out_broadcast_witness :
  fan_out (Sample.client0 true) 3 "X" "CMD1" Sample.reply_packet
  = repeat (Returned (field_params (mkFieldData "CMD1" 7 [("RSLT", Sample.Str "ok")]))) 3 /\
  fan_out (Sample.client0 true) 3 "X" "NOPE" Sample.reply_packet = repeat Waiting 3.
Proof.
  split.
  - refine (proj1 (fan_out_broadcast (Sample.client0 true) 3 "X" "CMD1" Sample.reply_packet
                     _ eq_refl _)).
    + constructor.
    + repeat constructor.
  - refine (proj1 (fan_out_broadcast (Sample.client0 true) 3 "X" "NOPE" Sample.reply_packet
                     _ eq_refl _)).
    + constructor.
    + repeat constructor.
Defined.

(** C7, as stated, fails.  Two callers wait in [recv_field("X", "CMD1")] and
    one packet of type [X] arrives with one field named [CMD1]: both
    callers return, with the params of that one field, where the claim has
    [min 2 1 = 1] caller return and the other go on waiting. *)
Lemma fan_out_counterexample :
  length (filter (field_matches "CMD1" None) (packet_fields Sample.reply_packet)) = 1%nat /\
  fan_out (Sample.client0 true) 2 "X" "CMD1" Sample.reply_packet
  = [Returned [("RSLT", Sample.Str "ok")]; Returned [("RSLT", Sample.Str "ok")]] /\
  length (filter returned (fan_out (Sample.client0 true) 2 "X" "CMD1" Sample.reply_packet))
  <> Nat.min 2 1.
Proof. repeat split. vm_compute. discriminate. Qed.

End ClientExamples.

(** ** More on the decoder *)

Module DecoderMore.

Import DecoderFacts LegalFacts.

Lemma rstrip_split (b : bytes) :
  exists pad, b = rstrip b ++ pad /\ all_pad pad = true.
Proof.
  induction b as [|x r [pad [Hr Hp]]].
  - exists []. split; reflexivity.
  - cbn [rstrip]. destruct (rstrip r) as [|y r'] eqn:E.
    + cbn [app] in Hr. subst r. destruct (is_pad x) eqn:Ex.
      * exists (x :: pad). split; [reflexivity|]. cbn. now rewrite Ex.
      * exists pad. split; [reflexivity|exact Hp].
    + exists pad. split; [|exact Hp]. cbn [app]. f_equal. exact Hr.
Qed.

Lemma rstrip_idem (b : bytes) : rstrip (rstrip b) = rstrip b.
Proof.
  induction b as [|x r IH]; [reflexivity|].
  cbn [rstrip]. destruct (rstrip r) as [|y r'] eqn:E.
  - destruct (is_pad x) eqn:Ex; [reflexivity|]. cbn [rstrip]. now rewrite Ex.
  - change (rstrip (x :: y :: r')) with
      (match rstrip (y :: r') with
       | [] => if is_pad x then [] else [x]
       | z :: r'' => x :: z :: r''
       end).
    now rewrite IH.
Qed.

Lemma length_rstrip (b : bytes) : (length (rstrip b) <= length b)%nat.
Proof.
  destruct (rstrip_split b) as [pad [H _]].
  rewrite H at 2. rewrite length_app. lia.
Qed.

Lemma length_decode_latin1 (b : bytes) : String.length (decode_latin1 b) = length b.
Proof.
  rewrite <- length_encode_latin1. unfold encode_latin1, decode_latin1.
  now rewrite list_byte_of_string_of_list_byte.
Qed.

Lemma encode_decode_latin1 (b : bytes) : encode_latin1 (decode_latin1 b) = b.
Proof. apply list_byte_of_string_of_list_byte. Qed.

Lemma decode_identifier_canonical (b : bytes) :
  canonical_identifier (decode_identifier b).
Proof.
  unfold canonical_identifier, normalise_identifier, decode_identifier.
  now rewrite encode_decode_latin1, rstrip_idem.
Qed.

Lemma length_decode_identifier (b : bytes) :
  (String.length (decode_identifier b) <= length b)%nat.
Proof.
  unfold decode_identifier. rewrite length_decode_latin1. apply length_rstrip.
Qed.

Lemma rstrip_last (b pre : bytes) (x : byte) :
  rstrip b = pre ++ [x] -> is_pad x = false.
Proof.
  revert pre. induction b as [|y r IH]; intros pre H.
  - destruct pre; discriminate.
  - cbn [rstrip] in H. destruct (rstrip r) as [|z r'] eqn:E.
    + destruct (is_pad y) eqn:Ey; [destruct pre; discriminate|].
      destruct pre as [|p pre]; [|destruct pre; discriminate].
      injection H as <-. exact Ey.
    + destruct pre as [|p pre]; [discriminate|].
      injection H as _ H. exact (IH pre H).
Qed.

Lemma rstrip_keeps (b : bytes) (x : byte) :
  is_pad x = false -> rstrip (b ++ [x]) = b ++ [x].
Proof.
  intros Hx. induction b as [|y b IH].
  - cbn. now rewrite Hx.
  - cbn [app rstrip]. rewrite IH. destruct b; reflexivity.
Qed.

Lemma rstrip_pad (b pad : bytes) :
  all_pad pad = true -> rstrip (b ++ pad) = rstrip b.
Proof.
  intros Hp. induction b as [|y b IH].
  - cbn [app]. induction pad as [|p pad IHp]; [reflexivity|].
    cbn [all_pad forallb] in Hp. apply andb_true_iff in Hp as [Hp1 Hp2].
    cbn [rstrip]. rewrite (IHp Hp2). cbn [rstrip]. now rewrite Hp1.
  - cbn [app rstrip]. now rewrite IH.
Qed.

(** X1: [decode_identifier] trims on the right, and nothing else.  The
    bytes are the Latin-1 bytes of the identifier followed by nothing but
    spaces and NULs; the identifier does not end in a space or a NUL, so
    every trailing space and NUL is dropped; and bytes that end in another
    byte, followed by spaces and NULs, give those bytes as they are, spaces
    and NULs before the last other byte included. *)
Theorem decode_identifier_trims (b : bytes) :
  (exists pad : bytes,
      b = encode_latin1 (decode_identifier b) ++ pad /\
      all_pad pad = true) /\
  (forall (pre : bytes) (x : byte),
      encode_latin1 (decode_identifier b) = pre ++ [x] -> is_pad x = false) /\
  (forall (x : byte) (pad : bytes),
      is_pad x = false -> all_pad pad = true ->
      decode_identifier (b ++ [x] ++ pad) = decode_latin1 (b ++ [x])) /\
  (all_pad b = true -> decode_identifier b = EmptyString) /\
  canonical_identifier (decode_identifier b) /\
  (String.length (decode_identifier b) <= length b)%nat.
Proof.
  destruct (rstrip_split b) as [pad [H Hp]].
  split; [|split; [|split; [|split; [|split]]]].
  - exists pad. unfold decode_identifier. rewrite encode_decode_latin1.
    split; [exact H|exact Hp].
  - intros pre x Hx. unfold decode_identifier in Hx.
    rewrite encode_decode_latin1 in Hx. exact (rstrip_last _ _ _ Hx).
  - intros x pad' Hx Hp'. unfold decode_identifier.
    rewrite app_assoc, rstrip_pad by exact Hp'. now rewrite rstrip_keeps.
  - intros Hb. unfold decode_identifier.
    rewrite <- (app_nil_l b), rstrip_pad by exact Hb. reflexivity.
  - apply decode_identifier_canonical.
  - apply length_decode_identifier.
Qed.

Lemma unpack_Some (n : nat) (buf raw : bytes) :
  unpack n buf = Some raw -> raw = buf /\ length buf = n.
Proof.
  unfold unpack. destruct (Nat.eqb (length buf) n) eqn:E; [|discriminate].
  intros [= <-]. split; [reflexivity|now apply Nat.eqb_eq].
Qed.

Lemma unpack_from_Some (n : nat) (buf raw : bytes) (offset : Z) :
  0 <= offset ->
  unpack_from n buf offset = Some raw ->
  offset + Z.of_nat n <= Z.of_nat (length buf) /\
  raw = firstn n (skipn (Z.to_nat offset) buf) /\ length raw = n.
Proof.
  intros Hoff. unfold unpack_from.
  assert (E : (offset <? 0) = false) by (apply Z.ltb_ge; lia).
  rewrite E, E.
  destruct (Z.of_nat (length buf) - offset <? Z.of_nat n) eqn:E2; [discriminate|].
  apply Z.ltb_ge in E2. intros [= <-]. repeat split; [lia|].
  rewrite length_firstn, length_skipn. lia.
Qed.

Lemma sub_firstn (n k m : nat) (buf : bytes) :
  (k + m <= n)%nat -> sub (firstn n buf) k m = firstn m (skipn k buf).
Proof.
  intros H. unfold sub. rewrite skipn_firstn_comm, firstn_firstn.
  f_equal. lia.
Qed.

Lemma slice_sub (buf : bytes) (k m : nat) :
  slice buf (Z.of_nat k) (Z.of_nat k + Z.of_nat m) = firstn m (skipn k buf).
Proof.
  rewrite slice_nonneg by lia. rewrite Nat2Z.id. f_equal. lia.
Qed.

Lemma length_sub_le (raw : bytes) (k m : nat) : (length (sub raw k m) <= m)%nat.
Proof. unfold sub. rewrite length_firstn. lia. Qed.

Lemma from_bytes_lt (b : bytes) (m : nat) :
  (length b <= m)%nat -> 0 <= from_bytes b < 256 ^ Z.of_nat m.
Proof.
  intros H. pose proof (from_bytes_range b) as [H0 H1]. split; [exact H0|].
  eapply Z.lt_le_trans; [exact H1|]. apply Z.pow_le_mono_r; lia.
Qed.

Section Decoder.

Context {value datetime : Type}.

Variable decode_value : Z -> bytes -> result value value.
Variable unix_to_datetime : Z -> Z -> datetime.

Local Abbreviation decode := (decode_packet decode_value unix_to_datetime).

Lemma decode_fields_Ok_limit (fuel : nat) (buf : bytes) (offset limit : Z)
    (fields fs : list (FieldData value)) (ws ws' : list (exception value)) :
  decode_fields_loop decode_value fuel buf offset limit fields ws = (Ok fs, ws') ->
  offset <= limit.
Proof.
  destruct fuel as [|fuel]; [discriminate|]. cbn [decode_fields_loop].
  destruct (offset <? limit) eqn:E1; [apply Z.ltb_lt in E1; lia|].
  destruct (offset >? limit) eqn:E2; [discriminate|].
  rewrite Z.gtb_ltb in E2. apply Z.ltb_ge in E2. lia.
Qed.

(** What [decode_packet] went through when it returns a packet. *)
Lemma decode_packet_Ok (fuel : nat) (buf : bytes)
    (pkt : PacketData value datetime) (ws : list (exception value)) :
  decode fuel buf = (Ok pkt, ws) ->
  let raw := firstn 32 buf in
  let body := skipn 32 buf in
  let size_remaining := from_bytes (sub raw 8 4) * 4 - 32 in
  length raw = 32%nat /\
  sub raw 0 4 = PACKET_HEADER_MAGIC /\
  Z.of_nat (length body) = size_remaining /\
  8 <= size_remaining /\
  sub (firstn 8 (skipn (Z.to_nat (size_remaining - 8)) body)) 4 4 = PACKET_FOOTER_MAGIC /\
  exists fields,
    decode_fields decode_value fuel body 0 (size_remaining - 8) = (Ok fields, ws) /\
    pkt = mkPacketData (decode_identifier (sub raw 4 4)) (from_bytes (sub raw 12 4))
            (unix_to_datetime (from_bytes (sub raw 20 4)) (from_bytes (sub raw 24 4)))
            (sub raw 28 4) fields.
Proof.
  unfold decode_packet. intros H.
  assert (Hraw : slice buf 0 32 = firstn 32 buf).
  { rewrite slice_nonneg by lia. reflexivity. }
  assert (Hbody : slice buf 32 (Z.of_nat (length buf)) = skipn 32 buf).
  { rewrite slice_nonneg by lia. rewrite Nat2Z.id.
    apply firstn_all2. rewrite length_skipn. lia. }
  rewrite Hraw, Hbody in H. cbv zeta.
  set (raw := firstn 32 buf) in *. set (body := skipn 32 buf) in *.
  unfold decode_packet_cps in H.
  destruct (unpack 32 raw) as [raw'|] eqn:Eu; [|discriminate].
  apply unpack_Some in Eu as [-> Hlen]. cbn [or_raise bind] in H.
  destruct (bytes_eqb (sub raw 0 4) PACKET_HEADER_MAGIC) eqn:Em;
    [|cbn in H; discriminate].
  apply bytes_eqb_eq in Em. cbn [negb] in H.
  set (sr := from_bytes (sub raw 8 4) * 4 - 32) in *.
  unfold decode_packet_body in H.
  destruct (Z.of_nat (length body) >? sr) eqn:Eg; [cbn in H; discriminate|].
  rewrite Z.gtb_ltb in Eg. apply Z.ltb_ge in Eg.
  destruct (decode_fields decode_value fuel body 0 (sr - 8)) as [[fields|e|] ws1] eqn:Ef;
    try discriminate.
  pose proof (decode_fields_Ok_limit _ _ _ _ _ _ _ _ Ef) as Hlim.
  destruct (unpack_from 8 body (sr - 8)) as [foot|] eqn:Eb; [|discriminate].
  apply unpack_from_Some in Eb as [Hb [-> _]]; [|lia].
  destruct (bytes_eqb _ PACKET_FOOTER_MAGIC) eqn:Efoot; [|cbn in H; discriminate].
  apply bytes_eqb_eq in Efoot. cbn [negb] in H.
  injection H as <- <-.
  repeat split; try assumption; try lia.
  exists fields. split; reflexivity.
Qed.

(** X2: what [decode_packet] accepts.  When [decode_packet] returns a
    packet, the buffer is exactly as long as its size word says (and 40
    bytes at least), it starts with [DD CC BB AA] and ends with
    [AA BB CC DD], and the type, the id and the info of the packet are the
    bytes at offsets 4, 12 and 28 of the header. *)
Theorem decode_packet_accepts_framed_only (fuel : nat) (buf : bytes)
    (pkt : PacketData value datetime) (ws : list (exception value)) :
  decode fuel buf = (Ok pkt, ws) ->
  Z.of_nat (length buf) = from_bytes (slice buf 8 12) * 4 /\
  (40 <= length buf)%nat /\
  slice buf 0 4 = PACKET_HEADER_MAGIC /\
  slice buf (Z.of_nat (length buf) - 4) (Z.of_nat (length buf)) = PACKET_FOOTER_MAGIC /\
  packet_type pkt = decode_identifier (slice buf 4 8) /\
  packet_id pkt = from_bytes (slice buf 12 16) /\
  packet_info pkt = slice buf 28 32.
Proof.
  intros H. apply decode_packet_Ok in H. cbv zeta in H.
  destruct H as [Hlen [Hm [Hb [Hsr [Hfoot [fields [_ ->]]]]]]].
  assert (H32 : (32 <= length buf)%nat).
  { rewrite length_firstn in Hlen. lia. }
  rewrite !sub_firstn in * by lia.
  assert (Hbl : Z.of_nat (length buf) = 32 + Z.of_nat (length (skipn 32 buf))).
  { rewrite length_skipn. lia. }
  change 8 with (Z.of_nat 8) at 1. change 12 with (Z.of_nat 8 + Z.of_nat 4) at 1.
  rewrite slice_sub.
  change (slice buf 0 4) with (slice buf (Z.of_nat 0) (Z.of_nat 0 + Z.of_nat 4)).
  change (slice buf 4 8) with (slice buf (Z.of_nat 4) (Z.of_nat 4 + Z.of_nat 4)).
  change (slice buf 12 16) with (slice buf (Z.of_nat 12) (Z.of_nat 12 + Z.of_nat 4)).
  change (slice buf 28 32) with (slice buf (Z.of_nat 28) (Z.of_nat 28 + Z.of_nat 4)).
  rewrite !slice_sub. cbn [packet_type packet_id packet_info].
  repeat split; try lia; try assumption.
  set (sr := from_bytes (firstn 4 (skipn 8 buf)) * 4 - 32) in *.
  replace (Z.of_nat (length buf) - 4) with (Z.of_nat (32 + Z.to_nat (sr - 8) + 4)) by lia.
  replace (Z.of_nat (length buf))
    with (Z.of_nat (32 + Z.to_nat (sr - 8) + 4) + Z.of_nat 4) at 1 by lia.
  rewrite slice_sub. rewrite <- Hfoot. rewrite !skipn_skipn.
  f_equal. f_equal. lia.
Qed.


Lemma in_od_set_keys {V : Type} (k x : string) (v : V) (d : odict V) :
  In x (map fst (od_set k v d)) <-> x = k \/ In x (map fst d).
Proof.
  induction d as [|[k' v'] r IH]; cbn [od_set map fst In].
  - intuition congruence.
  - destruct (String.eqb k' k) eqn:E; cbn [map fst In].
    + apply String.eqb_eq in E. subst k'. intuition congruence.
    + rewrite IH. tauto.
Qed.

Lemma NoDup_od_set {V : Type} (k : string) (v : V) (d : odict V) :
  NoDup (map fst d) -> NoDup (map fst (od_set k v d)).
Proof.
  induction d as [|[k' v'] r IH]; cbn [od_set map fst]; intros H.
  - constructor; [intros []|constructor].
  - apply NoDup_cons_iff in H as [Hn Hr].
    destruct (String.eqb k' k) eqn:E; cbn [map fst].
    + constructor; assumption.
    + constructor; [|now apply IH].
      rewrite in_od_set_keys. intros [->|Hin]; [|contradiction].
      now rewrite String.eqb_refl in E.
Qed.

Lemma Forall_od_set_keys {V : Type} (P : string -> Prop) (k : string) (v : V)
    (d : odict V) :
  P k -> Forall (fun p => P (fst p)) d -> Forall (fun p => P (fst p)) (od_set k v d).
Proof.
  intros Hk. induction d as [|[k' v'] r IH]; cbn [od_set]; intros H.
  - constructor; [exact Hk|constructor].
  - apply Forall_cons_iff in H as [Hh Hr].
    destruct (String.eqb k' k); constructor; auto.
Qed.

Lemma short_decode_identifier (raw : bytes) (k : nat) :
  short_identifier (decode_identifier (sub raw k 4)).
Proof.
  split; [apply decode_identifier_canonical|].
  etransitivity; [apply length_decode_identifier|apply length_sub_le].
Qed.

Definition footer_warnings (ws : list (exception value)) : Prop :=
  Forall (eq footer_warning) ws.

(** What the inner loop keeps: the warnings are footer warnings, the names
    are short and distinct, and what is raised is raised by a bad call, by
    [struct] or by the value codec. *)
Lemma decode_params_inv (fuel : nat) :
  forall (buf : bytes) (offset limit : Z) (params : odict value)
         (ws ws' : list (exception value)) (r : result value (Z * odict value)),
    decode_params decode_value fuel buf offset limit params ws = (r, ws') ->
    footer_warnings ws ->
    footer_warnings ws' /\
    match r with
    | Ok (_, ps) =>
        (NoDup (map fst params) -> NoDup (map fst ps)) /\
        (Forall (fun p => short_identifier (fst p)) params ->
         Forall (fun p => short_identifier (fst p)) ps)
    | Raise e => decoder_exception decode_value e
    | OutOfFuel => True
    end.
Proof.
  induction fuel as [|fuel IH]; intros buf offset limit params ws ws' r H Hws.
  - cbn in H. injection H as <- <-. split; [assumption|exact I].
  - cbn [decode_params] in H.
    destruct (offset <? limit).
    + destruct (bytes_eqb _ PACKET_FOOTER).
      * cbn [instantiate has_CommandMixin] in H.
        apply IH in H; [exact H|].
        apply Forall_app. split; [assumption|]. constructor; [reflexivity|constructor].
      * destruct (unpack_from 8 buf offset) as [raw|].
        -- destruct (decode_value _ _) as [v|e|] eqn:Ev.
           ++ destruct (_ >? limit).
              ** injection H as <- <-. split; [assumption|]. left. reflexivity.
              ** apply IH in H; [|assumption]. destruct H as [Hw Hr].
                 split; [assumption|].
                 destruct r as [[off ps]|e|]; try assumption.
                 destruct Hr as [Hn Hs]. split; intros Hp.
                 --- apply Hn. now apply NoDup_od_set.
                 --- apply Hs. apply Forall_od_set_keys;
                       [apply short_decode_identifier|assumption].
           ++ injection H as <- <-. split; [assumption|].
              right. right. eauto.
           ++ injection H as <- <-. split; [assumption|exact I].
        -- injection H as <- <-. split; [assumption|]. right. left. reflexivity.
    + injection H as <- <-. split; [assumption|]. split; auto.
Qed.

Lemma decode_fields_loop_inv (fuel : nat) :
  forall (buf : bytes) (offset limit : Z) (fields : list (FieldData value))
         (ws ws' : list (exception value)) (r : result value (list (FieldData value))),
    decode_fields_loop decode_value fuel buf offset limit fields ws = (r, ws') ->
    footer_warnings ws ->
    footer_warnings ws' /\
    match r with
    | Ok fs => Forall decoded_field fields -> Forall decoded_field fs
    | Raise e => decoder_exception decode_value e
    | OutOfFuel => True
    end.
Proof.
  induction fuel as [|fuel IH]; intros buf offset limit fields ws ws' r H Hws.
  - cbn in H. injection H as <- <-. split; [assumption|exact I].
  - cbn [decode_fields_loop] in H.
    destruct (offset <? limit).
    + destruct (unpack_from 12 buf offset) as [raw|].
      * destruct (decode_params _ _ _ _ _ _ _) as [[[off ps]|e|] ws1] eqn:Ep;
          apply decode_params_inv in Ep; try assumption; destruct Ep as [Hw Hr].
        -- apply IH in H; [|assumption]. destruct H as [Hw' Hr'].
           split; [assumption|]. destruct r as [fs|e|]; try assumption.
           intros Hf. apply Hr'. apply Forall_app. split; [assumption|].
           constructor; [|constructor]. destruct Hr as [Hn Hs].
           refine (conj _ (conj _ (conj _ _))); cbn [field_name field_id field_params].
           ++ apply short_decode_identifier.
           ++ apply (from_bytes_lt _ 4), length_sub_le.
           ++ apply Hs. constructor.
           ++ apply Hn. constructor.
        -- injection H as <- <-. split; assumption.
        -- injection H as <- <-. split; [assumption|exact I].
      * injection H as <- <-. split; [assumption|]. right. left. reflexivity.
    + destruct (offset >? limit).
      * injection H as <- <-. split; [assumption|]. left. reflexivity.
      * injection H as <- <-. split; [assumption|]. auto.
Qed.

(** X3: what a decoded packet looks like.  When [decode_packet] returns a
    packet, its type, its field names and its param names have at most four
    characters and end in neither a space nor a NUL, the param names of a
    field are distinct, the packet id and the field ids are below [2 ^ 32],
    and the info has four bytes. *)
Theorem decode_packet_shape (fuel : nat) (buf : bytes)
    (pkt : PacketData value datetime) (ws : list (exception value)) :
  decode fuel buf = (Ok pkt, ws) -> decoded_packet pkt.
Proof.
  intros H. apply decode_packet_Ok in H. cbv zeta in H.
  destruct H as [Hlen [_ [_ [_ [_ [fields [Hf ->]]]]]]].
  unfold decode_fields in Hf. apply decode_fields_loop_inv in Hf; [|constructor].
  destruct Hf as [_ Hf].
  refine (conj _ (conj _ (conj _ _)));
    cbn [packet_type packet_id packet_info packet_fields].
  - apply short_decode_identifier.
  - apply (from_bytes_lt _ 4), length_sub_le.
  - unfold sub. rewrite length_firstn, length_skipn. lia.
  - apply Hf. constructor.
Qed.

(** X4: what [decode_packet] raises and warns.  Every warning it records is
    the warning of an embedded packet footer.  An exception it raises is the
    [TypeError] of a call with the wrong number of arguments, a
    [struct.error], or an exception of the value codec: it raises no
    [DecodeError] of its own. *)
Theorem decode_packet_diagnostics (fuel : nat) (buf : bytes)
    (r : result value (PacketData value datetime)) (ws : list (exception value)) :
  decode fuel buf = (r, ws) ->
  Forall (eq footer_warning) ws /\
  forall e, r = Raise e ->
    decoder_exception decode_value e /\
    (exc_class e = DecodeError ->
     exists type_id payload, decode_value type_id payload = Raise e).
Proof.
  intros H.
  assert (Hall : footer_warnings ws /\
                 forall e, r = Raise e -> decoder_exception decode_value e).
  { unfold decode_packet, decode_packet_cps in H.
    destruct (unpack 32 _) as [raw|].
    - cbn [or_raise bind] in H.
      destruct (negb _).
      + injection H as <- <-. split; [constructor|].
        intros e [= <-]. left. reflexivity.
      + cbn [bind] in H. unfold decode_packet_body in H.
        destruct (_ >? _).
        * injection H as <- <-. split; [constructor|].
          intros e [= <-]. left. reflexivity.
        * destruct (decode_fields _ _ _ _ _) as [[fields|e'|] ws1] eqn:Ef;
            unfold decode_fields in Ef;
            (apply decode_fields_loop_inv in Ef; [|constructor]);
            destruct Ef as [Hw Hr].
          -- destruct (unpack_from 8 _ _) as [foot|].
             ++ destruct (negb _); injection H as <- <-; split; try assumption.
                ** intros e [= <-]. left. reflexivity.
                ** intros e [=].
             ++ injection H as <- <-. split; [assumption|].
                intros e [= <-]. right. left. reflexivity.
          -- injection H as <- <-. split; [assumption|]. now intros e [= <-].
          -- injection H as <- <-. split; [assumption|]. intros e [=].
    - injection H as <- <-. split; [constructor|].
      intros e [= <-]. right. left. reflexivity. }
  destruct Hall as [Hw Hr]. split; [exact Hw|].
  intros e He. specialize (Hr e He). split; [exact Hr|].
  intros Hc. destruct Hr as [->|[->|Hr]]; [discriminate|discriminate|exact Hr].
Qed.

Lemma items_meaning_warnings (its : list wire_item) :
  forall (params ps : odict value) (ws ws' : list (exception value)),
    items_meaning decode_value its params ws = (Ok ps, ws') ->
    ws' = ws ++ repeat footer_warning (length (filter is_footer its)).
Proof.
  induction its as [|[|name t payload] its IH]; intros params ps ws ws' H;
    cbn [items_meaning filter is_footer length repeat] in *.
  - injection H as _ <-. now rewrite app_nil_r.
  - apply IH in H. rewrite H, <- app_assoc. reflexivity.
  - destruct (decode_value _ _) as [v|e|]; try discriminate.
    now apply IH in H.
Qed.

Lemma fields_meaning_shape (fs : list wire_field) :
  forall (acc fields : list (FieldData value)) (ws ws' : list (exception value)),
    fields_meaning decode_value fs acc ws = (Ok fields, ws') ->
    map (fun f => (field_name f, field_id f)) fields
    = map (fun f => (field_name f, field_id f)) acc
        ++ map (fun f => (decode_identifier (wf_name f), wf_id f)) fs /\
    ws' = ws ++ repeat footer_warning (footer_count fs).
Proof.
  induction fs as [|f fs IH]; intros acc fields ws ws' H;
    cbn [fields_meaning] in H.
  - injection H as <- <-. cbn. now rewrite !app_nil_r.
  - destruct (items_meaning _ _ _ _) as [[ps|e|] ws1] eqn:Ei; try discriminate.
    apply items_meaning_warnings in Ei. apply IH in H as [Hf Hw].
    split.
    + rewrite Hf, map_app, <- app_assoc. reflexivity.
    + rewrite Hw, Ei. unfold footer_count, list_sum. cbn [map fold_right].
      rewrite repeat_app, app_assoc. reflexivity.
Qed.

(** X5: fields come out as they stand on the wire.  When a well-framed
    packet decodes, the decoded packet has one field for each field on the
    wire, in wire order, with its name trimmed and its id, two fields of the
    same name staying two fields; and there is one warning for each
    embedded packet footer, and no other. *)
Theorem decode_packet_keeps_field_order (p : wire_packet) (fuel : nat)
    (pkt : PacketData value datetime) (ws : list (exception value)) :
  wire_packet_ok p = true ->
  (length (wire_packet_bytes p) <= fuel)%nat ->
  decode fuel (wire_packet_bytes p) = (Ok pkt, ws) ->
  map (fun f => (field_name f, field_id f)) (packet_fields pkt)
  = map (fun f => (decode_identifier (wf_name f), wf_id f)) (wp_fields p) /\
  packet_type pkt = decode_identifier (wp_type p) /\
  packet_id pkt = wp_id p /\
  ws = repeat footer_warning (footer_count (wp_fields p)).
Proof.
  intros Hok Hfuel H. rewrite decode_packet_wire in H by assumption.
  unfold packet_meaning in H.
  destruct (fields_meaning _ _ _ _) as [[fields|e|] ws1] eqn:Ef; try discriminate.
  injection H as <- <-. apply fields_meaning_shape in Ef as [Hf Hw].
  cbn [packet_fields packet_type packet_id]. repeat split; assumption.
Qed.

Lemma items_bytes_type_id_free (type_id : byte) (f : wire_field) :
  length (wire_field_bytes (mkWireField (wf_name f) type_id (wf_id f) (wf_items f)))
  = length (wire_field_bytes f).
Proof.
  unfold wire_field_bytes, field_header. cbn [wf_name wf_id wf_items wf_type_id].
  rewrite !length_app. reflexivity.
Qed.

Lemma length_fields_bytes_type_id (type_id : byte) (fs : list wire_field) :
  length (fields_bytes
            (map (fun f => mkWireField (wf_name f) type_id (wf_id f) (wf_items f)) fs))
  = length (fields_bytes fs).
Proof.
  induction fs as [|f fs IH]; [reflexivity|].
  unfold fields_bytes in *. cbn [map concat]. rewrite !length_app, IH.
  now rewrite items_bytes_type_id_free.
Qed.

Lemma fields_ok_type_id (type_id : byte) (fs : list wire_field) :
  forallb wire_field_ok
    (map (fun f => mkWireField (wf_name f) type_id (wf_id f) (wf_items f)) fs)
  = forallb wire_field_ok fs.
Proof.
  induction fs as [|f fs IH]; [reflexivity|].
  cbn [map forallb]. rewrite IH. reflexivity.
Qed.

Lemma fields_meaning_type_id (type_id : byte) (fs : list wire_field) :
  forall (acc : list (FieldData value)) (ws : list (exception value)),
    fields_meaning decode_value
      (map (fun f => mkWireField (wf_name f) type_id (wf_id f) (wf_items f)) fs) acc ws
    = fields_meaning decode_value fs acc ws.
Proof.
  induction fs as [|f fs IH]; intros acc ws; [reflexivity|].
  cbn [map fields_meaning wf_items wf_name wf_id].
  destruct (items_meaning _ _ _ _) as [[ps|e|] ws1]; try reflexivity.
  apply IH.
Qed.

(** X6: the type id byte of a field header is not looked at.  For every
    well-framed packet, any byte in place of the type id of its fields
    leaves the outcome of [decode_packet] as it is, a packet with its
    warnings or an error. *)
Theorem field_type_id_ignored (p : wire_packet) (type_id : byte) (fuel : nat) :
  wire_packet_ok p = true ->
  (length (wire_packet_bytes p) <= fuel)%nat ->
  decode fuel (wire_packet_bytes (with_field_type_id type_id p))
  = decode fuel (wire_packet_bytes p).
Proof.
  intros Hok Hfuel.
  assert (Hok' : wire_packet_ok (with_field_type_id type_id p) = true).
  { unfold wire_packet_ok in *.
    cbn [with_field_type_id wp_type wp_id wp_format wp_time wp_nanotime
           wp_info wp_fields wp_checksum].
    now rewrite fields_ok_type_id, length_fields_bytes_type_id. }
  assert (Hlen : length (wire_packet_bytes (with_field_type_id type_id p))
                 = length (wire_packet_bytes p)).
  { unfold wire_packet_bytes, packet_header.
    cbn [with_field_type_id wp_type wp_id wp_format wp_time wp_nanotime
           wp_info wp_fields wp_checksum].
    rewrite !length_app, length_fields_bytes_type_id, !length_le_digits.
    reflexivity. }
  rewrite !decode_packet_wire by (assumption || lia).
  unfold packet_meaning.
  cbn [with_field_type_id wp_type wp_id wp_format wp_time wp_nanotime
         wp_info wp_fields wp_checksum].
  now rewrite fields_meaning_type_id.
Qed.


(** X21: a param of zero words stops the decoder for good.  At a param
    header that is not a packet footer and declares a size of zero words,
    when the value codec accepts the empty payload, the inner loop of
    [decode_fields] stores the param and stays at the same offset: it comes
    to no result, whatever the fuel. *)
Theorem zero_size_param_never_returns (buf raw : bytes) (offset limit : Z) (v : value) :
  offset < limit ->
  bytes_eqb (slice buf offset (offset + 8)) PACKET_FOOTER = false ->
  unpack_from 8 buf offset = Some raw ->
  from_bytes (sub raw 4 3) = 0 ->
  decode_value (from_bytes (sub raw 7 1)) (slice buf (offset + 8) offset) = Ok v ->
  forall (fuel : nat) (params : odict value) (ws : list (exception value)),
    decode_params decode_value fuel buf offset limit params ws = (OutOfFuel, ws).
Proof.
  intros Hlt Hfoot Hraw Hsize Hval.
  induction fuel as [|fuel IH]; intros params ws; [reflexivity|].
  cbn [decode_params].
  apply Z.ltb_lt in Hlt. rewrite Hlt, Hfoot, Hraw. cbv zeta.
  rewrite Hsize. change (0 * 4) with 0. rewrite Z.add_0_r, Hval.
  apply Z.ltb_lt in Hlt.
  assert (Hgt : (offset >? limit) = false)
    by (rewrite Z.gtb_ltb; apply Z.ltb_ge; lia).
  rewrite Hgt. apply IH.
Qed.

End Decoder.

End DecoderMore.

(** ** More on the encoder *)

Module EncoderMore.

Import DecoderFacts EncoderFacts SizeFacts LegalFacts DecoderMore.

Lemma pow_256_1 : 256 ^ Z.of_nat 1 = 256.
Proof. reflexivity. Qed.

Lemma aligned_lt (x bound : Z) :
  0 <= x -> (x + (- x) mod 4) / 4 < bound <-> x + (- x) mod 4 < 4 * bound.
Proof.
  intros Hx. destruct (pad_aligned x) as [k Hk]. rewrite Hk.
  rewrite (Z.mul_comm 4 k), Z.div_mul by lia. lia.
Qed.

Section Encoder.

Context {value datetime : Type}.

Variable encode_value : value -> result value (Z * bytes).
Variable datetime_to_unix : datetime -> Z * Z.

Local Abbreviation encode := (encode_packet encode_value datetime_to_unix).

Lemma param_block_Ok (p : string * value) (b : bytes) :
  param_block encode_value p = Ok b ->
  encodable_param encode_value p /\
  Z.of_nat (length b) = param_wire_size encode_value p /\
  param_wire_size encode_value p < 4 * 256 ^ 3.
Proof.
  unfold param_block, encodable_param, param_wire_size.
  destruct (encode_value (snd p)) as [[t payload]|e|]; try discriminate.
  cbn [bind]. rewrite length_padded.
  set (size := 8 + Z.of_nat (length payload)).
  destruct (to_bytes 3 _) as [sb|] eqn:Es; try discriminate.
  destruct (pack_B t) as [tb|] eqn:Et; try discriminate.
  cbn [or_raise bind]. intros H. apply Ok_inj in H. subst b.
  apply to_bytes_Some in Es as [Hs ->]. apply to_bytes_Some in Et as [Ht ->].
  rewrite pow_256_1 in Ht.
  pose proof (pad_range size) as Hp.
  apply proj2 in Hs. apply aligned_lt in Hs; [|unfold size; lia].
  change (256 ^ Z.of_nat 3) with (256 ^ 3) in Hs.
  split; [exact Ht|]. split; [|unfold size in *; lia].
  rewrite !length_app, length_pack_s, !length_le_digits, length_zeros.
  unfold size in *. lia.
Qed.

Lemma param_block_encodable (p : string * value) :
  encodable_param encode_value p ->
  param_wire_size encode_value p < 4 * 256 ^ 3 ->
  exists b, param_block encode_value p = Ok b.
Proof.
  unfold param_block, encodable_param, param_wire_size.
  destruct (encode_value (snd p)) as [[t payload]|e|]; try contradiction.
  intros Ht Hs. cbn [bind]. rewrite length_padded in Hs.
  set (size := 8 + Z.of_nat (length payload)) in *.
  pose proof (pad_range size) as Hp.
  rewrite to_bytes_ok.
  - unfold pack_B. rewrite to_bytes_ok by (rewrite pow_256_1; exact Ht).
    cbn [or_raise bind]. eauto.
  - split.
    + apply Z.div_pos; unfold size in *; lia.
    + apply aligned_lt; [unfold size; lia|].
      change (256 ^ Z.of_nat 3) with (256 ^ 3). unfold size in *. lia.
Qed.

Lemma params_blocks_Ok (ps : odict value) :
  forall bs, params_blocks encode_value ps = Ok bs ->
    Forall (encodable_param encode_value) ps /\
    Z.of_nat (length (concat bs)) = params_wire_size encode_value ps.
Proof.
  induction ps as [|p ps IH]; intros bs H.
  - cbn in H. apply Ok_inj in H. subst bs. split; [constructor|reflexivity].
  - cbn [params_blocks] in H.
    destruct (param_block encode_value p) as [b|e|] eqn:Eb; try discriminate.
    cbn [bind] in H.
    destruct (params_blocks encode_value ps) as [bs'|e|] eqn:Ebs; try discriminate.
    cbn [bind] in H. apply Ok_inj in H. subst bs.
    apply param_block_Ok in Eb as [Hp [Hl _]].
    destruct (IH _ eq_refl) as [HF Hls].
    split; [constructor; assumption|].
    cbn [concat params_wire_size fold_right]. rewrite length_app.
    unfold params_wire_size in Hls. lia.
Qed.

Lemma params_blocks_encodable (ps : odict value) :
  Forall (encodable_param encode_value) ps ->
  params_wire_size encode_value ps < 4 * 256 ^ 3 ->
  exists bs, params_blocks encode_value ps = Ok bs.
Proof.
  induction ps as [|p ps IH]; intros HF Hs.
  - exists []. reflexivity.
  - apply Forall_cons_iff in HF as [Hp HF].
    cbn [params_wire_size fold_right] in Hs.
    fold (params_wire_size encode_value ps) in Hs.
    pose proof (param_wire_size_pos encode_value p).
    pose proof (params_wire_size_pos encode_value ps).
    destruct (param_block_encodable p Hp ltac:(lia)) as [b Hb].
    destruct (IH HF ltac:(lia)) as [bs Hbs].
    exists (b :: bs). cbn [params_blocks]. rewrite Hb, Hbs. reflexivity.
Qed.

Lemma params_wire_size_aligned (ps : odict value) :
  exists k, params_wire_size encode_value ps = 4 * k.
Proof.
  induction ps as [|p ps [k Hk]].
  - exists 0. reflexivity.
  - cbn [params_wire_size fold_right]. fold (params_wire_size encode_value ps).
    rewrite Hk. unfold param_wire_size.
    destruct (encode_value (snd p)) as [[t payload]|e|].
    + destruct (padded_aligned payload) as [k' [Hk' _]]. exists (k' + k). lia.
    + exists k. lia.
    + exists k. lia.
Qed.

Lemma field_block_Ok (f : FieldData value) (b : bytes) :
  field_block encode_value f = Ok b ->
  encodable_field encode_value f /\
  Z.of_nat (length b) = field_wire_size encode_value f.
Proof.
  unfold field_block, encodable_field, field_wire_size.
  destruct (pack_I (field_id f)) as [ib|] eqn:Ei; try discriminate.
  cbn [or_raise bind].
  destruct (params_blocks encode_value (field_params f)) as [bs|e|] eqn:Ep;
    try discriminate.
  cbn [bind].
  destruct (to_bytes 3 _) as [sb|] eqn:Es; try discriminate.
  cbn [or_raise bind]. intros H. apply Ok_inj in H. subst b.
  apply params_blocks_Ok in Ep as [HF Hl].
  apply to_bytes_Some in Ei as [Hi ->]. apply to_bytes_Some in Es as [Hs ->].
  destruct (params_wire_size_aligned (field_params f)) as [k Hk].
  rewrite Hl, Hk in Hs.
  replace (12 + 4 * k) with ((3 + k) * 4) in Hs by lia.
  rewrite Z.div_mul in Hs by lia.
  change (256 ^ Z.of_nat 3) with (256 ^ 3) in Hs.
  change (256 ^ Z.of_nat 4) with (256 ^ 4) in Hi.
  split; [split; [exact Hi|split; [exact HF|lia]]|].
  rewrite !length_app, length_pack_s, !length_le_digits. cbn [length]. lia.
Qed.

Lemma field_block_encodable (f : FieldData value) :
  encodable_field encode_value f -> exists b, field_block encode_value f = Ok b.
Proof.
  intros [Hi [HF Hs]]. unfold field_block, field_wire_size in *.
  pose proof (params_wire_size_pos encode_value (field_params f)) as Hpos.
  unfold pack_I. rewrite to_bytes_ok by exact Hi. cbn [or_raise bind].
  destruct (params_blocks_encodable _ HF ltac:(lia)) as [bs Hbs].
  rewrite Hbs. cbn [bind].
  apply params_blocks_Ok in Hbs as [_ Hl].
  destruct (params_wire_size_aligned (field_params f)) as [k Hk].
  rewrite to_bytes_ok; [cbn [or_raise bind]; eauto|].
  rewrite Hl, Hk. replace (12 + 4 * k) with ((3 + k) * 4) by lia.
  rewrite Z.div_mul by lia. change (256 ^ Z.of_nat 3) with (256 ^ 3). lia.
Qed.

Lemma fields_blocks_Ok (fs : list (FieldData value)) :
  forall bs, fields_blocks encode_value fs = Ok bs ->
    Forall (encodable_field encode_value) fs /\
    Z.of_nat (length (concat bs)) = fields_wire_size encode_value fs.
Proof.
  induction fs as [|f fs IH]; intros bs H.
  - cbn in H. apply Ok_inj in H. subst bs. split; [constructor|reflexivity].
  - cbn [fields_blocks] in H.
    destruct (field_block encode_value f) as [b|e|] eqn:Eb; try discriminate.
    cbn [bind] in H.
    destruct (fields_blocks encode_value fs) as [bs'|e|] eqn:Ebs; try discriminate.
    cbn [bind] in H. apply Ok_inj in H. subst bs.
    apply field_block_Ok in Eb as [Hf Hl].
    destruct (IH _ eq_refl) as [HF Hls].
    split; [constructor; assumption|].
    cbn [concat fields_wire_size fold_right]. rewrite length_app.
    unfold fields_wire_size in Hls. lia.
Qed.

Lemma fields_blocks_encodable (fs : list (FieldData value)) :
  Forall (encodable_field encode_value) fs ->
  exists bs, fields_blocks encode_value fs = Ok bs.
Proof.
  induction fs as [|f fs IH]; intros HF.
  - exists []. reflexivity.
  - apply Forall_cons_iff in HF as [Hf HF].
    destruct (field_block_encodable f Hf) as [b Hb].
    destruct (IH HF) as [bs Hbs].
    exists (b :: bs). cbn [fields_blocks]. rewrite Hb, Hbs. reflexivity.
Qed.

Lemma fields_wire_size_aligned (fs : list (FieldData value)) :
  exists k, fields_wire_size encode_value fs = 4 * k /\ 0 <= k.
Proof.
  induction fs as [|f fs [k [Hk Hk0]]].
  - exists 0. split; [reflexivity|lia].
  - cbn [fields_wire_size fold_right]. fold (fields_wire_size encode_value fs).
    rewrite Hk. unfold field_wire_size.
    destruct (params_wire_size_aligned (field_params f)) as [k' Hk'].
    pose proof (params_wire_size_pos encode_value (field_params f)).
    exists (3 + k' + k). split; lia.
Qed.

Lemma length_encode_packet (packet_type : string) (packet_id : Z)
    (timestamp : datetime) (info : bytes) (fields : list (FieldData value))
    (buf : bytes) :
  encode packet_type packet_id timestamp info fields = Ok buf ->
  Z.of_nat (length buf) = 32 + fields_wire_size encode_value fields + 8.
Proof.
  rewrite encode_packet_eq. unfold packet_block.
  destruct (datetime_to_unix timestamp) as [time nano]. intros H.
  destruct (pack_I packet_id) as [ib|] eqn:Ei; try discriminate.
  destruct (pack_I time) as [tb|] eqn:Et; try discriminate.
  destruct (pack_I nano) as [nb|] eqn:En; try discriminate.
  cbn [or_raise bind] in H.
  destruct (fields_blocks encode_value fields) as [bs|e|] eqn:Ef; try discriminate.
  cbn [bind] in H.
  destruct (to_bytes 4 _) as [sb|] eqn:Es; try discriminate.
  cbn [or_raise bind] in H. apply Ok_inj in H. subst buf.
  apply fields_blocks_Ok in Ef as [_ Hl].
  apply to_bytes_length in Ei, Et, En, Es.
  rewrite !length_app, !length_pack_s, Ei, Et, En, Es.
  change (length PACKET_HEADER_MAGIC) with 4%nat.
  change (length PACKET_FORMAT_TAG) with 4%nat.
  change (length PACKET_FOOTER) with 8%nat. lia.
Qed.

(** X7: when [encode_packet] returns a buffer, for Latin-1 names.  The
    packet type, the field names and the param names are strings of the
    model, that is Latin-1 strings, on which [encode("latin1")] does not
    raise.  For such names [encode_packet] returns a buffer exactly when
    the value codec encodes every param value to a type id that fits a
    byte, every id and both parts of the timestamp fit 32 bits, every field
    is shorter than [2 ^ 24] words and the packet shorter than [2 ^ 32]
    words; Latin-1 names of any length and an info of any length are
    accepted.  The buffer is then 40 bytes longer than its fields. *)
Theorem encode_packet_domain (packet_type : string) (packet_id : Z)
    (timestamp : datetime) (info : bytes) (fields : list (FieldData value)) :
  ((exists buf, encode packet_type packet_id timestamp info fields = Ok buf)
   <-> encodable_packet encode_value datetime_to_unix packet_id timestamp fields) /\
  forall buf, encode packet_type packet_id timestamp info fields = Ok buf ->
    Z.of_nat (length buf) = 32 + fields_wire_size encode_value fields + 8.
Proof.
  split; [|apply length_encode_packet].
  rewrite encode_packet_eq. unfold packet_block, encodable_packet.
  destruct (datetime_to_unix timestamp) as [time nano].
  destruct (fields_wire_size_aligned fields) as [k [Hk Hk0]].
  assert (Hdiv : (32 + fields_wire_size encode_value fields + 8) / 4 = 10 + k).
  { rewrite Hk. replace (32 + 4 * k + 8) with ((10 + k) * 4) by lia.
    apply Z.div_mul. lia. }
  split.
  - intros [buf H].
    destruct (pack_I packet_id) as [ib|] eqn:Ei; try discriminate.
    destruct (pack_I time) as [tb|] eqn:Et; try discriminate.
    destruct (pack_I nano) as [nb|] eqn:En; try discriminate.
    cbn [or_raise bind] in H.
    destruct (fields_blocks encode_value fields) as [bs|e|] eqn:Ef; try discriminate.
    cbn [bind] in H.
    destruct (to_bytes 4 _) as [sb|] eqn:Es; try discriminate.
    apply fields_blocks_Ok in Ef as [HF Hl].
    apply to_bytes_Some in Ei as [Hi _]. apply to_bytes_Some in Et as [Ht _].
    apply to_bytes_Some in En as [Hn _]. apply to_bytes_Some in Es as [Hs _].
    rewrite Hl, Hdiv in Hs.
    change (256 ^ Z.of_nat 4) with (256 ^ 4) in *.
    repeat split; try assumption; lia.
  - intros [Hi [[Ht Hn] [HF Hs]]].
    unfold pack_I. rewrite !to_bytes_ok by assumption. cbn [or_raise bind].
    destruct (fields_blocks_encodable fields HF) as [bs Hbs].
    rewrite Hbs. cbn [bind].
    apply fields_blocks_Ok in Hbs as [_ Hl].
    rewrite to_bytes_ok; [cbn [or_raise bind]; eauto|].
    rewrite Hl, Hdiv. change (256 ^ Z.of_nat 4) with (256 ^ 4). lia.
Qed.


Lemma pack_s_firstn (b : bytes) : pack_s 4 (firstn 4 b) = pack_s 4 b.
Proof.
  unfold pack_s. destruct (Nat.le_gt_cases (length b) 4) as [H|H].
  - replace (firstn 4 b) with b by (symmetry; apply firstn_all2; exact H).
    reflexivity.
  - rewrite !firstn_app, firstn_firstn, length_firstn.
    replace (4 - Nat.min 4 (length b))%nat with 0%nat by lia.
    replace (4 - length b)%nat with 0%nat by lia.
    reflexivity.
Qed.

Lemma pack_s_truncate (s : string) :
  pack_s 4 (encode_latin1 (truncate_identifier s)) = pack_s 4 (encode_latin1 s).
Proof.
  unfold truncate_identifier. rewrite encode_decode_latin1. apply pack_s_firstn.
Qed.

Lemma params_blocks_truncate (ps : odict value) :
  params_blocks encode_value (map (fun p => (truncate_identifier (fst p), snd p)) ps)
  = params_blocks encode_value ps.
Proof.
  induction ps as [|p ps IH]; [reflexivity|].
  cbn [map params_blocks]. rewrite IH. unfold param_block. cbn [fst snd].
  now rewrite pack_s_truncate.
Qed.

Lemma fields_blocks_truncate (fs : list (FieldData value)) :
  fields_blocks encode_value (map truncate_field fs) = fields_blocks encode_value fs.
Proof.
  induction fs as [|f fs IH]; [reflexivity|].
  cbn [map fields_blocks]. rewrite IH. unfold field_block, truncate_field.
  cbn [field_name field_id field_params].
  now rewrite pack_s_truncate, params_blocks_truncate.
Qed.

(** X8: [encode_packet] cuts Latin-1 names that are too long.  The
    packet type, the field names and the param names are strings of the
    model, that is Latin-1 strings.  Of each it writes the first four
    bytes only, and of the info the first four bytes: the packet with every
    name cut to its first four characters and the info cut to four bytes
    encodes to the same bytes, or fails in the same way. *)
Theorem encode_packet_truncates (packet_type : string) (packet_id : Z)
    (timestamp : datetime) (info : bytes) (fields : list (FieldData value)) :
  encode (truncate_identifier packet_type) packet_id timestamp (firstn 4 info)
    (map truncate_field fields)
  = encode packet_type packet_id timestamp info fields.
Proof.
  rewrite !encode_packet_eq. unfold packet_block.
  now rewrite pack_s_truncate, pack_s_firstn, fields_blocks_truncate.
Qed.

Lemma field_block_header (f : FieldData value) (b : bytes) :
  field_block encode_value f = Ok b -> field_block_headed f b.
Proof.
  unfold field_block, field_block_headed.
  destruct (pack_I (field_id f)) as [ib|] eqn:Ei; try discriminate.
  cbn [or_raise bind].
  destruct (params_blocks encode_value (field_params f)) as [bs|e|] eqn:Ep;
    try discriminate.
  cbn [bind].
  destruct (to_bytes 3 _) as [sb|] eqn:Es; try discriminate.
  cbn [or_raise bind]. intros H. apply Ok_inj in H. subst b.
  apply to_bytes_Some in Ei as [_ ->]. apply to_bytes_Some in Es as [_ ->].
  set (name := pack_s 4 (encode_latin1 (field_name f))).
  set (w := (12 + Z.of_nat (length (concat bs))) / 4).
  assert (Hl : Z.of_nat (length (name ++ le_digits 3 w ++ [x00]
                                   ++ le_digits 4 (field_id f) ++ concat bs))
               = 12 + Z.of_nat (length (concat bs))).
  { unfold name. rewrite !length_app, length_pack_s, !length_le_digits.
    cbn [length]. lia. }
  rewrite Hl. fold w.
  replace (name ++ le_digits 3 w ++ [x00] ++ le_digits 4 (field_id f) ++ concat bs)
    with (field_header name w x00 (field_id f) ++ concat bs)
    by (unfold field_header; now rewrite <- !app_assoc).
  apply firstn_exact. apply length_field_header. apply length_pack_s.
Qed.

Lemma fields_blocks_headers (fs : list (FieldData value)) :
  forall bs, fields_blocks encode_value fs = Ok bs -> Forall2 field_block_headed fs bs.
Proof.
  induction fs as [|f fs IH]; intros bs H.
  - cbn in H. apply Ok_inj in H. subst bs. constructor.
  - cbn [fields_blocks] in H.
    destruct (field_block encode_value f) as [b|e|] eqn:Eb; try discriminate.
    cbn [bind] in H.
    destruct (fields_blocks encode_value fs) as [bs'|e|] eqn:Ebs; try discriminate.
    cbn [bind] in H. apply Ok_inj in H. subst bs.
    constructor; [now apply field_block_header|now apply IH].
Qed.

(** X9: the headers that [encode_packet] writes.  Whenever it returns a
    buffer, the buffer is a packet header, one block per field, four zero
    bytes for the checksum and the footer magic.  The packet header has the
    magic [DD CC BB AA], the type cut or NUL-padded to four bytes, the
    length of the buffer in words, the packet id, the format tag
    [01 00 00 00], the two parts of the timestamp and the info cut or
    NUL-padded to four bytes.  Each field block starts with the name cut or
    NUL-padded to four bytes, the length of the block in words, a zero type
    id and the field id.  The length of the buffer is a multiple of 4. *)
Theorem encode_packet_headers (packet_type : string) (packet_id : Z)
    (timestamp : datetime) (info : bytes) (fields : list (FieldData value))
    (buf : bytes) :
  encode packet_type packet_id timestamp info fields = Ok buf ->
  exists field_blocks : list bytes,
    buf = packet_header (pack_s 4 (encode_latin1 packet_type))
            (Z.of_nat (length buf) / 4) packet_id PACKET_FORMAT_TAG
            (fst (datetime_to_unix timestamp)) (snd (datetime_to_unix timestamp))
            (pack_s 4 info)
          ++ concat field_blocks ++ [x00; x00; x00; x00] ++ PACKET_FOOTER_MAGIC /\
    Forall2 field_block_headed fields field_blocks /\
    Z.of_nat (length buf) mod 4 = 0.
Proof.
  intros H.
  pose proof (length_encode_packet _ _ _ _ _ _ H) as Hlen.
  rewrite encode_packet_eq in H. unfold packet_block in H.
  destruct (datetime_to_unix timestamp) as [time nano]. cbn [fst snd].
  destruct (pack_I packet_id) as [ib|] eqn:Ei; try discriminate.
  destruct (pack_I time) as [tb|] eqn:Et; try discriminate.
  destruct (pack_I nano) as [nb|] eqn:En; try discriminate.
  cbn [or_raise bind] in H.
  destruct (fields_blocks encode_value fields) as [bs|e|] eqn:Ef; try discriminate.
  cbn [bind] in H.
  destruct (to_bytes 4 _) as [sb|] eqn:Es; try discriminate.
  cbn [or_raise bind] in H. apply Ok_inj in H.
  apply to_bytes_Some in Ei as [_ ->]. apply to_bytes_Some in Et as [_ ->].
  apply to_bytes_Some in En as [_ ->]. apply to_bytes_Some in Es as [_ ->].
  pose proof (fields_blocks_headers _ _ Ef) as Hh.
  apply fields_blocks_Ok in Ef as [_ Hl].
  exists bs. rewrite Hlen, <- Hl. split; [|split; [exact Hh|]].
  - rewrite <- H at 1. unfold packet_header. rewrite <- !app_assoc. reflexivity.
  - rewrite Hl. destruct (fields_wire_size_aligned fields) as [k [Hk _]].
    rewrite Hk. replace (32 + 4 * k + 8) with ((10 + k) * 4) by lia.
    apply Z.mod_mul. lia.
Qed.

End Encoder.

End EncoderMore.

(** ** More on the client *)

Module ClientMoreTheorems.

Import ClientTheorems ReaderTheorems.

Lemma od_get_od_set {V : Type} (k k' : string) (v : V) (d : odict V) :
  od_get k (od_set k' v d) = if String.eqb k' k then Some v else od_get k d.
Proof.
  induction d as [|[k0 v0] d IH]; cbn [od_set od_get].
  - reflexivity.
  - destruct (String.eqb k0 k') eqn:E; cbn [od_get].
    + apply String.eqb_eq in E. subst k0.
      destruct (String.eqb k' k); reflexivity.
    + rewrite IH. destruct (String.eqb k0 k) eqn:E0; [|reflexivity].
      apply String.eqb_eq in E0. subst k0. now rewrite String.eqb_sym, E.
Qed.

Lemma find_app_first {A : Type} (p : A -> bool) (l1 l2 : list A) :
  find p (l1 ++ l2) = match find p l1 with
                      | Some x => Some x
                      | None => find p l2
                      end.
Proof.
  induction l1 as [|x l1 IH]; [reflexivity|].
  cbn [app find]. destruct (p x); [reflexivity|exact IH].
Qed.

Section Client.

Context {value datetime : Type}.

Local Abbreviation Client := (Client value datetime).
Local Abbreviation Packet := (PacketData value datetime).
Local Abbreviation Field := (FieldData value).
Local Abbreviation future := (future value datetime).

Open Scope string_scope.
Open Scope list_scope.

(** *** [decode_fields] *)

Lemma decode_fields_fold (k : string) (fields : list Field) :
  forall acc : odict (odict value),
    od_get k (fold_left (fun d f => od_set (field_name f) (field_params f) d) fields acc)
    = match find (fun f => String.eqb (field_name f) k) (rev fields) with
      | Some f => Some (field_params f)
      | None => od_get k acc
      end /\
    (NoDup (map fst acc) ->
     NoDup (map fst
              (fold_left (fun d f => od_set (field_name f) (field_params f) d)
                 fields acc))).
Proof.
  induction fields as [|f fields IH]; intros acc.
  - cbn. auto.
  - cbn [fold_left rev]. destruct (IH (od_set (field_name f) (field_params f) acc))
      as [Hget Hnd].
    split.
    + rewrite Hget, find_app_first.
      destruct (find _ (rev fields)) as [f'|]; [reflexivity|].
      cbn [find]. rewrite od_get_od_set.
      destruct (String.eqb (field_name f) k); reflexivity.
    + intros H. apply Hnd. now apply DecoderMore.NoDup_od_set.
Qed.

(** X10: [decode_fields] of the client makes a dict of the fields.  Under
    a name stand the params of the last field of that name, and no name
    stands twice: of two fields with one name the earlier is dropped. *)
Theorem decode_fields_last_wins (fields : list Field) (k : string) :
  od_get k (ClientMore.decode_fields fields)
  = option_map field_params
      (find (fun f => String.eqb (field_name f) k) (rev fields)) /\
  NoDup (map fst (ClientMore.decode_fields fields)).
Proof.
  unfold ClientMore.decode_fields.
  destruct (decode_fields_fold k fields []) as [Hget Hnd]. split.
  - rewrite Hget. destruct (find _ (rev fields)); reflexivity.
  - apply Hnd. constructor.
Qed.

(** *** [recv_field] *)

Lemma recv_field_scan_no_match (self : Client) (t name : string) (fid : option Z)
    (fields : list Field) (ws : list (exception value)) :
  forallb (fun f => negb (field_matches name fid f)) fields = true ->
  recv_field_scan self t name fid fields ws = (Ok None, ws).
Proof.
  induction fields as [|f fields IH]; [reflexivity|].
  cbn [forallb recv_field_scan]. intros H. apply andb_true_iff in H as [Hf H].
  apply negb_true_iff in Hf. rewrite Hf. now apply IH.
Qed.

Lemma recv_field_packet_no_match (self : Client) (t name : string) (fid : option Z)
    (packet : Packet) (ws : list (exception value)) :
  ClientMore.no_match t name fid packet = true ->
  recv_field_packet self t name fid packet ws = (Ok None, ws).
Proof.
  unfold ClientMore.no_match, recv_field_packet. intros H.
  destruct (String.eqb (packet_type packet) t); [|reflexivity].
  cbn [negb orb] in H. now apply recv_field_scan_no_match.
Qed.

(** X11: [recv_field] passes over what is not for it.  Packets of another
    type, and packets of the awaited type none of whose fields has the
    awaited name and id, are dropped one after the other: no auto-handler
    runs on them, whatever params they carry, no warning is emitted, and
    the call stands as it does on the deliveries after them. *)
Theorem recv_field_skips_unrelated (self : Client) (t name : string)
    (fid : option Z) (packets : list Packet)
    (rest : list (result value Packet)) (ws : list (exception value)) :
  forallb (ClientMore.no_match t name fid) packets = true ->
  recv_field self t name fid (map Ok packets ++ rest) ws
  = recv_field self t name fid rest ws.
Proof.
  induction packets as [|p packets IH]; [reflexivity|].
  cbn [forallb map app recv_field]. intros H. apply andb_true_iff in H as [Hp H].
  rewrite recv_field_packet_no_match by exact Hp. now apply IH.
Qed.

(** X12: auto-ackn.  A matching field reaches the ackn handler: the erro
    handler does not raise on it (auto-erro is off, or the field has
    neither [ERRO] nor [ERRC]) and the warn handler does not skip it
    (auto-warn is off, or the field is not named [WARN]).  With [auto_ackn]
    the field is skipped exactly when its params contain [ACKN], and the
    scan goes on with the fields after it; otherwise its params are
    returned.  A warning that the warn handler emitted for the field stays
    emitted in both cases. *)
Theorem auto_ackn_semantics (self : Client) (t name : string) (fid : option Z)
    (field : Field) (rest : list Field) (ws : list (exception value)) :
  field_matches name fid field = true ->
  _auto_erro self = false \/
  has_param "ERRO" field || has_param "ERRC" field = false ->
  _auto_warn self = false \/ String.eqb (field_name field) "WARN" = false ->
  let ws' :=
    if _auto_warn self && (has_param "WARN" field || has_param "WARC" field)
    then ws ++ [command_warning t field] else ws in
  recv_field_scan self t name fid (field :: rest) ws
  = (if _auto_ackn self && has_param "ACKN" field
     then recv_field_scan self t name fid rest ws'
     else (Ok (Some (field_params field)), ws')).
Proof.
  intros Hm Herro Hwarn ws'.
  cbn [recv_field_scan]. rewrite Hm.
  assert (He : (if _auto_erro self then _handle_erro t field else Ok false)
               = Ok false).
  { destruct Herro as [->|He]; [reflexivity|].
    destruct (_auto_erro self); [|reflexivity].
    unfold _handle_erro. unfold has_param in He. now rewrite He. }
  assert (Hw : (if _auto_warn self then _handle_warn t field ws else (Ok false, ws))
               = (Ok false, ws')).
  { unfold ws'. destruct Hwarn as [->|Hn]; [reflexivity|].
    destruct (_auto_warn self); [|reflexivity]. cbn [andb].
    unfold _handle_warn, has_param, command_warning. rewrite Hn.
    destruct (is_not_None (get_or_None "WARN" (field_params field))
              || is_not_None (get_or_None "WARC" (field_params field)));
      reflexivity. }
  rewrite He, Hw. reflexivity.
Qed.

(** X22: what the erro and warn handlers give.  [_handle_erro] never
    returns true: it returns false on a field with neither [ERRO] nor
    [ERRC], and on any other it raises a [CommandError], which has the five
    values as its arguments and none of the attributes [packet_type],
    [field_name], [field_id], [message] and [code], nor any other.
    [_handle_warn] never raises: the [CommandWarning] it emits is built
    from five arguments and has the five attributes. *)
Theorem handlers_outcomes (t : string) (field : Field) (ws : list (exception value)) :
  (if has_param "ERRO" field || has_param "ERRC" field
   then _handle_erro t field = Raise (command_error t field) /\
        forall name : string, getattr (command_error t field) name = None
   else _handle_erro t field = Ok false) /\
  (exists ws' : list (exception value),
      _handle_warn t field ws = (Ok (String.eqb (field_name field) "WARN"), ws') /\
      (ws' = ws \/
       ws' = ws ++ [command_warning t field] /\
       map (getattr (command_warning t field))
         ["packet_type"; "field_name"; "field_id"; "message"; "code"]
       = map Some (exc_args (command_warning t field)))).
Proof.
  split.
  - unfold _handle_erro, has_param.
    destruct (is_not_None (get_or_None "ERRO" (field_params field))
              || is_not_None (get_or_None "ERRC" (field_params field)));
      [|reflexivity].
    split; [reflexivity|]. intros name. reflexivity.
  - unfold _handle_warn.
    destruct (is_not_None (get_or_None "WARN" (field_params field))
              || is_not_None (get_or_None "WARC" (field_params field))).
    + eexists. split; [reflexivity|]. right. split; reflexivity.
    + eexists. split; [reflexivity|]. left. reflexivity.
Qed.

(** *** [send], [ClientResponse] and [execute] *)

Lemma od_get_keys {V : Type} (k : string) (d : odict V) :
  od_get k d = None <-> ~ In k (map fst d).
Proof.
  induction d as [|[k' v] d IH]; cbn [od_get map fst In].
  - tauto.
  - destruct (String.eqb k' k) eqn:E.
    + apply String.eqb_eq in E. split; [discriminate|]. intros H. exfalso. auto.
    + apply String.eqb_neq in E. rewrite IH. tauto.
Qed.

Lemma od_get_in {V : Type} (k : string) (v : V) (d : odict V) :
  NoDup (map fst d) -> In (k, v) d -> od_get k d = Some v.
Proof.
  induction d as [|[k' v'] d IH]; cbn [od_get map fst In]; intros Hnd Hin;
    [contradiction|].
  apply NoDup_cons_iff in Hnd as [Hn Hnd].
  destruct Hin as [[= -> ->]|Hin].
  - now rewrite String.eqb_refl.
  - destruct (String.eqb k' k) eqn:E; [|now apply IH].
    apply String.eqb_eq in E. subst k'. exfalso. apply Hn.
    change k with (fst (k, v)). now apply in_map.
Qed.

(** X13: what [send] writes and what its response knows.  [send] writes
    one packet of the given type, with one field for each item of the dict,
    in order, with the name and the params of the item; the ids of the
    fields are the next values of the counter and the id of the packet the
    one after.  The response maps the name of every field written to the id
    it was written with, and [recv_field] of the response for any other
    name is a [KeyError]. *)
Theorem send_response_lookup (self : Client) (t : string)
    (fields : odict (odict value)) :
  NoDup (map fst fields) ->
  exists fs : list Field,
    let '(self', response) := ClientMore.send_response self t fields in
    _writer self'
    = _writer self ++ [(t, _id_gen self + Z.of_nat (length fields) + 1, fs)] /\
    map (fun f => (field_name f, field_params f)) fs = fields /\
    map field_id fs = map (fun k => _id_gen self + Z.of_nat k) (seq 1 (length fields)) /\
    ClientMore._packet_type response = t /\
    Forall (fun f => od_get (field_name f) (ClientMore._fields_lookup response)
                     = Some (field_id f)) fs /\
    forall (name : string) (deliveries : list (result value Packet))
           (ws : list (exception value)),
      ClientMore.response_recv_field response self' name deliveries ws = None
      <-> ~ In name (map fst fields).
Proof.
  intros Hnd. unfold ClientMore.send_response, send.
  pose proof (send_fields_spec fields self) as H.
  destruct (send_fields self fields) as [self1 fs].
  destruct H as [Hg [Hw [Hids Hfs]]].
  exists fs. unfold _gen_id.
  cbn [set_writer set_id_gen _writer _id_gen ClientMore._packet_type
         ClientMore._fields_lookup].
  assert (Hkeys : map fst (map (fun f => (field_name f, field_id f)) fs)
                  = map fst fields).
  { rewrite <- Hfs, !map_map. reflexivity. }
  rewrite Hg, Hw. repeat split; try assumption.
  - apply Forall_forall. intros f Hin. apply od_get_in.
    + rewrite Hkeys. exact Hnd.
    + apply (in_map (fun f => (field_name f, field_id f))) in Hin. exact Hin.
  - unfold ClientMore.response_recv_field. cbn [ClientMore._fields_lookup].
    destruct (od_get name _) eqn:E; [discriminate|].
    intros _. apply od_get_keys in E. now rewrite Hkeys in E.
  - unfold ClientMore.response_recv_field. cbn [ClientMore._fields_lookup].
    intros Hn. rewrite <- Hkeys in Hn. apply od_get_keys in Hn. now rewrite Hn.
Qed.

Lemma send_one (self : Client) (t name : string) (params : odict value) :
  send self t [(name, params)]
  = (mkClient (_auto_erro self) (_auto_warn self) (_auto_ackn self) (_id_gen self + 2)
       (_writer self
          ++ [(t, _id_gen self + 2, [mkFieldData name (_id_gen self + 1) params])])
       (_waiters self) (next_future self),
     [(name, _id_gen self + 1)]).
Proof.
  unfold send, send_fields, _gen_id, set_writer, set_id_gen.
  cbn [_auto_erro _auto_warn _auto_ackn _id_gen _writer _waiters next_future
         map field_name field_id].
  replace (_id_gen self + 1 + 1) with (_id_gen self + 2) by lia. reflexivity.
Qed.

(** X14: [execute] waits for the reply to the field it sent.  It writes one
    packet with one field, the field with the next value of the counter as
    its id and the packet with the one after, an absent [params] standing
    for no params; then it is [recv_field] for that name and that field id:
    the lookup of the id never fails, and a packet none of whose fields has
    that id is passed over. *)
Theorem execute_correlates_by_id (self : Client) (t name : string)
    (params : option (odict value)) (packet : Packet)
    (deliveries : list (result value Packet)) (ws : list (exception value)) :
  let g := _id_gen self in
  let sent := mkFieldData name (g + 1) match params with
                                       | Some p => p
                                       | None => []
                                       end in
  let self' := mkClient (_auto_erro self) (_auto_warn self) (_auto_ackn self) (g + 2)
                 (_writer self ++ [(t, g + 2, [sent])])
                 (_waiters self) (next_future self) in
  ClientMore.execute self t name params deliveries ws
  = (self', Some (recv_field self' t name (Some (g + 1)) deliveries ws)) /\
  (forallb (fun f => negb (Z.eqb (field_id f) (g + 1))) (packet_fields packet) = true ->
   recv_field self' t name (Some (g + 1)) (Ok packet :: deliveries) ws
   = recv_field self' t name (Some (g + 1)) deliveries ws).
Proof.
  intros g sent self'. split.
  - unfold ClientMore.execute, ClientMore.send_response. rewrite send_one.
    unfold ClientMore.response_recv_field.
    cbn [ClientMore._fields_lookup ClientMore._packet_type od_get].
    rewrite String.eqb_refl. reflexivity.
  - intros Hids. cbn [recv_field].
    rewrite recv_field_packet_no_match; [reflexivity|].
    unfold ClientMore.no_match. apply orb_true_iff. right.
    apply forallb_forall. intros f Hin.
    pose proof (proj1 (forallb_forall _ _) Hids f Hin) as Hf. cbv beta in Hf.
    unfold field_matches. apply negb_true_iff in Hf. rewrite Hf.
    now rewrite andb_false_r.
Qed.


(** *** The reader and the waiters *)

Lemma set_waiters_same (self : Client) : set_waiters self (_waiters self) = self.
Proof. now destruct self. Qed.

Lemma map_resolve_done (outcome : future) (l : list (nat * future)) :
  Forall (fun w => done (snd w) = true) l ->
  map (fun w => if done (snd w) then w else (fst w, outcome)) l = l.
Proof.
  induction 1 as [|w l Hw _ IH]; [reflexivity|].
  cbn [map]. now rewrite Hw, IH.
Qed.

Lemma filter_active_done (l : list (nat * future)) :
  Forall (fun w => done (snd w) = true) l ->
  filter (fun w => negb (done (snd w))) l = [].
Proof.
  induction 1 as [|w l Hw _ IH]; [reflexivity|].
  cbn [filter]. now rewrite Hw.
Qed.

Lemma resolve_active_all_done (self : Client) (outcome : future) :
  Forall (fun w => done (snd w) = true) (_waiters self) ->
  resolve_active self outcome = self.
Proof.
  intros H. unfold resolve_active. rewrite map_resolve_done by exact H.
  apply set_waiters_same.
Qed.

Lemma resolve_active_done (self : Client) (outcome : future) :
  done outcome = true ->
  Forall (fun w => done (snd w) = true) (_waiters (resolve_active self outcome)).
Proof.
  intros Hd. unfold resolve_active. cbn [set_waiters _waiters].
  apply Forall_map. apply Forall_forall. intros w _.
  destruct (done (snd w)) eqn:E; [exact E|exact Hd].
Qed.

Lemma run_reader_all_done (reads : list (read_event value datetime)) :
  forall (self : Client) (n : nat),
    Forall (fun w => done (snd w) = true) (_waiters self) ->
    fst (fst (_run_reader self reads n)) = self.
Proof.
  induction reads as [|[packet| |ex] reads IH]; intros self n H;
    cbn [_run_reader fst]; try reflexivity.
  - rewrite resolve_active_all_done by exact H. now apply IH.
  - rewrite resolve_active_all_done by exact H. now apply IH.
Qed.

(** X15: the reader stops at a cancellation.  After events that are not
    cancellations, a cancellation ends [_run_reader]: the waiters are as
    the events before it left them, the cancellation resolving none, and
    no event after it is read. *)
Theorem reader_stops_at_cancellation (pre rest : list (read_event value datetime)) :
  existsb cancelled pre = false ->
  forall (self : Client) (n : nat),
    _run_reader self (pre ++ ReadCancelled :: rest) n
    = (fst (fst (_run_reader self pre n)), ReaderCancelled, S (n + length pre)).
Proof.
  induction pre as [|r pre IH]; intros H self n.
  - cbn. now rewrite Nat.add_0_r.
  - cbn [existsb] in H. apply orb_false_iff in H as [Hr H].
    destruct r as [packet| |ex]; try discriminate;
      cbn [app _run_reader length fst]; rewrite IH by exact H;
      (f_equal; lia).
Qed.

(** X16: a waiter takes one outcome.  Once the reader has read a packet or
    an error, every future of the set is done; what it reads after that,
    before a caller has run, reaches no caller: the client is as the first
    read left it. *)
Theorem reader_keeps_first_outcome (self : Client) (r : read_event value datetime)
    (reads : list (read_event value datetime)) (n : nat) :
  cancelled r = false ->
  _active_waiters (fst (fst (_run_reader self [r] n))) = [] /\
  fst (fst (_run_reader self (r :: reads) n)) = fst (fst (_run_reader self [r] n)).
Proof.
  intros Hr.
  assert (Hdone : forall outcome, done outcome = true ->
             _active_waiters (resolve_active self outcome) = [] /\
             fst (fst (_run_reader (resolve_active self outcome) reads (S n)))
             = resolve_active self outcome).
  { intros outcome Hd. pose proof (resolve_active_done self outcome Hd) as HF.
    split; [|now apply run_reader_all_done].
    unfold _active_waiters. now apply filter_active_done. }
  destruct r as [packet| |ex]; try discriminate; cbn [_run_reader fst];
    now apply Hdone.
Qed.

Lemma filter_all {A : Type} (p : A -> bool) (l : list A) :
  Forall (fun x => p x = true) l -> filter p l = l.
Proof.
  induction 1 as [|x l Hx _ IH]; [reflexivity|].
  cbn [filter]. now rewrite Hx, IH.
Qed.

Lemma start_callers_eq (t f : string) (n : nat) :
  forall self : Client,
    start_callers self (repeat (t, f, None) n)
    = (mkClient (_auto_erro self) (_auto_warn self) (_auto_ackn self) (_id_gen self)
         (_writer self)
         (_waiters self ++ map (fun k => (k, Pending)) (seq (next_future self) n))
         (next_future self + n),
       map (mkCaller t f None) (seq (next_future self) n)).
Proof.
  induction n as [|n IH]; intros self.
  - cbn. rewrite app_nil_r, Nat.add_0_r. now destruct self.
  - cbn [repeat start_callers]. unfold _wait_for_packet. rewrite IH.
    cbn [_auto_erro _auto_warn _auto_ackn _id_gen _writer _waiters next_future
           seq map].
    rewrite <- app_assoc. cbn [app].
    replace (S (next_future self) + n)%nat with (next_future self + S n)%nat by lia.
    reflexivity.
Qed.

Lemma resume_all_raised (t f : string) (ex : exception value) (ks : list nat) :
  forall (base : list (nat * future)) (self : Client),
    NoDup ks ->
    Forall (fun w => ~ In (fst w) ks) base ->
    _waiters self = base ++ map (fun k => (k, Exception ex)) ks ->
    resume_all self (map (mkCaller t f None) ks)
    = (set_waiters self base,
       map (fun k => (mkCaller t f None k, Raised ex)) ks).
Proof.
  induction ks as [|k ks IH]; intros base self Hnd Hbase Hw.
  - cbn in *. rewrite app_nil_r in Hw. rewrite <- Hw. now rewrite set_waiters_same.
  - apply NoDup_cons_iff in Hnd as [Hk Hnd].
    cbn [map resume_all]. unfold resume, _wait_for_packet_resume.
    cbn [caller_waiter]. rewrite Hw.
    rewrite lookup_future_app.
    2:{ eapply Forall_impl; [|exact Hbase]. cbv beta. intros w Hn Heq.
        apply Hn. left. now symmetry. }
    cbn [map lookup_future]. rewrite Nat.eqb_refl.
    set (self1 := set_waiters self _).
    assert (Hw1 : _waiters self1 = base ++ map (fun k => (k, Exception ex)) ks).
    { unfold self1. cbn [set_waiters _waiters]. rewrite filter_app. cbn [filter fst].
      rewrite Nat.eqb_refl. cbn [negb]. f_equal.
      - apply filter_all. eapply Forall_impl; [|exact Hbase]. cbv beta.
        intros w Hn. apply negb_true_iff, Nat.eqb_neq. intros Heq.
        apply Hn. left. now symmetry.
      - apply filter_all. apply Forall_map. apply Forall_forall. intros k' Hin.
        cbn [fst]. apply negb_true_iff, Nat.eqb_neq. intros ->. contradiction. }
    rewrite (IH base self1 Hnd); [|
      eapply Forall_impl; [|exact Hbase]; cbv beta; intros w Hn Hin;
      apply Hn; now right | exact Hw1].
    unfold self1. reflexivity.
Qed.

(** X17: an exception reaches every caller, and no waiter is left behind.
    [n] callers are suspended in [recv_field] and every active waiter is
    given an exception, as the reader does with a read error and [close]
    with [ConnectionClosed].  Each of the [n] calls raises that exception,
    and each has taken its future out of the set: the set is as it would
    be had the calls not been made. *)
Theorem exception_reaches_every_caller (self : Client) (n : nat) (t f : string)
    (ex : exception value) :
  waiters_fresh self ->
  ClientMore.fan_out_outcome self n t f (Exception ex)
  = (mkClient (_auto_erro self) (_auto_warn self) (_auto_ackn self) (_id_gen self)
       (_writer self) (_waiters (resolve_active self (Exception ex)))
       (next_future self + n),
     repeat (Raised ex) n).
Proof.
  intros Hfresh. unfold ClientMore.fan_out_outcome. rewrite start_callers_eq.
  set (self1 := mkClient _ _ _ _ _ _ _).
  rewrite (resume_all_raised t f ex (seq (next_future self) n)
             (_waiters (resolve_active self (Exception ex)))).
  - rewrite map_map. cbn [snd]. f_equal.
    rewrite map_const, length_seq. reflexivity.
  - apply seq_NoDup.
  - unfold resolve_active. cbn [set_waiters _waiters].
    apply Forall_map. eapply Forall_impl; [|exact Hfresh]. cbv beta.
    intros w Hlt Hin. apply in_seq in Hin.
    destruct (done (snd w)); cbn [fst] in Hin; lia.
  - unfold resolve_active, self1. cbn [set_waiters _waiters].
    rewrite map_app, map_map. reflexivity.
Qed.


End Client.

(** *** The life of a connection *)

Section Lifecycle.

Context {value datetime : Type}.

Local Abbreviation Client := (Client value datetime).
Local Abbreviation Packet := (PacketData value datetime).
Local Abbreviation Field := (FieldData value).
Local Abbreviation future := (future value datetime).
Local Abbreviation Link := (ClientMore.Link value datetime).

Variable CLIENT_ID : value.
Variable ConnectionClosed : exception value.

Local Abbreviation close := (ClientMore.close ConnectionClosed).
Local Abbreviation _handle_auth := (ClientMore._handle_auth (datetime := datetime) CLIENT_ID).
Local Abbreviation ccre_packet := (ClientMore.ccre_packet CLIENT_ID).
Local Abbreviation care_packet := (ClientMore.care_packet CLIENT_ID).

Open Scope string_scope.
Open Scope list_scope.

(** X18: [close].  It cancels the reader and closes the writer; every
    future of the set that is not done gets [ConnectionClosed], and a
    future that is done keeps the packet or the exception it has.
    Afterwards no waiter is active, and a second [close] changes nothing. *)
Theorem close_rejects_pending (l : Link) :
  ClientMore.reader_cancelled (close l) = true /\
  ClientMore.writer_closed (close l) = true /\
  map fst (_waiters (ClientMore.link_client (close l)))
  = map fst (_waiters (ClientMore.link_client l)) /\
  (forall (w : nat) (x : future),
      In (w, x) (_waiters (ClientMore.link_client l)) ->
      In (w, if done x then x else Exception ConnectionClosed)
        (_waiters (ClientMore.link_client (close l)))) /\
  _active_waiters (ClientMore.link_client (close l)) = [] /\
  close (close l) = close l.
Proof.
  unfold ClientMore.close.
  cbn [ClientMore.reader_cancelled ClientMore.writer_closed ClientMore.link_client].
  set (self := ClientMore.link_client l).
  pose proof (resolve_active_done self (Exception ConnectionClosed) eq_refl) as HF.
  repeat split.
  - unfold resolve_active. cbn [set_waiters _waiters]. rewrite map_map.
    apply map_ext. intros w. now destruct (done (snd w)).
  - intros w x Hin. unfold resolve_active. cbn [set_waiters _waiters].
    apply (in_map (fun w => if done (snd w) then w
                            else (fst w, Exception ConnectionClosed))) in Hin.
    cbn [fst snd] in Hin. now destruct (done x).
  - unfold _active_waiters. now apply filter_active_done.
  - f_equal. now apply resolve_active_all_done.
Qed.

(** *** The handshake *)

Lemma recv_field_rest_recv_field (self : Client) (t name : string) (fid : option Z)
    (deliveries : list (result value Packet)) :
  forall ws : list (exception value),
    fst (ClientMore.recv_field_rest self t name fid deliveries ws)
    = recv_field self t name fid deliveries ws.
Proof.
  induction deliveries as [|[packet|e|] rest IH]; intros ws;
    cbn [ClientMore.recv_field_rest recv_field]; try reflexivity.
  destruct (recv_field_packet self t name fid packet ws) as [[[ps|]|e|] ws'];
    try reflexivity.
  apply IH.
Qed.

Lemma recv_field_rest_flags (self self' : Client) (t name : string) (fid : option Z)
    (deliveries : list (result value Packet)) :
  same_flags self self' ->
  forall ws : list (exception value),
    ClientMore.recv_field_rest self t name fid deliveries ws
    = ClientMore.recv_field_rest self' t name fid deliveries ws.
Proof.
  intros Hflags.
  induction deliveries as [|[packet|e|] rest IH]; intros ws;
    cbn [ClientMore.recv_field_rest]; try reflexivity.
  unfold recv_field_packet.
  rewrite (recv_field_scan_flags self self') by exact Hflags.
  destruct (String.eqb (packet_type packet) t); [|apply IH].
  destruct (recv_field_scan self' t name fid (packet_fields packet) ws)
    as [[[ps|]|e|] ws']; try reflexivity.
  apply IH.
Qed.

Lemma send_one_fields (self self' : Client) (t name : string) (params : odict value)
    (lookup : odict Z) :
  send self t [(name, params)] = (self', lookup) ->
  _writer self'
  = _writer self ++ [(t, _id_gen self + 2, [mkFieldData name (_id_gen self + 1) params])] /\
  _id_gen self' = _id_gen self + 2 /\
  _waiters self' = _waiters self /\
  same_flags self self'.
Proof.
  rewrite send_one. intros H. apply pair_equal_spec in H as [<- _].
  cbn [_writer _id_gen _waiters]. repeat split.
Qed.

(** X19: what the handshake writes.  However the deliveries turn out,
    [_handle_auth] has written nothing, or the [CCRE] request, or the
    [CCRE] request and then the [CARE] request, each a [LINK] packet with
    one field that carries [CLIENT_ID], on the next values of the counter,
    two for each request; the configuration is as it was.  It has written
    the [CCRE] request exactly when its first [recv_field], for [HELO], has
    returned: when that call raises, [_handle_auth] raises the same and has
    written nothing, and when that call waits, it waits and has written
    nothing.  It is done only after both requests. *)
Theorem handle_auth_writes (self : Client) (deliveries : list (result value Packet))
    (ws : list (exception value)) :
  let g := _id_gen self in
  let self' := fst (fst (_handle_auth self deliveries ws)) in
  let status := snd (fst (_handle_auth self deliveries ws)) in
  exists k : nat,
    (k <= 2)%nat /\
    _writer self' = _writer self ++ firstn k [ccre_packet g; care_packet g] /\
    _id_gen self' = g + 2 * Z.of_nat k /\
    same_flags self self' /\
    (status = ClientMore.AuthDone -> k = 2%nat) /\
    match fst (recv_field self "LINK" "HELO" None deliveries ws) with
    | Returned _ => (1 <= k)%nat
    | Raised e => k = 0%nat /\ status = ClientMore.AuthRaised e
    | Waiting => k = 0%nat /\ status = ClientMore.AuthWaiting
    end.
Proof.
  intros g self' status. subst self' status.
  unfold ClientMore._handle_auth.
  rewrite <- recv_field_rest_recv_field.
  assert (Hflags0 : same_flags self self) by (repeat split).
  destruct (ClientMore.recv_field_rest self "LINK" "HELO" None deliveries ws)
    as [[[ps|e|] ws1] ds1]; cbn [fst snd].
  2:{ exists 0%nat. cbn [firstn]. rewrite app_nil_r, Z.add_0_r.
      refine (conj _ (conj _ (conj _ (conj Hflags0 (conj _ _)))));
        try reflexivity; try discriminate; try lia.
      split; reflexivity. }
  2:{ exists 0%nat. cbn [firstn]. rewrite app_nil_r, Z.add_0_r.
      refine (conj _ (conj _ (conj _ (conj Hflags0 (conj _ _)))));
        try reflexivity; try discriminate; try lia.
      split; reflexivity. }
  destruct (send self "LINK" [("CCRE", [("CIW", CLIENT_ID)])]) as [self1 r1] eqn:E1.
  apply send_one_fields in E1 as [Hw1 [Hg1 [_ Hf1]]].
  assert (H1 : _writer self1 = _writer self ++ firstn 1 [ccre_packet g; care_packet g]).
  { rewrite Hw1. reflexivity. }
  destruct (ClientMore.recv_field_rest self1 "LINK" "SCAR" None ds1 ws1)
    as [[[ps2|e|] ws2] ds2]; cbn [fst snd].
  2:{ exists 1%nat.
      refine (conj _ (conj H1 (conj _ (conj Hf1 (conj _ _)))));
        try discriminate; unfold g; lia. }
  2:{ exists 1%nat.
      refine (conj _ (conj H1 (conj _ (conj Hf1 (conj _ _)))));
        try discriminate; unfold g; lia. }
  destruct (send self1 "LINK" [("CARE", [("CAR", CLIENT_ID)])]) as [self2 r2] eqn:E2.
  apply send_one_fields in E2 as [Hw2 [Hg2 [_ Hf2]]].
  assert (H2 : _writer self2 = _writer self ++ firstn 2 [ccre_packet g; care_packet g]).
  { rewrite Hw2, Hw1, Hg1, <- app_assoc.
    unfold ClientMore.ccre_packet, ClientMore.care_packet, g. cbn [firstn app].
    replace (_id_gen self + 2 + 2) with (_id_gen self + 4) by lia.
    replace (_id_gen self + 2 + 1) with (_id_gen self + 3) by lia.
    reflexivity. }
  assert (Hf : same_flags self self2).
  { destruct Hf1 as [A1 [B1 C1]]. destruct Hf2 as [A2 [B2 C2]].
    repeat split; congruence. }
  exists 2%nat.
  destruct (ClientMore.recv_field_rest self2 "LINK" "SCON" None ds2 ws2)
    as [[[ps3|e|] ws3] ds3]; cbn [fst snd];
    (refine (conj _ (conj H2 (conj _ (conj Hf (conj _ _)))));
     try discriminate; try reflexivity; unfold g; lia).
Qed.


Lemma existsb_find {A : Type} (p : A -> bool) (l : list A) :
  existsb p l = true -> exists x, find p l = Some x.
Proof.
  induction l as [|x l IH]; [discriminate|].
  cbn [existsb find]. destruct (p x); [eauto|exact IH].
Qed.

Lemma recv_field_rest_answer (self0 self : Client) (name : string) (packet : Packet)
    (rest : list (result value Packet)) (ws : list (exception value)) :
  same_flags self0 self ->
  ClientMore.answers self0 name packet ->
  exists (params : odict value) (ws' : list (exception value)),
    ClientMore.recv_field_rest self "LINK" name None (Ok packet :: rest) ws
    = (Returned params, ws', rest).
Proof.
  intros Hflags [Ht [Hex Hunf]].
  rewrite <- (recv_field_rest_flags self0 self) by exact Hflags.
  cbn [ClientMore.recv_field_rest]. unfold recv_field_packet.
  rewrite Ht, String.eqb_refl.
  destruct (recv_field_scan_unfiltered self0 "LINK" name (packet_fields packet) ws Hunf)
    as [ws' Hscan].
  destruct (existsb_find _ _ Hex) as [fld Hfind].
  rewrite Hscan, Hfind. cbn [option_map]. eauto.
Qed.

(** X20: the handshake completes.  When a [LINK] packet with a [HELO]
    field, one with a [SCAR] field and one with a [SCON] field are
    delivered in this order, none of these fields being filtered by an
    auto-handler, [_handle_auth] is done, and it has written the [CCRE]
    request and then the [CARE] request. *)
Theorem handle_auth_completes (self : Client) (helo scar scon : Packet)
    (ws : list (exception value)) :
  ClientMore.answers self "HELO" helo ->
  ClientMore.answers self "SCAR" scar ->
  ClientMore.answers self "SCON" scon ->
  snd (fst (_handle_auth self [Ok helo; Ok scar; Ok scon] ws)) = ClientMore.AuthDone /\
  _writer (fst (fst (_handle_auth self [Ok helo; Ok scar; Ok scon] ws)))
  = _writer self ++ [ccre_packet (_id_gen self); care_packet (_id_gen self)].
Proof.
  intros H1 H2 H3. unfold ClientMore._handle_auth.
  destruct (recv_field_rest_answer self self "HELO" helo [Ok scar; Ok scon] ws
              ltac:(repeat split) H1) as [ps1 [ws1 ->]].
  destruct (send self "LINK" [("CCRE", [("CIW", CLIENT_ID)])]) as [self1 r1] eqn:E1.
  apply send_one_fields in E1 as [Hw1 [Hg1 [_ Hf1]]].
  destruct (recv_field_rest_answer self self1 "SCAR" scar [Ok scon] ws1 Hf1 H2)
    as [ps2 [ws2 ->]].
  destruct (send self1 "LINK" [("CARE", [("CAR", CLIENT_ID)])]) as [self2 r2] eqn:E2.
  apply send_one_fields in E2 as [Hw2 [Hg2 [_ Hf2]]].
  assert (Hf : same_flags self self2).
  { destruct Hf1 as [A1 [B1 C1]]. destruct Hf2 as [A2 [B2 C2]].
    repeat split; congruence. }
  destruct (recv_field_rest_answer self self2 "SCON" scon [] ws2 Hf H3)
    as [ps3 [ws3 ->]].
  cbn [fst snd]. split; [reflexivity|].
  rewrite Hw2, Hw1, Hg1, <- app_assoc.
  unfold ClientMore.ccre_packet, ClientMore.care_packet. cbn [app].
  replace (_id_gen self + 2 + 2) with (_id_gen self + 4) by lia.
  replace (_id_gen self + 2 + 1) with (_id_gen self + 3) by lia.
  reflexivity.
Qed.

End Lifecycle.

End ClientMoreTheorems.

(** ** More of the packet codec on concrete packets *)

Module PacketMoreExamples.

Import DecoderMore EncoderMore.

Open Scope string_scope.
Open Scope list_scope.

Lemma decode_identifier_trims_witness :
  decode_identifier [x41; x20; x42; x20; x00; x20] = "A B" /\
  decode_identifier [x20; x00; x20; x00] = "".
Proof.
  split.
  - exact (proj1 (proj2 (proj2 (decode_identifier_trims [x41; x20])))
             x42 [x20; x00; x20] eq_refl eq_refl).
  - exact (proj1 (proj2 (proj2 (proj2 (decode_identifier_trims [x20; x00; x20; x00]))))
             eq_refl).
Defined.

Lemma decode_packet_accepts_framed_only_witness :
  Sample.decode 100 (wire_packet_bytes Sample.echo_wire) = (Ok Sample.echo_packet, []) /\
  Z.of_nat (length (wire_packet_bytes Sample.echo_wire))
  = from_bytes (slice (wire_packet_bytes Sample.echo_wire) 8 12) * 4 /\
  slice (wire_packet_bytes Sample.echo_wire) 0 4 = PACKET_HEADER_MAGIC.
Proof.
  assert (H : Sample.decode 100 (wire_packet_bytes Sample.echo_wire)
              = (Ok Sample.echo_packet, [])) by (vm_compute; reflexivity).
  split; [exact H|].
  destruct (decode_packet_accepts_framed_only Sample.decode_value
              Sample.unix_to_datetime _ _ _ _ H) as [H1 [_ [H2 _]]].
  split; [exact H1|exact H2].
Defined.

Lemma decode_packet_shape_witness :
  Sample.decode 100 (wire_packet_bytes Sample.echo_wire) = (Ok Sample.echo_packet, []) /\
  decoded_packet Sample.echo_packet.
Proof.
  assert (H : Sample.decode 100 (wire_packet_bytes Sample.echo_wire)
              = (Ok Sample.echo_packet, [])) by (vm_compute; reflexivity).
  split; [exact H|].
  exact (decode_packet_shape Sample.decode_value Sample.unix_to_datetime _ _ _ _ H).
Defined.

Lemma decode_packet_diagnostics_witness :
  Sample.decode 100 (Sample.bad_magic_header ++ PACKET_FOOTER)
  = (Raise arity_error, []) /\
  decoder_exception Sample.decode_value (@arity_error Sample.value).
Proof.
  assert (H : Sample.decode 100 (Sample.bad_magic_header ++ PACKET_FOOTER)
              = (Raise arity_error, [])) by (vm_compute; reflexivity).
  split; [exact H|].
  exact (proj1 (proj2 (decode_packet_diagnostics Sample.decode_value
                         Sample.unix_to_datetime _ _ _ _ H) _ eq_refl)).
Defined.

Lemma decode_packet_keeps_field_order_witness :
  wire_packet_ok Sample.echo_wire_garbled = true /\
  map (fun f => (field_name f, field_id f)) (packet_fields Sample.echo_packet)
  = [("ECHO", 7); ("AB", 8)] /\
  footer_count (wp_fields Sample.echo_wire_garbled) = 1%nat /\
  Sample.decode 100 (wire_packet_bytes Sample.echo_wire_garbled)
  = (Ok Sample.echo_packet,
     repeat footer_warning (footer_count (wp_fields Sample.echo_wire_garbled))).
Proof.
  assert (Hok : wire_packet_ok Sample.echo_wire_garbled = true)
    by (vm_compute; reflexivity).
  assert (Hlen : (length (wire_packet_bytes Sample.echo_wire_garbled) <= 100)%nat)
    by (vm_compute; lia).
  assert (H : Sample.decode 100 (wire_packet_bytes Sample.echo_wire_garbled)
              = (Ok Sample.echo_packet, [footer_warning]))
    by (vm_compute; reflexivity).
  split; [exact Hok|]. split; [reflexivity|]. split; [reflexivity|].
  destruct (decode_packet_keeps_field_order Sample.decode_value
              Sample.unix_to_datetime _ _ _ _ Hok Hlen H) as [_ [_ [_ Hws]]].
  rewrite H. now rewrite Hws.
Defined.

Lemma field_type_id_ignored_witness :
  wire_packet_ok Sample.echo_wire = true /\
  Sample.decode 100 (wire_packet_bytes (with_field_type_id xff Sample.echo_wire))
  = Sample.decode 100 (wire_packet_bytes Sample.echo_wire).
Proof.
  assert (Hok : wire_packet_ok Sample.echo_wire = true) by (vm_compute; reflexivity).
  assert (Hlen : (length (wire_packet_bytes Sample.echo_wire) <= 100)%nat)
    by (vm_compute; lia).
  split; [exact Hok|].
  exact (field_type_id_ignored Sample.decode_value Sample.unix_to_datetime
           Sample.echo_wire xff 100 Hok Hlen).
Defined.

Lemma encode_packet_domain_witness :
  Sample.encode "TEST" 1 (0, 0) Sample.info0 (packet_fields Sample.echo_packet)
  = Ok (wire_packet_bytes Sample.echo_wire) /\
  encodable_packet Sample.encode_value Sample.datetime_to_unix 1 (0, 0)
    (packet_fields Sample.echo_packet) /\
  Z.of_nat (length (wire_packet_bytes Sample.echo_wire))
  = 32 + fields_wire_size Sample.encode_value (packet_fields Sample.echo_packet) + 8.
Proof.
  assert (H : Sample.encode "TEST" 1 (0, 0) Sample.info0
                (packet_fields Sample.echo_packet)
              = Ok (wire_packet_bytes Sample.echo_wire)) by (vm_compute; reflexivity).
  split; [exact H|].
  destruct (encode_packet_domain Sample.encode_value Sample.datetime_to_unix
              "TEST" 1 (0, 0) Sample.info0 (packet_fields Sample.echo_packet))
    as [Hdom Hlen].
  split; [exact (proj1 Hdom (ex_intro _ _ H))|exact (Hlen _ H)].
Defined.

Lemma encode_packet_headers_witness :
  Sample.encode "TEST" 1 (0, 0) Sample.info0 (packet_fields Sample.echo_packet)
  = Ok (wire_packet_bytes Sample.echo_wire) /\
  Z.of_nat (length (wire_packet_bytes Sample.echo_wire)) mod 4 = 0.
Proof.
  assert (H : Sample.encode "TEST" 1 (0, 0) Sample.info0
                (packet_fields Sample.echo_packet)
              = Ok (wire_packet_bytes Sample.echo_wire)) by (vm_compute; reflexivity).
  split; [exact H|].
  destruct (encode_packet_headers Sample.encode_value Sample.datetime_to_unix
              _ _ _ _ _ _ H) as [blocks [_ [_ Hmod]]].
  exact Hmod.
Defined.

Lemma zero_size_param_never_returns_witness :
  decode_params Sample.decode_value 1000 Sample.spin_body 12 20 [] []
  = (OutOfFuel, []).
Proof.
  exact (zero_size_param_never_returns Sample.decode_value Sample.spin_body
           (firstn 8 (skipn 12 Sample.spin_body)) 12 20 (Sample.Str "")
           eq_refl eq_refl eq_refl eq_refl eq_refl 1000%nat [] []).
Defined.

End PacketMoreExamples.

(** ** More of the client connection on concrete runs *)

Module ClientMoreExamples.

Import ClientTheorems ReaderTheorems ClientMoreTheorems.

Open Scope string_scope.
Open Scope list_scope.

Lemma recv_field_skips_unrelated_witness :
  forallb (ClientMore.no_match "Y" "CMD1" None) [Sample.erro_packet] = true /\
  recv_field (Sample.client0 true) "Y" "CMD1" None
    [Ok Sample.erro_packet; Ok (mkPacketData "Y" 4 (0, 0) Sample.info0
                                  [mkFieldData "CMD1" 9 []])] []
  = (Returned [], []).
Proof.
  split; [reflexivity|].
  exact (recv_field_skips_unrelated (Sample.client0 true) "Y" "CMD1" None
           [Sample.erro_packet]
           [Ok (mkPacketData "Y" 4 (0, 0) Sample.info0 [mkFieldData "CMD1" 9 []])]
           [] eq_refl).
Defined.

Lemma auto_ackn_semantics_witness :
  recv_field_scan (Sample.client0 true) "X" "CMD1" None
    [mkFieldData "CMD1" 7 [("ACKN", Sample.U32 1)];
     mkFieldData "CMD1" 7 [("RSLT", Sample.Str "ok")]] []
  = (Ok (Some [("RSLT", Sample.Str "ok")]), []).
Proof.
  exact (auto_ackn_semantics (Sample.client0 true) "X" "CMD1" None
           (mkFieldData "CMD1" 7 [("ACKN", Sample.U32 1)])
           [mkFieldData "CMD1" 7 [("RSLT", Sample.Str "ok")]] []
           eq_refl (or_intror eq_refl) (or_intror eq_refl)).
Defined.

Lemma send_response_lookup_witness :
  NoDup (map fst [("F1", [("K", Sample.U32 1)]); ("F2", @nil (string * Sample.value))]) /\
  ClientMore._fields_lookup
    (snd (ClientMore.send_response (Sample.client0 true) "A"
            [("F1", [("K", Sample.U32 1)]); ("F2", [])]))
  = [("F1", 1); ("F2", 2)] /\
  exists fs : list (FieldData Sample.value),
    _writer (fst (ClientMore.send_response (Sample.client0 true) "A"
                    [("F1", [("K", Sample.U32 1)]); ("F2", [])]))
    = [("A", 3, fs)].
Proof.
  assert (Hnd : NoDup (map fst [("F1", [("K", Sample.U32 1)]);
                                ("F2", @nil (string * Sample.value))])).
  { repeat constructor; cbn; intuition discriminate. }
  split; [exact Hnd|]. split; [reflexivity|].
  destruct (send_response_lookup (Sample.client0 true) "A"
              [("F1", [("K", Sample.U32 1)]); ("F2", [])] Hnd) as [fs H].
  exists fs.
  destruct (ClientMore.send_response (Sample.client0 true) "A"
              [("F1", [("K", Sample.U32 1)]); ("F2", [])]) as [self' response].
  exact (proj1 H).
Defined.

Lemma execute_correlates_by_id_witness :
  snd (ClientMore.execute (Sample.client0 true) "X" "CMD1" None
         [Ok Sample.reply_packet;
          Ok (mkPacketData "X" 4 (0, 0) Sample.info0
                [mkFieldData "CMD1" 1 [("RSLT", Sample.Str "mine")]])] [])
  = Some (Returned [("RSLT", Sample.Str "mine")], []).
Proof.
  destruct (execute_correlates_by_id (Sample.client0 true) "X" "CMD1" None
              Sample.reply_packet
              [Ok (mkPacketData "X" 4 (0, 0) Sample.info0
                     [mkFieldData "CMD1" 1 [("RSLT", Sample.Str "mine")]])] [])
    as [_ Hskip].
  specialize (Hskip eq_refl).
  destruct (execute_correlates_by_id (Sample.client0 true) "X" "CMD1" None
              Sample.reply_packet
              [Ok Sample.reply_packet;
               Ok (mkPacketData "X" 4 (0, 0) Sample.info0
                     [mkFieldData "CMD1" 1 [("RSLT", Sample.Str "mine")]])] [])
    as [Hex _].
  rewrite Hex. cbn [snd]. rewrite Hskip. reflexivity.
Defined.

Lemma reader_stops_at_cancellation_witness :
  _run_reader Sample.client1
    [ReadPacket Sample.reply_packet; ReadCancelled; ReadPacket Sample.erro_packet] 0
  = (resolve_active Sample.client1 (Result Sample.reply_packet), ReaderCancelled, 2%nat).
Proof.
  exact (reader_stops_at_cancellation [ReadPacket Sample.reply_packet]
           [ReadPacket Sample.erro_packet] eq_refl Sample.client1 0).
Defined.

Lemma reader_keeps_first_outcome_witness :
  lookup_future 0
    (_waiters (fst (fst (_run_reader Sample.client1
                           [ReadPacket Sample.reply_packet;
                            ReadPacket Sample.erro_packet] 0))))
  = Result Sample.reply_packet.
Proof.
  rewrite (proj2 (reader_keeps_first_outcome Sample.client1
                    (ReadPacket Sample.reply_packet)
                    [ReadPacket Sample.erro_packet] 0 eq_refl)).
  reflexivity.
Defined.

Lemma exception_reaches_every_caller_witness :
  waiters_fresh (Sample.client0 true) /\
  snd (ClientMore.fan_out_outcome (Sample.client0 true) 3 "X" "CMD1"
         (Exception Sample.read_error))
  = [Raised Sample.read_error; Raised Sample.read_error; Raised Sample.read_error] /\
  _waiters (fst (ClientMore.fan_out_outcome (Sample.client0 true) 3 "X" "CMD1"
                   (Exception Sample.read_error)))
  = [].
Proof.
  assert (Hfresh : waiters_fresh (Sample.client0 true : Client Sample.value Sample.datetime))
    by constructor.
  split; [exact Hfresh|].
  rewrite (exception_reaches_every_caller (Sample.client0 true) 3 "X" "CMD1"
             Sample.read_error Hfresh).
  split; reflexivity.
Defined.

Lemma close_rejects_pending_witness :
  _waiters (ClientMore.link_client
              (ClientMore.close Sample.read_error
                 (ClientMore.mkLink Sample.client1 false false)))
  = [(0%nat, Exception Sample.read_error)] /\
  In (0%nat, Exception Sample.read_error)
    (_waiters (ClientMore.link_client
                 (ClientMore.close Sample.read_error
                    (ClientMore.mkLink Sample.client1 false false)))).
Proof.
  split; [reflexivity|].
  exact (proj1 (proj2 (proj2 (proj2
           (close_rejects_pending Sample.read_error
              (ClientMore.mkLink Sample.client1 false false)))))
           0%nat Pending (or_introl eq_refl)).
Defined.

Lemma handle_auth_writes_witness :
  snd (fst (ClientMore._handle_auth (Sample.Str "abcd") (Sample.client0 true)
              [Ok Sample.reply_packet] []))
  = ClientMore.AuthWaiting /\
  _writer (fst (fst (ClientMore._handle_auth (Sample.Str "abcd") (Sample.client0 true)
                       [Ok Sample.reply_packet] [])))
  = [] /\
  snd (fst (ClientMore._handle_auth (Sample.Str "abcd") (Sample.client0 true)
              [Raise Sample.read_error] []))
  = ClientMore.AuthRaised Sample.read_error.
Proof.
  destruct (handle_auth_writes (Sample.Str "abcd") (Sample.client0 true)
              [Ok Sample.reply_packet] []) as [k [_ [Hw [_ [_ [_ Hwait]]]]]].
  destruct Hwait as [Hk Hst].
  split; [exact Hst|]. split; [rewrite Hw, Hk; reflexivity|].
  destruct (handle_auth_writes (Sample.Str "abcd") (Sample.client0 true)
              [Raise Sample.read_error] []) as [k' [_ [_ [_ [_ [_ Hraise]]]]]].
  exact (proj2 Hraise).
Defined.

Lemma handle_auth_completes_witness :
  ClientMore.answers (Sample.client0 true) "HELO"
    (mkPacketData "LINK" 1 (0, 0) Sample.info0 [mkFieldData "HELO" 1 []]) /\
  ClientMore._handle_auth (Sample.Str "abcd") (Sample.client0 true)
    [Ok (mkPacketData "LINK" 1 (0, 0) Sample.info0 [mkFieldData "HELO" 1 []]);
     Ok (mkPacketData "LINK" 2 (0, 0) Sample.info0 [mkFieldData "SCAR" 2 []]);
     Ok (mkPacketData "LINK" 3 (0, 0) Sample.info0 [mkFieldData "SCON" 3 []])] []
  = (mkClient true true true 4
       [("LINK", 2, [mkFieldData "CCRE" 1 [("CIW", Sample.Str "abcd")]]);
        ("LINK", 4, [mkFieldData "CARE" 3 [("CAR", Sample.Str "abcd")]])]
       [] 0,
     ClientMore.AuthDone, []) /\
  snd (fst (ClientMore._handle_auth (Sample.Str "abcd") (Sample.client0 true)
    [Ok (mkPacketData "LINK" 1 (0, 0) Sample.info0 [mkFieldData "HELO" 1 []]);
     Ok (mkPacketData "LINK" 2 (0, 0) Sample.info0 [mkFieldData "SCAR" 2 []]);
     Ok (mkPacketData "LINK" 3 (0, 0) Sample.info0 [mkFieldData "SCON" 3 []])] []))
  = ClientMore.AuthDone.
Proof.
  assert (H1 : ClientMore.answers (Sample.client0 true) "HELO"
                 (mkPacketData "LINK" 1 (0, 0) Sample.info0 [mkFieldData "HELO" 1 []])).
  { split; [reflexivity|]. split; [reflexivity|].
    constructor; [intros _; reflexivity|constructor]. }
  assert (H2 : ClientMore.answers (Sample.client0 true) "SCAR"
                 (mkPacketData "LINK" 2 (0, 0) Sample.info0 [mkFieldData "SCAR" 2 []])).
  { split; [reflexivity|]. split; [reflexivity|].
    constructor; [intros _; reflexivity|constructor]. }
  assert (H3 : ClientMore.answers (Sample.client0 true) "SCON"
                 (mkPacketData "LINK" 3 (0, 0) Sample.info0 [mkFieldData "SCON" 3 []])).
  { split; [reflexivity|]. split; [reflexivity|].
    constructor; [intros _; reflexivity|constructor]. }
  split; [exact H1|]. split; [reflexivity|].
  exact (proj1 (handle_auth_completes (Sample.Str "abcd") (Sample.client0 true)
                  _ _ _ [] H1 H2 H3)).
Defined.

End ClientMoreExamples.
